(** * Distributed API request router (framework/wazuh/cluster/dapi/dapi.py)

    A shallow embedding of the [DistributedAPI] router, its result merge,
    the solver-node resolution, the inbound [APIRequestQueue] consumer and
    the [as_callable] decoder, followed by the properties of the design
    document that can be stated over them.

    Conventions of the embedding.
    - Python values that travel through the router are JSON trees plus opaque
      callables and other objects known by identity ([value]); floats are not
      modelled, and the text of the message of a built-in exception is not
      the interpreter's (its class is).
      Payloads are trees: no object is shared between two positions of a
      contributor's answer (as is the case for every answer decoded by
      [json.loads]).
    - Exceptions are those of the [Exception] hierarchy, which the handlers
      of the source name.
    - A [dict] is an association list in insertion order with string keys.
    - A method of [DistributedAPI] is a computation of the monad [M]: it
      reads and writes the object ([self]) and ends in a value, a raised
      exception, or never returns.  The object survives a raised exception.
    - Collaborators that are not part of this file of the repository (cluster
      configuration, agent directory, peer channel, [json.dumps] and
      [json.loads], [utils.sort_array], [common.database_limit], the
      interpreter's set iteration order, the target function) are the fields
      of [Env]. *)

From Stdlib Require Import ZArith List String Ascii Bool Lia Permutation.
Import ListNotations.
Local Open Scope string_scope.
Local Open Scope Z_scope.
Set Warnings "-register-all".

(* ===================================================================== *)
(** * Python values                                                       *)
(* ===================================================================== *)

(** What [as_callable] can resolve an encoded function to: a reference to
    the attribute that [getattr] finds.  Nothing checks that the attribute
    can be called; what calling it does is [call] of the environment. *)
Inductive callable :=
| ModuleAttr (module_path funcname : string)              (* getattr(module, funcname) *)
| ClassAttr (module_path classname funcname : string)     (* getattr(getattr(module, classname), funcname) *)
| WazuhMethod (ossec_path : string) (funcname : string).  (* getattr(Wazuh(ossec_path=...), funcname) *)

Inductive value :=
| VNone
| VBool (b : bool)
| VInt (z : Z)
| VStr (s : string)
| VBytes (s : string)
| VList (l : list value)
| VDict (d : list (string * value))
| VCallable (c : callable)
| VObject (name : string).      (* any other object, known by its identity:
                                   a coroutine that nobody awaited *)

Definition dict := list (string * value).

Inductive exn :=
| WazuhException (code : Z) (message : string)   (* exception.WazuhException *)
| TimeoutError                                   (* asyncio.TimeoutError *)
| PyError (cls : string) (str : string).         (* any other subclass of Exception *)

(** Outcome of running a piece of code. *)
Inductive res (A : Type) :=
| Ok (a : A)
| Raise (e : exn)
| Hang.                                          (* the awaited task never completes *)
Arguments Ok {A} a.
Arguments Raise {A} e.
Arguments Hang {A}.

Definition res_bind {A B} (r : res A) (k : A -> res B) : res B :=
  match r with
  | Ok a => k a
  | Raise e => Raise e
  | Hang => Hang
  end.

Definition TypeError {A} (s : string) : res A := Raise (PyError "TypeError" s).
Definition KeyError {A} (s : string) : res A := Raise (PyError "KeyError" s).
Definition AttributeError {A} (s : string) : res A := Raise (PyError "AttributeError" s).

(** ** Dictionaries *)

Fixpoint dict_get {A} (d : list (string * A)) (k : string) : option A :=
  match d with
  | [] => None
  | (k', v) :: rest => if String.eqb k k' then Some v else dict_get rest k
  end.

Definition dict_mem {A} (d : list (string * A)) (k : string) : bool :=
  match dict_get d k with Some _ => true | None => false end.

(** [d[k] = v]: an existing key keeps its position, a new key goes last. *)
Fixpoint dict_set {A} (d : list (string * A)) (k : string) (v : A) : list (string * A) :=
  match d with
  | [] => [(k, v)]
  | (k', v') :: rest =>
      if String.eqb k k' then (k', v) :: rest else (k', v') :: dict_set rest k v
  end.

(** [del d[k]] for a key that is present. *)
Fixpoint dict_del {A} (d : list (string * A)) (k : string) : list (string * A) :=
  match d with
  | [] => []
  | (k', v') :: rest =>
      if String.eqb k k' then rest else (k', v') :: dict_del rest k
  end.

(** ** Equality ([==]) *)

Definition callable_eqb (a b : callable) : bool :=
  match a, b with
  | ModuleAttr m f, ModuleAttr m' f' => String.eqb m m' && String.eqb f f'
  | ClassAttr m c f, ClassAttr m' c' f' => String.eqb m m' && String.eqb c c' && String.eqb f f'
  | WazuhMethod p f, WazuhMethod p' f' => String.eqb p p' && String.eqb f f'
  | _, _ => false
  end.

(** Python's [a == b]: [True == 1], lists compare element-wise, dicts
    compare as mappings (the order of the keys does not count). *)
Fixpoint py_eqb (a b : value) {struct a} : bool :=
  match a with
  | VNone => match b with VNone => true | _ => false end
  | VBool x =>
      match b with
      | VBool y => Bool.eqb x y
      | VInt z => Z.eqb (Z.b2z x) z
      | _ => false
      end
  | VInt z =>
      match b with
      | VInt z' => Z.eqb z z'
      | VBool y => Z.eqb z (Z.b2z y)
      | _ => false
      end
  | VStr s => match b with VStr s' => String.eqb s s' | _ => false end
  | VBytes s => match b with VBytes s' => String.eqb s s' | _ => false end
  | VList l =>
      match b with
      | VList l' =>
          (fix all2 (xs ys : list value) {struct xs} : bool :=
             match xs, ys with
             | [], [] => true
             | x :: xs', y :: ys' => py_eqb x y && all2 xs' ys'
             | _, _ => false
             end) l l'
      | _ => false
      end
  | VDict d =>
      match b with
      | VDict d' =>
          Nat.eqb (List.length d) (List.length d') &&
          (fix sub (kvs : list (string * value)) {struct kvs} : bool :=
             match kvs with
             | [] => true
             | (k, v) :: rest =>
                 match dict_get d' k with
                 | Some v' => py_eqb v v'
                 | None => false
                 end && sub rest
             end) d
      | _ => false
      end
  | VCallable c => match b with VCallable c' => callable_eqb c c' | _ => false end
  | VObject n => match b with VObject n' => String.eqb n n' | _ => false end
  end.

(** [x in l] for a list [l]. *)
Definition py_in_list (x : value) (l : list value) : bool :=
  existsb (fun e => py_eqb e x) l.

(** Lists and dicts cannot be hashed (set elements, dict keys, tuple members
    of a set). *)
Definition hashable (v : value) : bool :=
  match v with
  | VList _ | VDict _ => false
  | _ => true
  end.

(** [k in s] for two strings: [k] occurs in [s]. *)
Fixpoint is_substring (k s : string) : bool :=
  String.prefix k s ||
  match s with
  | EmptyString => false
  | String _ s' => is_substring k s'
  end.

(** [key in c] for a string [key]. *)
Definition py_contains (key : string) (c : value) : res bool :=
  match c with
  | VDict d => Ok (dict_mem d key)
  | VList l => Ok (py_in_list (VStr key) l)
  | VStr s => Ok (is_substring key s)
  | _ => TypeError "argument is not iterable"
  end.

(** [c[key]] for a string [key]. *)
Definition py_getitem (c : value) (key : string) : res value :=
  match c with
  | VDict d =>
      match dict_get d key with
      | Some v => Ok v
      | None => KeyError key
      end
  | VList _ | VStr _ => TypeError "indices must be integers"
  | _ => TypeError "object is not subscriptable"
  end.

(** [c[key] = v] for a string [key]; the container after the assignment. *)
Definition py_setitem (c : value) (key : string) (v : value) : res value :=
  match c with
  | VDict d => Ok (VDict (dict_set d key v))
  | VList _ => TypeError "list indices must be integers"
  | _ => TypeError "object does not support item assignment"
  end.

(** An integer operand: [int], or [bool] (a subclass of [int]). *)
Definition as_int (v : value) : res Z :=
  match v with
  | VInt z => Ok z
  | VBool b => Ok (Z.b2z b)
  | _ => TypeError "unsupported operand type"
  end.

(** [l[start:stop]] with Python's treatment of negative and oversized
    bounds. *)
Definition slice_bound (n i : Z) : Z :=
  if i <? 0 then Z.max 0 (i + n) else Z.min i n.

Definition py_slice {A} (l : list A) (start stop : Z) : list A :=
  let n := Z.of_nat (List.length l) in
  let a := slice_bound n start in
  let b := slice_bound n stop in
  firstn (Z.to_nat (b - a)) (skipn (Z.to_nat a) l).

(* ===================================================================== *)
(** * The DistributedAPI object, its collaborators, the method monad      *)
(* ===================================================================== *)

(** What leaves or enters the process, recorded in the order it happens. *)
Inductive event :=
| LocalCall (f : value) (kwargs : dict)                     (* self.f( **self.f_kwargs ) *)
| PeerSend (command : string) (dest : option value) (call : dict).
                                                            (* self.node.execute(command, ...) *)

(** The fields set by [__init__] ([logger], [pretty] and [request_id] play no
    part in any result).  [trace] is not a field of the Python object: it
    records the calls the object makes to the outside. *)
Record DistributedAPI := mkDAPI {
  f : value;
  f_kwargs : dict;
  debug : bool;
  request_type : string;
  wait_for_complete : bool;
  from_cluster : bool;
  is_async : bool;
  node_type : string;            (* self.node_info['type'] *)
  node_name : string;            (* self.node_info['node'] *)
  trace : list event
}.

Definition set_f_kwargs (kw : dict) (s : DistributedAPI) : DistributedAPI :=
  mkDAPI (f s) kw (debug s) (request_type s) (wait_for_complete s) (from_cluster s)
         (is_async s) (node_type s) (node_name s) (trace s).

Definition set_from_cluster (b : bool) (s : DistributedAPI) : DistributedAPI :=
  mkDAPI (f s) (f_kwargs s) (debug s) (request_type s) (wait_for_complete s) b
         (is_async s) (node_type s) (node_name s) (trace s).

Definition log_event (e : event) (s : DistributedAPI) : DistributedAPI :=
  mkDAPI (f s) (f_kwargs s) (debug s) (request_type s) (wait_for_complete s) (from_cluster s)
         (is_async s) (node_type s) (node_name s) (trace s ++ [e]).

(** A run, of a call or of an awaitable: how long it takes ([None]: it never
    completes) and how it ends. *)
Record task := mkTask {
  duration : option Z;
  outcome : res value
}.

(** What [self.f( **self.f_kwargs )] does where it is called. *)
Inductive call_result :=
| Returns (t : task)                     (* an ordinary function: the call runs as [t] *)
| Coroutine (name : string) (t : task).  (* a coroutine function: the call gives at once
                                            the coroutine [name], which runs as [t]
                                            when it is awaited *)

(** One entry of the agent directory: [{'id': ..., 'node_name': ...}]. *)
Record agent_item := mkAgent {
  agent_id : value;
  agent_node : value
}.

Record Env := mkEnv {
  (* cluster.get_cluster_items()['distributed_api']['enabled'] *)
  dapi_enabled : res bool;
  (* cluster.check_cluster_status() *)
  check_cluster_status : res bool;
  (* self.cluster_items['intervals']['communication']['timeout_api_request'] *)
  timeout_api_request : res Z;
  (* the message exception.WazuhException(code) carries *)
  wazuh_error_message : Z -> string;
  (* calling a callable with keyword arguments *)
  call : callable -> dict -> call_result;
  (* json.dumps(obj, cls=CallableEncoder).encode() *)
  json_dumps : value -> res string;
  (* self.node.execute(command, data, wait_for_complete), data being the text
     alone or the name of a node and the text: the bytes answered *)
  node_execute : string -> option value -> string -> bool -> res string;
  (* json.loads on the bytes a peer answered *)
  json_loads : string -> res value;
  (* agent.Agent.get_agents_overview(select, limit=None, filters={'id': ids},
       sort={'fields': [field], 'order': 'desc'})['items']   ([None]: no filter) *)
  get_agents_overview : option (list value) -> string -> res (list agent_item);
  (* agent.Agent.get_agent(agent_id, select)['node_name'] *)
  get_agent : value -> res value;
  (* list(s) for a set s whose elements are given without repetition *)
  set_iteration : list value -> list value;
  (* utils.sort_array(array, fields, order) *)
  sort_array : list value -> value -> value -> res (list value);
  (* common.database_limit *)
  database_limit : Z
}.

(** Code that runs on a mutable state [S]. *)
Definition ST (S A : Type) : Type := S -> res A * S.

Definition ret {S A} (a : A) : ST S A := fun s => (Ok a, s).
Definition raise {S A} (e : exn) : ST S A := fun s => (Raise e, s).
Definition lift {S A} (r : res A) : ST S A := fun s => (r, s).
Definition bind {S A B} (c : ST S A) (k : A -> ST S B) : ST S B :=
  fun s =>
    match c s with
    | (Ok a, s') => k a s'
    | (Raise e, s') => (Raise e, s')
    | (Hang, s') => (Hang, s')
    end.
Definition gets {S A} (p : S -> A) : ST S A := fun s => (Ok (p s), s).
Definition modify {S} (g : S -> S) : ST S unit := fun s => (Ok tt, g s).

(** A method of [DistributedAPI]. *)
Definition M (A : Type) : Type := ST DistributedAPI A.

Declare Scope dapi_scope.
Delimit Scope dapi_scope with dapi.
Notation "x <- c ;; k" := (bind c (fun x => k))
  (at level 61, c at next level, right associativity) : dapi_scope.
Notation "c ;;; k" := (bind c (fun _ => k))
  (at level 61, right associativity) : dapi_scope.
Local Open Scope dapi_scope.

(** [try: c  except exception.WazuhException / except Exception]: the handler
    sees the exception and the object as the body left it. *)
Definition try_except {S A} (c : ST S A) (handler : exn -> ST S A) : ST S A :=
  fun s =>
    match c s with
    | (Raise e, s') => handler e s'
    | other => other
    end.

(** ** print_json *)

(** [output = {'message' if error else 'data': data, 'error': error}]; the
    dictionary itself is returned (the [json.dumps] line is commented out). *)
Definition print_json (data : value) (error : Z) : value :=
  VDict [((if Z.eqb error 0 then "data" else "message"), data); ("error", VInt error)].

(* ===================================================================== *)
(** * merge_results                                                       *)
(* ===================================================================== *)

Section Router.

Variable env : Env.

(** [(field, final_json[key]) in priorities], with
    [priorities = {("Some agents were not restarted",
                    "All selected agents were restarted")}].
    The pair is hashed before it is looked up. *)
Definition in_priorities (field cur : value) : res bool :=
  if hashable field && hashable cur
  then Ok (py_eqb field (VStr "Some agents were not restarted") &&
           py_eqb cur (VStr "All selected agents were restarted"))
  else TypeError "unhashable type".

(** The last block of [merge_results] (lines 287-299): defaults for
    [offset] and [limit] written into [self.f_kwargs], the declared sort,
    the slice. *)
Definition paginate (final_json : value) : M value :=
  has_data <- lift (py_contains "data" final_json) ;;
  if negb has_data then ret final_json else
  data <- lift (py_getitem final_json "data") ;;
  has_items <- lift (py_contains "items" data) ;;
  if negb has_items then ret final_json else
  items <- lift (py_getitem data "items") ;;
  match items with
  | VList unsorted =>
      kw0 <- gets f_kwargs ;;
      (if dict_mem kw0 "offset" then ret tt
       else modify (set_f_kwargs (dict_set kw0 "offset" (VInt 0)))) ;;;
      kw1 <- gets f_kwargs ;;
      (if dict_mem kw1 "limit" then ret tt
       else modify (set_f_kwargs (dict_set kw1 "limit" (VInt (database_limit env))))) ;;;
      kw <- gets f_kwargs ;;
      arranged <-
        (if dict_mem kw "sort" then
           sort <- lift (py_getitem (VDict kw) "sort") ;;
           fields <- lift (py_getitem sort "fields") ;;
           order <- lift (py_getitem sort "order") ;;
           lift (sort_array env unsorted fields order)
         else ret unsorted) ;;
      offset_v <- lift (py_getitem (VDict kw) "offset") ;;
      limit_v <- lift (py_getitem (VDict kw) "limit") ;;
      offset <- lift (as_int offset_v) ;;
      limit <- lift (as_int limit_v) ;;
      data' <- lift (py_setitem data "items" (VList (py_slice arranged offset (offset + limit)))) ;;
      lift (py_setitem final_json "data" data')
  | _ => ret final_json
  end.

(** The body of the inner loop (lines 264-285) for one [key, field] of a
    contributor, on the accumulator [final_json]; the accumulator after it.
    In the [dict] case the nested loop followed by [paginate] is the
    recursive call [self.merge_results([field], ...)]. *)
Fixpoint merge_field (key : string) (field : value) (final_json : value) {struct field}
  : M value :=
  match field with
  | VDict items =>
      present <- lift (py_contains key final_json) ;;
      sub <- (if present then lift (py_getitem final_json key) else ret (VDict [])) ;;
      merged <-
        (fix each (its : list (string * value)) (acc : value) {struct its} : M value :=
           match its with
           | [] => ret acc
           | (k, v) :: rest => acc' <- merge_field k v acc ;; each rest acc'
           end) items sub ;;
      paged <- paginate merged ;;
      lift (py_setitem final_json key paged)
  | VList elems =>
      present <- lift (py_contains key final_json) ;;
      if present then
        cur <- lift (py_getitem final_json key) ;;
        match cur with
        | VList have =>
            lift (py_setitem final_json key
                    (VList (have ++ filter (fun elem => negb (py_in_list elem have)) elems)))
        | _ => lift (AttributeError "object has no attribute 'extend'")
        end
      else lift (py_setitem final_json key field)
  | VInt n =>
      present <- lift (py_contains key final_json) ;;
      if present then
        if String.eqb key "totalItems" then
          cur <- lift (py_getitem final_json key) ;;
          c <- lift (as_int cur) ;;
          lift (py_setitem final_json key (VInt (c + n)))
        else if String.eqb key "error" then
          cur <- lift (py_getitem final_json key) ;;
          c <- lift (as_int cur) ;;
          if c <? n then lift (py_setitem final_json key field) else ret final_json
        else ret final_json
      else lift (py_setitem final_json key field)
  | _ =>
      present <- lift (py_contains key final_json) ;;
      if present then
        cur <- lift (py_getitem final_json key) ;;
        wins <- lift (in_priorities field cur) ;;
        if wins then lift (py_setitem final_json key field) else ret final_json
      else lift (py_setitem final_json key field)
  end.

(** [for key, field in local_json.items(): ...] *)
Fixpoint merge_items (items : dict) (final_json : value) : M value :=
  match items with
  | [] => ret final_json
  | (key, field) :: rest =>
      final_json' <- merge_field key field final_json ;;
      merge_items rest final_json'
  end.

Definition merge_local (local_json : value) (final_json : value) : M value :=
  match local_json with
  | VDict items => merge_items items final_json
  | _ => lift (AttributeError "object has no attribute 'items'")
  end.

(** [for local_json in responses: ...] *)
Fixpoint merge_responses (responses : list value) (final_json : value) : M value :=
  match responses with
  | [] => ret final_json
  | local_json :: rest =>
      final_json' <- merge_local local_json final_json ;;
      merge_responses rest final_json'
  end.

Definition merge_results (responses : list value) (final_json : value) : M value :=
  merged <- merge_responses responses final_json ;;
  paginate merged.

(* ===================================================================== *)
(** * get_solver_node                                                     *)
(* ===================================================================== *)

(** The solver map: a Python dict from node name to list of agent ids, in
    insertion order.  Keys are compared with [==]. *)
Definition solver_map := list (value * list value).

Fixpoint solver_get (m : solver_map) (k : value) : option (list value) :=
  match m with
  | [] => None
  | (k', ids) :: rest => if py_eqb k' k then Some ids else solver_get rest k
  end.

Fixpoint solver_set (m : solver_map) (k : value) (ids : list value) : solver_map :=
  match m with
  | [] => [(k, ids)]
  | (k', ids') :: rest =>
      if py_eqb k' k then (k', ids) :: rest else (k', ids') :: solver_set rest k ids
  end.

(** [itertools.groupby(agents, key=operator.itemgetter('node_name'))]: runs
    of consecutive items with equal node name, each under the name of its
    first item. *)
Fixpoint groupby (agents : list agent_item) : list (value * list agent_item) :=
  match agents with
  | [] => []
  | a :: rest =>
      match groupby rest with
      | (k, g) :: groups =>
          if py_eqb (agent_node a) k then (agent_node a, a :: g) :: groups
          else (agent_node a, [a]) :: (k, g) :: groups
      | [] => [(agent_node a, [a])]
      end
  end.

(** [{k: value_of g for k, g in groups}]: a later group under a name already
    present replaces the earlier one. *)
Fixpoint dict_of_groups (value_of : list agent_item -> list value)
         (groups : list (value * list agent_item)) (acc : solver_map) : res solver_map :=
  match groups with
  | [] => Ok acc
  | (k, g) :: rest =>
      if hashable k then dict_of_groups value_of rest (solver_set acc k (value_of g))
      else TypeError "unhashable type"
  end.

(** [set(l)] as the list of its elements in order of first insertion. *)
Fixpoint py_set (l : list value) (seen : list value) : res (list value) :=
  match l with
  | [] => Ok seen
  | x :: rest =>
      if hashable x then
        py_set rest (if py_in_list x seen then seen else seen ++ [x])
      else TypeError "unhashable type"
  end.

Definition get_solver_node : M solver_map :=
  kw <- gets f_kwargs ;;
  match dict_get kw "agent_id" with
  | Some (VList wanted) =>
      (* the request is for multiple agents *)
      agents <- lift (get_agents_overview env (Some wanted) "node") ;;
      node_name0 <- lift (dict_of_groups (map agent_id) (groupby agents) []) ;;
      requested <- lift (py_set wanted []) ;;
      found <- lift (py_set (map agent_id agents) []) ;;
      let non_existent_ids :=
        set_iteration env (filter (fun i => negb (py_in_list i found)) requested) in
      own <- gets node_name ;;
      match non_existent_ids with
      | [] => ret node_name0
      | _ :: _ =>
          match solver_get node_name0 (VStr own) with
          | Some ids => ret (solver_set node_name0 (VStr own) (ids ++ non_existent_ids))
          | None => ret (solver_set node_name0 (VStr own) non_existent_ids)
          end
      end
  | Some one =>
      (* the request is only for one agent *)
      node <- lift (get_agent env one) ;;
      if hashable node then ret [(node, [one])] else lift (TypeError "unhashable type")
  | None =>
      match dict_get kw "node_id" with
      | Some node_id =>
          modify (set_f_kwargs (dict_del kw "node_id")) ;;;
          if hashable node_id then ret [(node_id, [])] else lift (TypeError "unhashable type")
      | None =>
          (* API calls that affect all agents *)
          agents <- lift (get_agents_overview env None "node_name") ;;
          lift (dict_of_groups (fun _ => []) (groupby agents) [])
      end
  end.

(* ===================================================================== *)
(** * Local and remote execution                                          *)
(* ===================================================================== *)

(** [str(e)] *)
Definition exn_str (e : exn) : string :=
  match e with
  | WazuhException _ message => message
  | TimeoutError => ""
  | PyError _ str => str
  end.

(** [await asyncio.wait_for(task, timeout=timeout)] *)
Definition wait_for (t : task) (timeout : option Z) : res value :=
  match timeout, duration t with
  | None, Some _ => outcome t
  | None, None => Hang
  | Some limit, Some d => if d <=? limit then outcome t else Raise TimeoutError
  | Some _, None => Raise TimeoutError
  end.

(** [run_local]: [data = self.f( **self.f_kwargs )]. *)
Definition run_local : M call_result :=
  s <- gets (fun s => s) ;;
  match f s with
  | VCallable c =>
      modify (log_event (LocalCall (f s) (f_kwargs s))) ;;;
      ret (call env c (f_kwargs s))
  | _ => lift (TypeError "object is not callable")
  end.

(** What [task] (lines 115-119) is when [asyncio.wait_for] gets it. *)
Inductive awaited :=
| Future (t : task)            (* an awaitable that runs as [t] *)
| NotAwaitable (v : value).    (* an object that cannot be awaited *)

(** [task = run_local()], when [is_async]: the call runs where it stands, to
    its end and under no deadline; what it returned is the task. *)
Definition on_loop (called : call_result) : res awaited :=
  match called with
  | Returns t =>
      match duration t with
      | Some _ => res_bind (outcome t) (fun v => Ok (NotAwaitable v))
      | None => Hang
      end
  | Coroutine _ t => Ok (Future t)
  end.

(** [task = loop.run_in_executor(None, run_local)]: the call runs in a thread
    and the future ends as the call does.  A coroutine function returns its
    coroutine at once, and the future holds that object, not awaited. *)
Definition in_executor (called : call_result) : awaited :=
  match called with
  | Returns t => Future t
  | Coroutine name _ => Future (mkTask (Some 0) (Ok (VObject name)))
  end.

(** [await asyncio.wait_for(task, timeout=timeout)] on what [task] is. *)
Definition wait_for_object (task : awaited) (timeout : option Z) : res value :=
  match task with
  | Future t => wait_for t timeout
  | NotAwaitable _ =>
      match timeout with
      | Some _ => TypeError "An asyncio.Future, a coroutine or an awaitable is required"
      | None => TypeError "object can't be used in 'await' expression"
      end
  end.

(** [except exception.WazuhException ... except Exception ...], the same two
    handlers in [execute_local_request] and in [distribute_function]. *)
Definition to_envelope (e : exn) : M value :=
  dbg <- gets debug ;;
  if dbg then raise e
  else match e with
       | WazuhException code message => ret (print_json (VStr message) code)
       | _ => ret (print_json (VStr (exn_str e)) 1000)
       end.

Definition execute_local_request : M value :=
  try_except
    (wfc <- gets wait_for_complete ;;
     timeout <- (if wfc then ret None
                 else t <- lift (timeout_api_request env) ;; ret (Some t)) ;;
     asy <- gets is_async ;;
     called <- run_local ;;
     task <- (if asy then lift (on_loop called) else ret (in_executor called)) ;;
     data <- try_except (lift (wait_for_object task timeout))
               (fun e => match e with
                         | TimeoutError =>
                             raise (WazuhException 3021 (wazuh_error_message env 3021))
                         | _ => raise e
                         end) ;;
     ret (print_json data 0))
    to_envelope.

Definition to_dict (s : DistributedAPI) : dict :=
  [("f", f s);
   ("f_kwargs", VDict (f_kwargs s));
   ("request_type", VStr (request_type s));
   ("wait_for_complete", VBool (wait_for_complete s));
   ("from_cluster", VBool (from_cluster s));
   ("is_async", VBool (is_async s))].

(** The request is serialized, which can fail, and sent; the bytes the
    master answers are returned as they are. *)
Definition execute_remote_request : M value :=
  s <- gets (fun s => s) ;;
  data <- lift (json_dumps env (VDict (to_dict s))) ;;
  modify (log_event (PeerSend "dapi" None (to_dict s))) ;;;
  answer <- lift (node_execute env "dapi" None data (wait_for_complete s)) ;;
  ret (VBytes answer).

(* ===================================================================== *)
(** * forward_request and distribute_function                             *)
(* ===================================================================== *)

Definition is_list (v : value) : bool :=
  match v with VList _ => true | _ => false end.

(** The inner coroutine [forward]; [reenter] is [self.distribute_function()]. *)
Definition forward (reenter : M value) (entry : value * list value) : M value :=
  let (node, ids) := entry in
  kw <- gets f_kwargs ;;
  (match ids with
   | _ :: _ =>
       match dict_get kw "agent_id" with
       | None => modify (set_f_kwargs (dict_set kw "agent_id" (VList ids)))
       | Some old =>
           if is_list old then modify (set_f_kwargs (dict_set kw "agent_id" (VList ids)))
           else ret tt
       end
   | [] => ret tt
   end) ;;;
  own <- gets node_name ;;
  if py_eqb node (VStr "unknown") || py_eqb node (VStr "") || py_eqb node (VStr own)
  then reenter
  else
    s <- gets (fun s => s) ;;
    data <- lift (json_dumps env (VDict (to_dict s))) ;;
    modify (log_event (PeerSend "dapi_forward" (Some node) (to_dict s))) ;;;
    answer <- lift (node_execute env "dapi_forward" (Some node) data
                                 (wait_for_complete s)) ;;
    lift (json_loads env answer).

(** [asyncio.gather( *[forward(node) for node in nodes.items()] )], the
    sub-calls taken one after the other in the order of the solver map; the
    interleavings of the sub-calls at their suspension points are not
    modelled. *)
Fixpoint gather (reenter : M value) (nodes : solver_map) : M (list value) :=
  match nodes with
  | [] => ret []
  | entry :: rest =>
      r <- forward reenter entry ;;
      rs <- gather reenter rest ;;
      ret (r :: rs)
  end.

Definition forward_request (reenter : M value) : M value :=
  nodes <- get_solver_node ;;
  modify (set_from_cluster true) ;;;
  match nodes with
  | _ :: _ :: _ =>
      results <- gather reenter nodes ;;
      merge_results results (VDict [])
  | [entry] => forward reenter entry
  | [] => raise (PyError "RuntimeError" "coroutine raised StopIteration")
  end.

Inductive branch := ExecuteLocal | ForwardRequest | ExecuteRemote.

(** The [if / elif / else] of lines 62-77 on the values it reads. *)
Definition route (is_dapi_enabled cluster_status : bool) (request_type node_type : string)
           (from_cluster : bool) : branch :=
  if negb is_dapi_enabled || cluster_status || String.eqb request_type "local_any" ||
     (String.eqb request_type "local_master" && String.eqb node_type "master") ||
     (String.eqb request_type "distributed_master" && from_cluster)
  then ExecuteLocal
  else if String.eqb request_type "distributed_master" && String.eqb node_type "master"
  then ForwardRequest
  else ExecuteRemote.

(** The [try] block of [distribute_function].  [cluster.check_cluster_status()]
    is only called when the distributed API is enabled ([or] short-circuits). *)
Definition distribute_body (reenter : M value) : M value :=
  is_dapi_enabled <- lift (dapi_enabled env) ;;
  cluster_status <- (if negb is_dapi_enabled then ret false
                     else lift (check_cluster_status env)) ;;
  s <- gets (fun s => s) ;;
  match route is_dapi_enabled cluster_status (request_type s) (node_type s) (from_cluster s) with
  | ExecuteLocal => execute_local_request
  | ForwardRequest => forward_request reenter
  | ExecuteRemote => execute_remote_request
  end.

(** [depth] bounds the nesting of [distribute_function] inside [forward], as
    the interpreter's recursion limit does. *)
Fixpoint distribute_function (depth : nat) : M value :=
  match depth with
  | O => raise (PyError "RecursionError" "maximum recursion depth exceeded")
  | S d => try_except (distribute_body (distribute_function d)) to_envelope
  end.

End Router.

(* ===================================================================== *)
(** * Call marshaling: as_callable                                        *)
(* ===================================================================== *)

(** [s.split(sep)] *)
Fixpoint split (sep : ascii) (s : string) : list string :=
  match s with
  | EmptyString => [EmptyString]
  | String c rest =>
      if Ascii.eqb c sep then EmptyString :: split sep rest
      else match split sep rest with
           | h :: t => String c h :: t
           | [] => [String c EmptyString]
           end
  end.

(** [s.split(sep, 1)] when [sep] occurs in [s]: what is before the first
    occurrence and what is after it. *)
Fixpoint split_once (sep : ascii) (s : string) : option (string * string) :=
  match s with
  | EmptyString => None
  | String c rest =>
      if Ascii.eqb c sep then Some (EmptyString, rest)
      else match split_once sep rest with
           | Some (a, b) => Some (String c a, b)
           | None => None
           end
  end.

(** What the interpreter of the receiving process can resolve. *)
Record Resolver := mkResolver {
  (* import_module(module_path) *)
  import_module : string -> res unit;
  (* getattr(module, name) exists *)
  module_attr : string -> string -> bool;
  (* getattr(getattr(module, classname), name) exists *)
  class_attr : string -> string -> string -> bool;
  (* Wazuh(ossec_path=path): the instance, named by its path *)
  wazuh_new : value -> res string;
  (* getattr(wazuh, name) exists *)
  wazuh_attr : string -> string -> bool
}.

Section Marshaling.

Variable resolver : Resolver.

(** The [try] block of [as_callable] for a dict that has ['__callable__']. *)
Definition decode_callable (encoded_callable : value) : res value :=
  res_bind (py_getitem encoded_callable "__name__") (fun funcname =>
  res_bind (py_contains "__wazuh__" encoded_callable) (fun bound =>
  if bound then
    (* Encoded Wazuh instance method *)
    res_bind (py_getitem encoded_callable "__wazuh__") (fun wazuh_dict =>
    match wazuh_dict with
    | VDict wd =>
        let path := match dict_get wd "path" with
                    | Some p => p
                    | None => VStr "/var/ossec"
                    end in
        res_bind (wazuh_new resolver path) (fun wazuh =>
        match funcname with
        | VStr name =>
            if wazuh_attr resolver wazuh name then Ok (VCallable (WazuhMethod wazuh name))
            else AttributeError name
        | _ => TypeError "attribute name must be string"
        end)
    | _ => AttributeError "object has no attribute 'get'"
    end)
  else
    (* Encoded function or static method *)
    res_bind (py_getitem encoded_callable "__qualname__") (fun qualname_v =>
    match qualname_v with
    | VStr qualname_s =>
        let qualname := split "." qualname_s in
        let classname := match qualname with
                         | c :: _ :: _ => Some c
                         | _ => None
                         end in
        res_bind (py_getitem encoded_callable "__module__") (fun module_path_v =>
        match module_path_v with
        | VStr module_path =>
            res_bind (import_module resolver module_path) (fun _ =>
            match classname with
            | None =>
                match funcname with
                | VStr name =>
                    if module_attr resolver module_path name
                    then Ok (VCallable (ModuleAttr module_path name))
                    else AttributeError name
                | _ => TypeError "attribute name must be string"
                end
            | Some cls =>
                if module_attr resolver module_path cls then
                  match funcname with
                  | VStr name =>
                      if class_attr resolver module_path cls name
                      then Ok (VCallable (ClassAttr module_path cls name))
                      else AttributeError name
                  | _ => TypeError "attribute name must be string"
                  end
                else AttributeError cls
            end)
        | _ => AttributeError "object has no attribute 'startswith'"
        end)
    | _ => AttributeError "object has no attribute 'split'"
    end))).

(** [except (KeyError, AttributeError)] *)
Definition is_key_or_attribute_error (e : exn) : bool :=
  match e with
  | PyError cls _ => String.eqb cls "KeyError" || String.eqb cls "AttributeError"
  | _ => false
  end.

(** [as_callable].  The [TypeError] carries the fixed words of the source's
    message; the source writes the encoded object after them. *)
Definition as_callable (dct : dict) : res value :=
  if dict_mem dct "__callable__" then
    match dict_get dct "__callable__" with
    | Some encoded_callable =>
        match decode_callable encoded_callable with
        | Raise e =>
            if is_key_or_attribute_error e
            then TypeError "Wazuh object cannot be decoded from JSON"
            else Raise e
        | other => other
        end
    | None => Ok (VDict dct)
    end
  else Ok (VDict dct).

(** [json.loads(..., object_hook=as_callable)] on a parsed text: the hook is
    applied to every object, innermost first. *)
Fixpoint object_hook (v : value) {struct v} : res value :=
  match v with
  | VDict d =>
      res_bind
        ((fix members (kvs : list (string * value)) {struct kvs} : res dict :=
            match kvs with
            | [] => Ok []
            | (k, x) :: rest =>
                res_bind (object_hook x) (fun x' =>
                res_bind (members rest) (fun rest' => Ok ((k, x') :: rest')))
            end) d)
        as_callable
  | VList l =>
      res_bind
        ((fix elements (xs : list value) {struct xs} : res (list value) :=
            match xs with
            | [] => Ok []
            | x :: rest =>
                res_bind (object_hook x) (fun x' =>
                res_bind (elements rest) (fun rest' => Ok (x' :: rest')))
            end) l)
        (fun l' => Ok (VList l'))
  | _ => Ok v
  end.

End Marshaling.

(* ===================================================================== *)
(** * Call marshaling: CallableEncoder                                    *)
(* ===================================================================== *)

(** What [CallableEncoder.default] reads of the object it is given. *)
Inductive bound_self :=
| NoSelf                                   (* no attribute __self__ *)
| OtherSelf                                (* __self__ is not a Wazuh instance *)
| WazuhSelf (wazuh_to_dict : res value).   (* obj.__self__.to_dict() *)

Record pyobject := mkObject {
  is_callable : bool;             (* callable(obj) *)
  obj_name : option value;        (* obj.__name__, when hasattr(obj, '__name__') *)
  obj_module : option value;      (* obj.__module__, when it is there *)
  obj_qualname : option value;    (* obj.__qualname__, when it is there *)
  obj_self : bound_self;
  obj_type : string               (* type(obj).__name__ *)
}.

Module CallableEncoder.

(** [if hasattr(obj, name): attributes[key] = getattr(obj, name)] *)
Definition set_attr (attributes : dict) (key : string) (attr : option value) : dict :=
  match attr with
  | Some x => dict_set attributes key x
  | None => attributes
  end.

(** [default]: [attributes] is the dictionary inside [result], filled in
    place; an object that is not callable goes to [json.JSONEncoder.default],
    which raises. *)
Definition default (obj : pyobject) : res value :=
  if is_callable obj then
    let attributes := set_attr [] "__name__" (obj_name obj) in
    let attributes := set_attr attributes "__module__" (obj_module obj) in
    let attributes := set_attr attributes "__qualname__" (obj_qualname obj) in
    res_bind
      (match obj_self obj with
       | WazuhSelf wazuh_to_dict =>
           res_bind wazuh_to_dict (fun d => Ok (dict_set attributes "__wazuh__" d))
       | _ => Ok attributes
       end) (fun attributes =>
    Ok (VDict [("__callable__",
                VDict (dict_set attributes "__type__" (VStr (obj_type obj))))]))
  else TypeError "Object is not JSON serializable".

End CallableEncoder.

(* ===================================================================== *)
(** * APIRequestQueue                                                     *)
(* ===================================================================== *)

(** What the consumer does to the outside, in order. *)
Inductive qevent :=
| SendString (peer : string) (result : value)                  (* node.send_string(...) *)
| SendRequest (peer : string) (command : string) (payload : string)
                                                               (* node.send_request(...) *)
| LogError (text : string).                                    (* self.logger.error(...) *)

(** The consumer's state: what it did so far, and the dictionary that is the
    default value of the parameter [f_kwargs] of [DistributedAPI.__init__]
    (one object for all calls that do not pass [f_kwargs]). *)
Record qstate := mkQ {
  qlog : list qevent;
  default_f_kwargs : dict
}.

Definition qemit (e : qevent) (q : qstate) : qstate :=
  mkQ (qlog q ++ [e]) (default_f_kwargs q).

Definition set_default_f_kwargs (d : dict) (q : qstate) : qstate :=
  mkQ (qlog q) d.

Record Server := mkServer {
  (* cluster.get_node() *)
  this_node_type : string;
  this_node_name : string;
  (* the interpreter's recursion limit *)
  recursion_limit : nat;
  resolver : Resolver;
  (* request.decode(): the text of the bytes received, or UnicodeDecodeError *)
  decode : string -> res string;
  (* parsing the text of a request *)
  parse_json : string -> res value;
  (* self.server.client, self.server.clients *)
  client : string;
  clients : list (string * string);
  (* the collaborators of a DistributedAPI whose node is the given peer *)
  env_of : string -> Env;
  (* node.send_string(payload) and node.send_request(command, payload, b'dapi_err') *)
  send_string : string -> value -> res string;
  send_request : string -> string -> string -> res string
}.

Section Queue.

Variable server : Server.

Definition init_keys : list string :=
  ["f"; "f_kwargs"; "debug"; "pretty"; "request_type"; "wait_for_complete";
   "from_cluster"; "is_async"].

Definition opt_bool (d : dict) (k : string) : option bool :=
  match dict_get d k with
  | None => Some false
  | Some (VBool b) => Some b
  | Some _ => None
  end.

(** [DistributedAPI( **kwargs, logger=self.logger, node=node)].  A missing
    [f] or a key that is no parameter is a [TypeError].  The result is [None]
    when an argument is not of the type its annotation gives ([Dict], [bool],
    [str]): such objects are not represented. *)
Definition init (kwargs : value) (defaults : dict) : res (option DistributedAPI) :=
  match kwargs with
  | VDict d =>
      if forallb (fun kv => existsb (String.eqb (fst kv)) init_keys) d then
        match dict_get d "f" with
        | None => TypeError "missing 1 required positional argument: 'f'"
        | Some fv =>
            let kw := match dict_get d "f_kwargs" with
                      | None => Some defaults
                      | Some (VDict k) => Some k
                      | Some _ => None
                      end in
            let rt := match dict_get d "request_type" with
                      | None => Some "local_master"
                      | Some (VStr r) => Some r
                      | Some _ => None
                      end in
            match kw, opt_bool d "debug", opt_bool d "pretty", rt,
                  opt_bool d "wait_for_complete", opt_bool d "from_cluster",
                  opt_bool d "is_async" with
            | Some k, Some dbg, Some _, Some r, Some wfc, Some fc, Some asy =>
                Ok (Some (mkDAPI fv k dbg r wfc fc asy
                                 (this_node_type server) (this_node_name server) []))
            | _, _, _, _, _, _, _ => Ok None
            end
        end
      else TypeError "got an unexpected keyword argument"
  | _ => TypeError "argument after ** must be a mapping"
  end.

(** [json.dumps(result)]: bytes, callables and other objects cannot be
    serialized. *)
Fixpoint serializable (v : value) {struct v} : bool :=
  match v with
  | VBytes _ | VCallable _ | VObject _ => false
  | VList l =>
      (fix all (xs : list value) : bool :=
         match xs with [] => true | x :: rest => serializable x && all rest end) l
  | VDict d =>
      (fix all (kvs : list (string * value)) : bool :=
         match kvs with [] => true | (_, x) :: rest => serializable x && all rest end) d
  | _ => true
  end.

(** One turn of the [while True] loop of [run] on the dequeued text; [false]
    when the request is not represented (see [init]). *)
Definition serve (message : string) : ST qstate bool :=
  match split_once " " message with
  | None => lift (Raise (PyError "ValueError" "not enough values to unpack"))
  | Some (names, request) =>
      let (name0, name_2) :=
        match split_once "*" names with
        | None => (names, "")
        | Some (n0, n1) => (n0, n1 ++ " ")
        end in
      node <- (if String.eqb name0 "None" then ret (client server)
               else match dict_get (clients server) name0 with
                    | Some peer => ret peer
                    | None => lift (KeyError name0)
                    end) ;;
      parsed <- lift (parse_json server request) ;;
      kwargs <- lift (object_hook (resolver server) parsed) ;;
      defaults <- gets default_f_kwargs ;;
      made <- lift (init kwargs defaults) ;;
      match made with
      | None => ret false
      | Some api =>
          let shares_default :=
            match kwargs with
            | VDict d => negb (dict_mem d "f_kwargs")
            | _ => false
            end in
          let (outcome, api') :=
            distribute_function (env_of server node) (recursion_limit server) api in
          (if shares_default then modify (set_default_f_kwargs (f_kwargs api')) else ret tt) ;;;
          result <- lift outcome ;;
          (if serializable result then ret tt
           else lift (TypeError "Object is not JSON serializable")) ;;;
          modify (qemit (SendString node result)) ;;;
          task_id <- lift (send_string server node result) ;;
          answer <-
            (if String.prefix "Error" task_id then
               modify (qemit (LogError task_id)) ;;;
               modify (qemit (SendRequest node "dapi_err" (name_2 ++ task_id))) ;;;
               lift (send_request server node "dapi_err" (name_2 ++ task_id))
             else
               modify (qemit (SendRequest node "dapi_res" (name_2 ++ task_id))) ;;;
               lift (send_request server node "dapi_res" (name_2 ++ task_id))) ;;
          (if String.prefix "Error" answer then modify (qemit (LogError answer)) else ret tt) ;;;
          ret true
      end
  end.

(** How [run] ends on a queue that receives nothing more. *)
Inductive run_end :=
| Waiting                 (* every request was served; blocked in request_queue.get() *)
| Terminated (e : exn)    (* an exception left the coroutine *)
| Blocked                 (* a served request never completes *)
| NotRepresented.

(** [run] on the requests queued by [add_request], oldest first. *)
Fixpoint run (queue : list string) : qstate -> run_end * qstate :=
  fun q =>
    match queue with
    | [] => (Waiting, q)
    | message :: rest =>
        match serve message q with
        | (Ok true, q') => run rest q'
        | (Ok false, q') => (NotRepresented, q')
        | (Raise e, q') => (Terminated e, q')
        | (Hang, q') => (Blocked, q')
        end
    end.

(** [add_request]: [self.request_queue.put_nowait(request.decode())], on the
    bytes received; bytes that are no text are not queued. *)
Definition add_request (queue : list string) (request : string) : res (list string) :=
  res_bind (decode server request) (fun text => Ok (queue ++ [text])%list).

End Queue.

(* ===================================================================== *)
(** * Notions used in the statements                                      *)
(* ===================================================================== *)

(** The arguments after the defaults of the pagination have been written. *)
Definition with_defaults (env : Env) (kw : dict) : dict :=
  let kw1 := if dict_mem kw "offset" then kw else dict_set kw "offset" (VInt 0) in
  if dict_mem kw1 "limit" then kw1 else dict_set kw1 "limit" (VInt (database_limit env)).

(** The accumulator holds a list at [data.items]. *)
Definition has_data_items (final_json : value) (items : list value) : Prop :=
  exists fd dd,
    final_json = VDict fd /\ dict_get fd "data" = Some (VDict dd) /\
    dict_get dd "items" = Some (VList items).

(** [final_json] with [data.items] replaced. *)
Definition set_data_items (final_json : value) (items : list value) : value :=
  match final_json with
  | VDict fd =>
      match dict_get fd "data" with
      | Some (VDict dd) => VDict (dict_set fd "data" (VDict (dict_set dd "items" (VList items))))
      | _ => final_json
      end
  | _ => final_json
  end.

(** Python dictionaries have one entry per key. *)
Definition unique_keys (d : dict) : Prop := NoDup (map fst d).

(** The rule for an integer [n] arriving at [key] when the accumulator holds
    [cur] there. *)
Definition merge_int (key : string) (cur : option Z) (n : Z) : Z :=
  match cur with
  | None => n
  | Some c =>
      if String.eqb key "totalItems" then c + n
      else if String.eqb key "error" then Z.max c n
      else c
  end.

(** The integers the contributors hold at [key], in contributor order. *)
Definition ints_at (key : string) (ds : list dict) : list Z :=
  flat_map (fun d => match dict_get d key with Some (VInt n) => [n] | _ => [] end) ds.

(** [key] is integer-valued in [d], if it is there at all. *)
Definition int_or_absent (key : string) (d : dict) : Prop :=
  dict_get d key = None \/ exists n, dict_get d key = Some (VInt n).

(** What the accumulator holds at [key]: nothing, or the integer [c]. *)
Definition acc_int (fd : dict) (key : string) (cur : option Z) : Prop :=
  match cur with
  | None => dict_get fd key = None
  | Some c => dict_get fd key = Some (VInt c)
  end.

(** The elements of [elems] that are not in [have]. *)
Definition not_yet_in (have elems : list value) : list value :=
  filter (fun elem => negb (py_in_list elem have)) elems.

(** No element of [l2] is equal to an element of [l1]. *)
Definition none_in (l1 l2 : list value) : Prop :=
  forall x, In x l2 -> py_in_list x l1 = false.

(** What is already in the accumulator at [key] counts as the earliest
    contribution. *)
Definition earlier_int (acc : dict) (key : string) : list Z :=
  match dict_get acc key with
  | Some (VInt c) => [c]
  | _ => []
  end.

(** The only change a merge can make to the object: none, or the defaults
    of the pagination written into its arguments. *)
Definition kw_step (env : Env) (s s' : DistributedAPI) : Prop :=
  s' = s \/ s' = set_f_kwargs (with_defaults env (f_kwargs s)) s.

(** The request declares the integer [n] under [key], or declares nothing
    there and [n] is the default. *)
Definition declared_int (kw : dict) (key : string) (default n : Z) : Prop :=
  match dict_get kw key with
  | None => n = default
  | Some v => v = VInt n
  end.

(** [arranged] is [items] in the order the request declares: sorted by
    [utils.sort_array] on the declared fields and direction, or as they are
    when the request declares no sort. *)
Definition declared_sort (env : Env) (kw : dict) (items arranged : list value) : Prop :=
  match dict_get kw "sort" with
  | None => arranged = items
  | Some sort =>
      exists fields order,
        py_getitem sort "fields" = Ok fields /\
        py_getitem sort "order" = Ok order /\
        sort_array env items fields order = Ok arranged
  end.

(** The condition of the first branch of the routing decision, as the
    design document lists it. *)
Definition runs_locally (is_dapi_enabled cluster_status : bool)
           (request_type node_type : string) (from_cluster : bool) : Prop :=
  is_dapi_enabled = false \/ cluster_status = true \/ request_type = "local_any" \/
  (request_type = "local_master" /\ node_type = "master") \/
  (request_type = "distributed_master" /\ from_cluster = true).

(** The code each branch runs. *)
Definition branch_code (env : Env) (reenter : M value) (b : branch) : M value :=
  match b with
  | ExecuteLocal => execute_local_request env
  | ForwardRequest => forward_request env reenter
  | ExecuteRemote => execute_remote_request env
  end.

(** What no method changes: the configuration of the call; and
    [from_cluster], once true, stays true. *)
Definition keeps_config (s s' : DistributedAPI) : Prop :=
  debug s' = debug s /\ request_type s' = request_type s /\
  node_type s' = node_type s /\ node_name s' = node_name s /\
  wait_for_complete s' = wait_for_complete s /\ is_async s' = is_async s /\
  f s' = f s /\
  (from_cluster s = true -> from_cluster s' = true).

(** The response envelope of a failure: [{'message': ..., 'error': code}]. *)
Definition error_envelope (code : Z) (message : string) : value :=
  VDict [("message", VStr message); ("error", VInt code)].

(** The response envelope of a success: [{'data': ..., 'error': 0}]. *)
Definition data_envelope (data : value) : value :=
  VDict [("data", data); ("error", VInt 0)].

Definition is_wazuh_exception (e : exn) : bool :=
  match e with WazuhException _ _ => true | _ => false end.

(** The awaitable that a local execution puts under [asyncio.wait_for], when
    there is one: the run of the call itself when the executor makes it (for
    a coroutine function, the finished future that holds the coroutine), and
    with [is_async] the coroutine of a coroutine function.  An ordinary
    function called with [is_async] is not awaited: it runs where it is
    called. *)
Definition awaited_task (asy : bool) (called : call_result) : option task :=
  match asy, called with
  | false, Returns t => Some t
  | false, Coroutine name _ => Some (mkTask (Some 0) (Ok (VObject name)))
  | true, Coroutine _ t => Some t
  | true, Returns _ => None
  end.


(** The object after [forward] has put the ids of the solver-map entry into
    its arguments (lines 172-173). *)
Definition inject_agent_id (ids : list value) (s : DistributedAPI) : DistributedAPI :=
  match ids with
  | [] => s
  | _ :: _ =>
      match dict_get (f_kwargs s) "agent_id" with
      | None => set_f_kwargs (dict_set (f_kwargs s) "agent_id" (VList ids)) s
      | Some old =>
          if is_list old then set_f_kwargs (dict_set (f_kwargs s) "agent_id" (VList ids)) s
          else s
      end
  end.









Definition hashable_agent (a : agent_item) : Prop :=
  hashable (agent_id a) = true /\ hashable (agent_node a) = true.

(** No dictionary inside the value has the key ['__callable__']. *)
Fixpoint no_callable_key (v : value) {struct v} : bool :=
  match v with
  | VDict d =>
      negb (dict_mem d "__callable__") &&
      (fix all (kvs : list (string * value)) : bool :=
         match kvs with [] => true | (_, x) :: rest => no_callable_key x && all rest end) d
  | VList l =>
      (fix all (xs : list value) : bool :=
         match xs with [] => true | x :: rest => no_callable_key x && all rest end) l
  | _ => true
  end.

(** What [as_callable] raises for an encoding it cannot resolve. *)
Definition decode_error : res value :=
  TypeError "Wazuh object cannot be decoded from JSON".

(** The attribute is absent, or a string. *)
Definition str_or_absent (attr : option value) : Prop :=
  attr = None \/ exists s, attr = Some (VStr s).

(** What [getattr] on the receiving side makes of the module [m], the
    qualified name [q] and the name [n] of an encoded function. *)
Definition resolve_function (resolver : Resolver) (m q n : string) : res value :=
  match split "." q with
  | c :: _ :: _ =>
      if module_attr resolver m c && class_attr resolver m c n
      then Ok (VCallable (ClassAttr m c n)) else decode_error
  | _ =>
      if module_attr resolver m n
      then Ok (VCallable (ModuleAttr m n)) else decode_error
  end.

(** [json.loads] applies the hook to the members of an object, then to the
    object; these are the two inner loops of [object_hook]. *)
Definition hook_members (resolver : Resolver) (kvs : list (string * value)) : res dict :=
  (fix members (kvs : list (string * value)) {struct kvs} : res dict :=
     match kvs with
     | [] => Ok []
     | (k, x) :: rest =>
         res_bind (object_hook resolver x) (fun x' =>
         res_bind (members rest) (fun rest' => Ok ((k, x') :: rest')))
     end) kvs.

Definition hook_elements (resolver : Resolver) (xs : list value) : res (list value) :=
  (fix elements (xs : list value) {struct xs} : res (list value) :=
     match xs with
     | [] => Ok []
     | x :: rest =>
         res_bind (object_hook resolver x) (fun x' =>
         res_bind (elements rest) (fun rest' => Ok (x' :: rest')))
     end) xs.

(** The object is not a method bound to a [Wazuh] instance. *)
Definition not_wazuh_bound (obj : pyobject) : Prop :=
  match obj_self obj with WazuhSelf _ => False | _ => True end.

(** If the object is bound to a [Wazuh] instance, [to_dict()] of the instance
    answers a dictionary of plain JSON. *)
Definition plain_self (obj : pyobject) : Prop :=
  match obj_self obj with
  | WazuhSelf r => exists wd, r = Ok (VDict wd) /\ no_callable_key (VDict wd) = true
  | _ => True
  end.

(** [wazuh_dict.get('path', '/var/ossec')] *)
Definition wazuh_path (wd : dict) : value :=
  match dict_get wd "path" with
  | Some p => p
  | None => VStr "/var/ossec"
  end.

(** The condition of line 174: the entry of the solver map names no other
    node than this one. *)
Definition is_self (s : DistributedAPI) (node : value) : bool :=
  py_eqb node (VStr "unknown") || py_eqb node (VStr "") || py_eqb node (VStr (node_name s)).

(** Every entry of the solver map has the empty list of agent ids. *)
Definition no_ids (m : solver_map) : Prop := Forall (fun e => snd e = []) m.

(** A call sent with the command [dapi_forward] carries
    [from_cluster = True]. *)
Definition forwarded_flag (e : event) : Prop :=
  match e with
  | PeerSend command _ payload =>
      command = "dapi_forward" -> dict_get payload "from_cluster" = Some (VBool true)
  | LocalCall _ _ => True
  end.

(** The trace only grows, and what was added satisfies [forwarded_flag]. *)
Definition sends_flagged (s s' : DistributedAPI) : Prop :=
  exists new, trace s' = (trace s ++ new)%list /\ Forall forwarded_flag new.

(** The same, for code that runs after [self.from_cluster = True]. *)
Definition flagged_when_forwarding (s s' : DistributedAPI) : Prop :=
  from_cluster s = true -> from_cluster s' = true /\ sends_flagged s s'.

(** The two messages of [priorities] (line 259). *)
Definition some_not_restarted : string := "Some agents were not restarted".
Definition all_restarted : string := "All selected agents were restarted".

(** The rule for a string [new] arriving at a key when the accumulator holds
    [cur] there. *)
Definition merge_str (cur : option string) (new : string) : string :=
  match cur with
  | None => new
  | Some c =>
      if String.eqb new some_not_restarted && String.eqb c all_restarted then new else c
  end.

(** The strings the contributors hold at [key], in contributor order. *)
Definition strs_at (key : string) (ds : list dict) : list string :=
  flat_map (fun d => match dict_get d key with Some (VStr m) => [m] | _ => [] end) ds.

(** What the accumulator holds at [key]: nothing, or the string [c]. *)
Definition acc_str (fd : dict) (key : string) (cur : option string) : Prop :=
  match cur with
  | None => dict_get fd key = None
  | Some c => dict_get fd key = Some (VStr c)
  end.

Definition is_dict (v : value) : Prop := exists d, v = VDict d.

(** What [forward] sends for an entry of the solver map when the request
    names a list of agents: the call with [agent_id] replaced by the ids of
    the entry, addressed to the node of the entry. *)
Definition bucket_call (s : DistributedAPI) (entry : value * list value) : event :=
  PeerSend "dapi_forward" (Some (fst entry))
           (to_dict (set_f_kwargs (dict_set (f_kwargs s) "agent_id" (VList (snd entry))) s)).

(** The entry names another node and has ids. *)
Definition remote_bucket (s : DistributedAPI) (entry : value * list value) : Prop :=
  is_self s (fst entry) = false /\ snd entry <> [].

(** The last run of [itertools.groupby] whose key is equal to [node]. *)
Fixpoint last_group (node : value) (groups : list (value * list agent_item))
  : option (list agent_item) :=
  match groups with
  | [] => None
  | (k, g) :: rest =>
      match last_group node rest with
      | Some g' => Some g'
      | None => if py_eqb k node then Some g else None
      end
  end.

Definition hashable_keys (m : solver_map) : Prop :=
  Forall (fun e => hashable (fst e) = true) m.




(** The call comes to an end where it is made: called with [is_async], an
    ordinary function returns; and no run ends in nothing. *)
Definition call_ends (asy : bool) (called : call_result) : Prop :=
  match called with
  | Returns t => (asy = true -> duration t <> None) /\ outcome t <> Hang
  | Coroutine _ t => outcome t <> Hang
  end.

(** ** Induction on values *)

Section ValueInduction.

Variable P : value -> Prop.
Hypothesis HNone : P VNone.
Hypothesis HBool : forall b, P (VBool b).
Hypothesis HInt : forall z, P (VInt z).
Hypothesis HStr : forall s, P (VStr s).
Hypothesis HBytes : forall s, P (VBytes s).
Hypothesis HList : forall l, Forall P l -> P (VList l).
Hypothesis HDict : forall d, Forall (fun kv => P (snd kv)) d -> P (VDict d).
Hypothesis HCallable : forall c, P (VCallable c).
Hypothesis HObject : forall n, P (VObject n).

Fixpoint value_induction (v : value) : P v :=
  match v with
  | VNone => HNone
  | VBool b => HBool b
  | VInt z => HInt z
  | VStr s => HStr s
  | VBytes s => HBytes s
  | VList l =>
      HList l ((fix all (xs : list value) : Forall P xs :=
                  match xs with
                  | [] => Forall_nil _
                  | x :: rest => Forall_cons x (value_induction x) (all rest)
                  end) l)
  | VDict d =>
      HDict d ((fix all (kvs : list (string * value)) : Forall (fun kv => P (snd kv)) kvs :=
                  match kvs with
                  | [] => Forall_nil _
                  | (k, x) :: rest => Forall_cons (k, x) (value_induction x) (all rest)
                  end) d)
  | VCallable c => HCallable c
  | VObject n => HObject n
  end.

End ValueInduction.

(* ===================================================================== *)
(** * A small cluster to run the definitions on                           *)
(* ===================================================================== *)

(** Four target functions: one that answers at once, one that takes 20
    units of time, one that raises a [WazuhException] with code 0, and a
    coroutine function whose coroutine takes 20 units of time. *)
Definition example_call (c : callable) (kwargs : dict) : call_result :=
  match c with
  | ModuleAttr _ "slow" => Returns (mkTask (Some 20) (Ok (VStr "done")))
  | ModuleAttr _ "odd" => Returns (mkTask (Some 1) (Raise (WazuhException 0 "nothing wrong")))
  | ModuleAttr _ "slow_coroutine" => Coroutine "coro" (mkTask (Some 20) (Ok (VStr "done")))
  | _ => Returns (mkTask (Some 1) (Ok (VDict [("items", VList []); ("totalItems", VInt 0)])))
  end.

(** [json.dumps] on the examples: bytes cannot be serialized. *)
Fixpoint has_bytes (v : value) {struct v} : bool :=
  match v with
  | VBytes _ => true
  | VList l =>
      (fix any (xs : list value) : bool :=
         match xs with [] => false | x :: rest => has_bytes x || any rest end) l
  | VDict d =>
      (fix any (kvs : list (string * value)) : bool :=
         match kvs with [] => false | (_, x) :: rest => has_bytes x || any rest end) d
  | _ => false
  end.

Definition example_json_dumps (v : value) : res string :=
  if has_bytes v then TypeError "Object of type bytes is not JSON serializable"
  else Ok "{...}".

(** A cluster whose configuration lookup ends in [enabled] and whose agent
    directory answers [agents]; the API-request timeout is 10, a set is
    iterated in insertion order, [utils.sort_array] is taken to reverse its
    argument (the descending order of a list given in ascending order). *)
Definition example_env_with (enabled : res bool) (agents : list agent_item) : Env :=
  {| dapi_enabled := enabled;
     check_cluster_status := Ok false;
     timeout_api_request := Ok 10;
     wazuh_error_message :=
       fun code => if code =? 3021 then "Timeout executing API request" else "Error";
     call := example_call;
     json_dumps := example_json_dumps;
     node_execute := fun _ _ _ _ => Ok "{}";
     json_loads := fun _ => Ok (VDict [("data", VDict []); ("error", VInt 0)]);
     get_agents_overview := fun _ _ => Ok agents;
     get_agent := fun _ => Ok (VStr "nodeA");
     set_iteration := fun l => l;
     sort_array := fun l _ _ => Ok (rev l);
     database_limit := 500 |}.

Definition example_env : Env :=
  example_env_with (Ok true) [mkAgent (VInt 2) (VStr "nodeB"); mkAgent (VInt 1) (VStr "nodeA")].

(** A call of [target] made on the master [masterX]. *)
Definition example_api_with (target : string) (kwargs : dict) (dbg : bool)
           (mode : string) (wfc fc : bool) : DistributedAPI :=
  mkDAPI (VCallable (ModuleAttr "wazuh.agent" target)) kwargs dbg mode wfc fc false
         "master" "masterX" [].

Definition example_api : DistributedAPI :=
  example_api_with "get_agents" [] false "distributed_master" false false.

(** A [local_any] call of [target] made with [is_async]. *)
Definition example_async_api (target : string) : DistributedAPI :=
  mkDAPI (VCallable (ModuleAttr "wazuh.agent" target)) [] false "local_any" false false true
         "master" "masterX" [].

(** Ten items and a payload that carries them. *)
Definition ten_items : list value :=
  map VInt [0; 1; 2; 3; 4; 5; 6; 7; 8; 9].

Definition ten_items_payload : value :=
  VDict [("data", VDict [("items", VList ten_items); ("totalItems", VInt 10)]);
         ("error", VInt 0)].

Definition page_request : dict :=
  [("offset", VInt 2); ("limit", VInt 3);
   ("sort", VDict [("fields", VList [VStr "id"]); ("order", VStr "desc")])].

(** The text of two queued requests.  [quoted s] is [s] between double
    quotes. *)
Definition quoted (s : string) : string :=
  String (ascii_of_nat 34) s ++ String (ascii_of_nat 34) EmptyString.

(** [None {"f": {"__callable__": {}}}] *)
Definition undecodable_request : string :=
  "None {" ++ quoted "f" ++ ": {" ++ quoted "__callable__" ++ ": {}}}".

(** [None {"f": {"__callable__": {"__name__": "get_node", "__module__":
    "wazuh.cluster.cluster", "__qualname__": "get_node", "__type__":
    "function"}}, "f_kwargs": {}, "request_type": "local_master"}] *)
Definition decodable_request : string :=
  "None {" ++ quoted "f" ++ ": {" ++ quoted "__callable__" ++ ": {"
    ++ quoted "__name__" ++ ": " ++ quoted "get_node" ++ ", "
    ++ quoted "__module__" ++ ": " ++ quoted "wazuh.cluster.cluster" ++ ", "
    ++ quoted "__qualname__" ++ ": " ++ quoted "get_node" ++ ", "
    ++ quoted "__type__" ++ ": " ++ quoted "function" ++ "}}, "
    ++ quoted "f_kwargs" ++ ": {}, "
    ++ quoted "request_type" ++ ": " ++ quoted "local_master" ++ "}".

Definition drop_prefix (n : nat) (s : string) : string :=
  String.substring n (String.length s - n) s.

(** The parser, on the two texts. *)
Definition example_parse_json (text : string) : res value :=
  if String.eqb text (drop_prefix 5 undecodable_request) then
    Ok (VDict [("f", VDict [("__callable__", VDict [])])])
  else if String.eqb text (drop_prefix 5 decodable_request) then
    Ok (VDict [("f", VDict [("__callable__",
                             VDict [("__name__", VStr "get_node");
                                    ("__module__", VStr "wazuh.cluster.cluster");
                                    ("__qualname__", VStr "get_node");
                                    ("__type__", VStr "function")])]);
               ("f_kwargs", VDict []);
               ("request_type", VStr "local_master")])
  else Raise (PyError "JSONDecodeError" "Expecting value").

Definition example_resolver : Resolver :=
  {| import_module :=
       fun m => if String.eqb m "wazuh.cluster.cluster" then Ok tt
                else Raise (PyError "ModuleNotFoundError" m);
     module_attr :=
       fun m a => String.eqb m "wazuh.cluster.cluster" && String.eqb a "get_node";
     class_attr := fun _ _ _ => false;
     wazuh_new := fun path => match path with VStr p => Ok p | _ => Ok "/var/ossec" end;
     wazuh_attr := fun _ a => String.eqb a "to_dict" |}.

Definition example_server : Server :=
  {| this_node_type := "master";
     this_node_name := "masterX";
     recursion_limit := 1000;
     resolver := example_resolver;
     decode := fun bytes => Ok bytes;
     parse_json := example_parse_json;
     client := "master";
     clients := [("worker1", "worker1")];
     env_of := fun _ => example_env;
     send_string := fun _ _ => Ok "1";
     send_request := fun _ _ _ => Ok "ok" |}.

Definition empty_queue_state : qstate := mkQ [] [].

(** Three objects handed to the encoder: the module-level function
    [wazuh.cluster.cluster.get_node], the method [to_dict] of a [Wazuh]
    instance, and a [functools.partial] object (callable, with a module but
    without a name of its own). *)
Definition example_function : pyobject :=
  mkObject true (Some (VStr "get_node")) (Some (VStr "wazuh.cluster.cluster"))
           (Some (VStr "get_node")) NoSelf "function".

Definition example_wazuh_method : pyobject :=
  mkObject true (Some (VStr "to_dict")) (Some (VStr "wazuh"))
           (Some (VStr "Wazuh.to_dict"))
           (WazuhSelf (Ok (VDict [("path", VStr "/opt/ossec"); ("version", VStr "v3.9.0")])))
           "method".

Definition example_partial : pyobject :=
  mkObject true None (Some (VStr "functools")) None NoSelf "partial".

(** A worker of the same cluster, asked for something only the master
    answers. *)
Definition example_worker_api : DistributedAPI :=
  mkDAPI (VCallable (ModuleAttr "wazuh.agent" "get_agents")) [] false "local_master"
         false false false "worker" "worker1" [].

(** A cluster whose directory answers the agents of [nodeA] in two runs. *)
Definition example_env_two_runs : Env :=
  example_env_with (Ok true)
    [mkAgent (VInt 1) (VStr "nodeA"); mkAgent (VInt 2) (VStr "nodeB");
     mkAgent (VInt 3) (VStr "nodeA")].

(* ===================================================================== *)
(** * Properties                                                          *)
(* ===================================================================== *)

(** ** Dictionaries *)

Lemma dict_get_set_same {A} (d : list (string * A)) k v :
  dict_get (dict_set d k v) k = Some v.
Proof.
  induction d as [|[k' v'] d IH]; simpl.
  - now rewrite String.eqb_refl.
  - destruct (String.eqb k k') eqn:E; simpl; rewrite E; auto.
Qed.

Lemma dict_get_set_other {A} (d : list (string * A)) k k' v :
  k <> k' -> dict_get (dict_set d k v) k' = dict_get d k'.
Proof.
  intros Hne. induction d as [|[k0 v0] d IH]; simpl.
  - destruct (String.eqb k' k) eqn:E; auto.
    apply String.eqb_eq in E. congruence.
  - destruct (String.eqb k k0) eqn:E; simpl.
    + apply String.eqb_eq in E. subst k0.
      destruct (String.eqb k' k) eqn:E'; auto.
      apply String.eqb_eq in E'. congruence.
    + now rewrite IH.
Qed.

Lemma dict_set_same {A} (d : list (string * A)) k v :
  dict_get d k = Some v -> dict_set d k v = d.
Proof.
  induction d as [|[k' v'] d IH]; simpl; [discriminate|].
  destruct (String.eqb k k') eqn:E.
  - now intros [= ->].
  - intros H. now rewrite IH.
Qed.

Lemma dict_mem_get {A} (d : list (string * A)) k :
  dict_mem d k = true <-> exists v, dict_get d k = Some v.
Proof.
  unfold dict_mem. destruct (dict_get d k); split; eauto; try discriminate.
  now intros [? ?].
Qed.

Lemma dict_mem_false {A} (d : list (string * A)) k :
  dict_mem d k = false <-> dict_get d k = None.
Proof.
  unfold dict_mem. destruct (dict_get d k); split; auto; discriminate.
Qed.

Lemma dict_get_in_keys {A} (d : list (string * A)) k v :
  dict_get d k = Some v -> In k (map fst d).
Proof.
  induction d as [|[k' v'] d IH]; simpl; [discriminate|].
  destruct (String.eqb k k') eqn:E.
  - apply String.eqb_eq in E. auto.
  - auto.
Qed.

Lemma dict_get_not_in_keys {A} (d : list (string * A)) k :
  ~ In k (map fst d) -> dict_get d k = None.
Proof.
  intros H. destruct (dict_get d k) eqn:E; auto.
  apply dict_get_in_keys in E. contradiction.
Qed.

(** ** The primitives always terminate *)

Lemma py_contains_not_hang key c : py_contains key c <> Hang.
Proof. destruct c; discriminate. Qed.

Lemma py_getitem_not_hang c key : py_getitem c key <> Hang.
Proof. destruct c; simpl; try discriminate. destruct (dict_get d key); discriminate. Qed.

Lemma py_setitem_not_hang c key v : py_setitem c key v <> Hang.
Proof. destruct c; discriminate. Qed.

Lemma as_int_not_hang v : as_int v <> Hang.
Proof. destruct v; discriminate. Qed.

(** ** Python slices *)

Lemma py_slice_nonneg {A} (l : list A) (offset limit : Z) :
  0 <= offset -> 0 <= limit ->
  py_slice l offset (offset + limit) =
  firstn (Z.to_nat limit) (skipn (Z.to_nat offset) l).
Proof.
  intros Ho Hl. unfold py_slice, slice_bound.
  destruct (offset <? 0) eqn:E1; [lia|].
  destruct (offset + limit <? 0) eqn:E2; [lia|].
  destruct (Z.le_gt_cases (Z.of_nat (List.length l)) offset) as [Hge|Hlt].
  - rewrite (Z.min_r offset) by lia.
    rewrite (skipn_all2 l) by lia.
    rewrite (skipn_all2 l) by lia.
    now rewrite !firstn_nil.
  - rewrite (Z.min_l offset) by lia.
    assert (Hlen : List.length (skipn (Z.to_nat offset) l) =
                   Z.to_nat (Z.of_nat (List.length l) - offset)).
    { rewrite length_skipn. lia. }
    destruct (Z.le_gt_cases (offset + limit) (Z.of_nat (List.length l))) as [Hin|Hout].
    + rewrite Z.min_l by lia. f_equal. lia.
    + rewrite Z.min_r by lia.
      rewrite firstn_all2 by lia.
      rewrite firstn_all2 by lia. reflexivity.
Qed.

(** ** Reasoning about stateful code *)

(** Every run of [c] relates the state before to the state after by [R]. *)
Definition transition {S A} (R : S -> S -> Prop) (c : ST S A) : Prop :=
  forall s r s', c s = (r, s') -> R s s'.

Lemma transition_ret {S A} (R : S -> S -> Prop) (a : A) :
  (forall s, R s s) -> transition R (ret a).
Proof. intros Hr s r s' [= <- <-]. apply Hr. Qed.

Lemma transition_lift {S A} (R : S -> S -> Prop) (x : res A) :
  (forall s, R s s) -> transition R (lift x).
Proof. intros Hr s r s' [= <- <-]. apply Hr. Qed.

Lemma transition_gets {S A} (R : S -> S -> Prop) (p : S -> A) :
  (forall s, R s s) -> transition R (gets p).
Proof. intros Hr s r s' [= <- <-]. apply Hr. Qed.

Lemma transition_bind {S A B} (R : S -> S -> Prop) (c : ST S A) (k : A -> ST S B) :
  (forall s1 s2 s3, R s1 s2 -> R s2 s3 -> R s1 s3) ->
  transition R c -> (forall a, transition R (k a)) -> transition R (bind c k).
Proof.
  intros Htrans Hc Hk s r s' H. unfold bind in H.
  destruct (c s) as [[a|e|] s1] eqn:E; apply Hc in E.
  - eapply Htrans; [exact E|]. eapply Hk; eauto.
  - now inversion H; subst.
  - now inversion H; subst.
Qed.

(** Case analysis on a scrutinee of the goal that is not itself a [match]. *)
Ltac break_inner :=
  match goal with
  | |- context [match ?x with _ => _ end] =>
      lazymatch x with
      | context [match _ with _ => _ end] => fail
      | _ => destruct x eqn:?
      end
  end.

Section MergeProperties.

Variable env : Env.

(** *** The post-merge step *)

Lemma set_f_kwargs_id (s : DistributedAPI) : set_f_kwargs (f_kwargs s) s = s.
Proof. now destruct s. Qed.

Lemma with_defaults_has_offset kw : dict_mem (with_defaults env kw) "offset" = true.
Proof.
  unfold with_defaults.
  destruct (dict_mem kw "offset") eqn:E1.
  - destruct (dict_mem kw "limit") eqn:E2; auto.
    apply dict_mem_get. apply dict_mem_get in E1 as [v Hv]. exists v.
    now rewrite dict_get_set_other by discriminate.
  - assert (H : dict_mem (dict_set kw "offset" (VInt 0)) "offset" = true).
    { apply dict_mem_get. eexists. apply dict_get_set_same. }
    destruct (dict_mem (dict_set kw "offset" (VInt 0)) "limit"); auto.
    apply dict_mem_get. apply dict_mem_get in H as [v Hv]. exists v.
    now rewrite dict_get_set_other by discriminate.
Qed.

Lemma with_defaults_has_limit kw : dict_mem (with_defaults env kw) "limit" = true.
Proof.
  unfold with_defaults.
  match goal with |- dict_mem (if dict_mem ?k "limit" then _ else _) _ = _ =>
    destruct (dict_mem k "limit") eqn:E end; auto.
  apply dict_mem_get. eexists. apply dict_get_set_same.
Qed.

Lemma with_defaults_fixed kw :
  dict_mem kw "offset" = true -> dict_mem kw "limit" = true -> with_defaults env kw = kw.
Proof. intros H1 H2. unfold with_defaults. now rewrite H1, H2. Qed.

Lemma with_defaults_idem kw :
  with_defaults env (with_defaults env kw) = with_defaults env kw.
Proof.
  apply with_defaults_fixed; [apply with_defaults_has_offset | apply with_defaults_has_limit].
Qed.

(** What [paginate] does when the accumulator holds a list at [data.items]:
    the arguments get their defaults whatever happens next. *)
Lemma paginate_on_items final items s :
  has_data_items final items ->
  let kw := with_defaults env (f_kwargs s) in
  paginate env final s =
  (res_bind
     (if dict_mem kw "sort" then
        res_bind (py_getitem (VDict kw) "sort") (fun sort =>
        res_bind (py_getitem sort "fields") (fun fields =>
        res_bind (py_getitem sort "order") (fun order =>
        sort_array env items fields order)))
      else Ok items) (fun arranged =>
   res_bind (py_getitem (VDict kw) "offset") (fun offset_v =>
   res_bind (py_getitem (VDict kw) "limit") (fun limit_v =>
   res_bind (as_int offset_v) (fun offset =>
   res_bind (as_int limit_v) (fun limit =>
   Ok (set_data_items final (py_slice arranged offset (offset + limit)))))))),
   set_f_kwargs kw s).
Proof.
  intros (fd & dd & -> & Hd & Hi) kw.
  unfold paginate, bind, lift, ret, gets, modify. simpl.
  unfold dict_mem at 1. rewrite Hd. simpl.
  unfold dict_mem at 1. rewrite Hi. simpl.
  subst kw. unfold with_defaults.
  destruct (dict_mem (f_kwargs s) "offset") eqn:E1; simpl.
  all: match goal with |- context [dict_mem ?k "limit"] => destruct (dict_mem k "limit") eqn:E2 end;
    simpl.
  all: match goal with |- context [dict_mem ?k "sort"] => destruct (dict_mem k "sort") eqn:E3 end;
    simpl.
  all: rewrite ?set_f_kwargs_id; unfold res_bind, set_f_kwargs; simpl.
  all: repeat (break_inner; simpl); reflexivity.
Qed.

(** When there is no list at [data.items], [paginate] changes nothing. *)
Lemma paginate_without_items final s r s' :
  paginate env final s = (r, s') ->
  (forall items, ~ has_data_items final items) ->
  s' = s /\ (r = Ok final \/ exists e, r = Raise e).
Proof.
  intros H Hno. unfold paginate in H.
  unfold bind, lift, ret in H.
  destruct (py_contains "data" final) as [b| |] eqn:E1;
    [|inversion H; subst; eauto|now apply py_contains_not_hang in E1].
  destruct b; simpl in H; [|inversion H; subst; eauto].
  destruct (py_getitem final "data") as [data| |] eqn:E2;
    [|inversion H; subst; eauto|now apply py_getitem_not_hang in E2].
  destruct (py_contains "items" data) as [b| |] eqn:E3;
    [|inversion H; subst; eauto|now apply py_contains_not_hang in E3].
  destruct b; simpl in H; [|inversion H; subst; eauto].
  destruct (py_getitem data "items") as [items| |] eqn:E4;
    [|inversion H; subst; eauto|now apply py_getitem_not_hang in E4].
  destruct items; try (inversion H; subst; eauto; fail).
  exfalso. apply (Hno l).
  destruct final; simpl in E2; try discriminate.
  destruct (dict_get d "data") eqn:Ed; try discriminate.
  injection E2 as ->.
  destruct data; simpl in E4; try discriminate.
  destruct (dict_get d0 "items") eqn:Ei; try discriminate.
  injection E4 as ->.
  exists d, d0. auto.
Qed.

End MergeProperties.

Lemma res_bind_ok {A B} (r : res A) (k : A -> res B) b :
  res_bind r k = Ok b -> exists a, r = Ok a /\ k a = Ok b.
Proof. destruct r; simpl; try discriminate. eauto. Qed.

Section MergeSteps.

Variable env : Env.

(** *** One field into the accumulator *)

(** An integer arriving at [key]. *)
Lemma merge_field_int key n fd s cur :
  (dict_get fd key = None /\ cur = None) \/
  (exists c, dict_get fd key = Some (VInt c) /\ cur = Some c) ->
  merge_field env key (VInt n) (VDict fd) s =
  (Ok (VDict (dict_set fd key (VInt (merge_int key cur n)))), s).
Proof.
  intros [[Hg ->]|(c & Hg & ->)]; simpl; unfold bind, lift, ret; simpl;
    unfold dict_mem; rewrite Hg; simpl; auto.
  destruct (String.eqb key "totalItems") eqn:E1; simpl.
  - rewrite ?Hg. reflexivity.
  - destruct (String.eqb key "error") eqn:E2; simpl.
    + rewrite ?Hg. simpl. destruct (c <? n) eqn:E3; simpl.
      * apply Z.ltb_lt in E3. now rewrite Z.max_r by lia.
      * apply Z.ltb_ge in E3. rewrite Z.max_l by lia.
        now rewrite dict_set_same.
    + now rewrite dict_set_same.
Qed.

(** A list arriving at [key]. *)
Lemma merge_field_list_new key elems fd s :
  dict_get fd key = None ->
  merge_field env key (VList elems) (VDict fd) s =
  (Ok (VDict (dict_set fd key (VList elems))), s).
Proof.
  intros Hg. simpl. unfold bind, lift, ret. simpl. unfold dict_mem. now rewrite Hg.
Qed.

Lemma merge_field_list_extend key elems have fd s :
  dict_get fd key = Some (VList have) ->
  merge_field env key (VList elems) (VDict fd) s =
  (Ok (VDict (dict_set fd key
                (VList (have ++ filter (fun elem => negb (py_in_list elem have)) elems)))), s).
Proof.
  intros Hg. simpl. unfold bind, lift, ret. simpl. unfold dict_mem. rewrite Hg. simpl.
  now rewrite ?Hg.
Qed.

(** Whatever arrives at [key], only the entry [key] of the accumulator can
    change. *)
Lemma merge_field_frame key field fd s final' s' :
  merge_field env key field (VDict fd) s = (Ok final', s') ->
  exists v, final' = VDict (dict_set fd key v).
Proof.
  intros H.
  assert (Hkeep : forall cur, dict_get fd key = Some cur ->
                  VDict fd = VDict (dict_set fd key cur)).
  { intros cur Hc. now rewrite dict_set_same. }
  destruct field; simpl in H; unfold bind, lift, ret in H; simpl in H;
    unfold dict_mem in H.
  all: destruct (dict_get fd key) as [cur|] eqn:Hg; simpl in H.
  all: try rewrite Hg in H; simpl in H.
  all: try (injection H as <- <-; eauto; fail).
  all: repeat (match type of H with
               | context [match ?x with _ => _ end] =>
                   lazymatch x with
                   | context [match _ with _ => _ end] => fail
                   | _ => destruct x eqn:?
                   end
               end; simpl in H; try discriminate;
               try (injection H as <- <-; eauto; fail)).
  all: match type of H with
       | (let (_, _) := ?x in _) = _ => destruct x as [[merged| |] s1]
       end; try discriminate.
  all: destruct (paginate env merged s1) as [[paged| |] s2]; try discriminate.
  all: injection H as <- <-; eauto.
Qed.

End MergeSteps.

Section MergeLoops.

Variable env : Env.

(** *** One contributor, all contributors *)

(** After a contributor with unique keys has been merged, the entry [k] of
    the accumulator is what merging the contributor's field at [k] made of
    it; it is untouched when the contributor has no [k]. *)
Lemma merge_items_key k d :
  unique_keys d ->
  forall fd s final' s',
    merge_items env d (VDict fd) s = (Ok final', s') ->
    exists fd', final' = VDict fd' /\
      match dict_get d k with
      | None => dict_get fd' k = dict_get fd k
      | Some field =>
          exists fd0 s0 fd1 s1,
            dict_get fd0 k = dict_get fd k /\
            merge_field env k field (VDict fd0) s0 = (Ok (VDict fd1), s1) /\
            dict_get fd' k = dict_get fd1 k
      end.
Proof.
  unfold unique_keys.
  induction d as [|[k1 f1] d IH]; intros Hu fd s final' s' H; simpl in *.
  - injection H as <- <-. eauto.
  - inversion Hu as [|? ? Hnotin Hu']; subst.
    unfold bind in H.
    destruct (merge_field env k1 f1 (VDict fd) s) as [[mid| |] s1] eqn:Ef; try discriminate.
    destruct (merge_field_frame _ _ _ _ _ _ _ Ef) as [v ->].
    destruct (IH Hu' _ _ _ _ H) as (fd' & -> & Hk).
    exists fd'. split; [reflexivity|].
    destruct (String.eqb k k1) eqn:E.
    + apply String.eqb_eq in E. subst k1.
      rewrite (dict_get_not_in_keys d k Hnotin) in Hk.
      exists fd, s, (dict_set fd k v), s1. auto.
    + apply String.eqb_neq in E.
      destruct (dict_get d k) as [field|].
      * destruct Hk as (fd0 & s0 & fd1 & s2 & H0 & H1 & H2).
        exists fd0, s0, fd1, s2. repeat split; auto.
        rewrite H0. apply dict_get_set_other. congruence.
      * rewrite Hk. apply dict_get_set_other. congruence.
Qed.

Lemma ints_at_cons k d ds : ints_at k (d :: ds) = (ints_at k [d] ++ ints_at k ds)%list.
Proof. unfold ints_at. simpl. now rewrite app_nil_r. Qed.

Lemma merge_items_int k d cur :
  unique_keys d -> int_or_absent k d ->
  forall fd s final' s',
    acc_int fd k cur ->
    merge_items env d (VDict fd) s = (Ok final', s') ->
    exists fd', final' = VDict fd' /\
      acc_int fd' k (fold_left (fun c n => Some (merge_int k c n)) (ints_at k [d]) cur).
Proof.
  intros Hu Hint fd s final' s' Hacc H.
  destruct (merge_items_key k d Hu _ _ _ _ H) as (fd' & -> & Hk).
  exists fd'. split; [reflexivity|].
  unfold ints_at. simpl. rewrite app_nil_r.
  destruct Hint as [Hn|[n Hn]]; rewrite Hn in *; simpl.
  - destruct cur; simpl in *; congruence.
  - destruct Hk as (fd0 & s0 & fd1 & s1 & H0 & H1 & H2).
    rewrite (merge_field_int env k n fd0 s0 cur) in H1.
    + injection H1 as <- <-. rewrite H2. apply dict_get_set_same.
    + destruct cur as [c|]; simpl in Hacc; [right; exists c|left]; split; congruence.
Qed.

Lemma merge_responses_int k ds :
  Forall unique_keys ds -> Forall (int_or_absent k) ds ->
  forall cur fd s final' s',
    acc_int fd k cur ->
    merge_responses env (map VDict ds) (VDict fd) s = (Ok final', s') ->
    exists fd', final' = VDict fd' /\
      acc_int fd' k (fold_left (fun c n => Some (merge_int k c n)) (ints_at k ds) cur).
Proof.
  induction ds as [|d ds IH]; intros Hu Hint cur fd s final' s' Hacc H; simpl in H.
  - injection H as <- <-. eauto.
  - inversion Hu as [|? ? Hu1 Hu2]; inversion Hint as [|? ? Hi1 Hi2]; subst.
    unfold bind in H.
    destruct (merge_items env d (VDict fd) s) as [[mid| |] s1] eqn:Ed; try discriminate.
    destruct (merge_items_int k d cur Hu1 Hi1 _ _ _ _ Hacc Ed) as (fd1 & -> & Hacc1).
    destruct (IH Hu2 Hi2 _ _ _ _ _ Hacc1 H) as (fd' & -> & Hacc').
    exists fd'. split; [reflexivity|].
    now rewrite ints_at_cons, fold_left_app.
Qed.

End MergeLoops.

Section MergeTheorems.

Variable env : Env.

Lemma has_data_items_dec final :
  (exists items, has_data_items final items) \/ (forall items, ~ has_data_items final items).
Proof.
  destruct final as [| | | | | |fd| |]; try (right; intros items (? & ? & [=] & _); fail).
  destruct (dict_get fd "data") as [data|] eqn:Ed.
  - destruct data as [| | | | | |dd| |];
      try (right; intros items (? & ? & [= <-] & H & _); congruence).
    destruct (dict_get dd "items") as [it|] eqn:Ei.
    + destruct it as [| | | | |items| | |];
        try (right; intros items (? & ? & [= <-] & H1 & H2); congruence).
      left. exists items, fd, dd. auto.
    + right; intros items (? & ? & [= <-] & H1 & H2); congruence.
  - right; intros items (? & ? & [= <-] & H & _); congruence.
Qed.

(** [paginate] leaves the accumulator as it is or assigns its entry [data],
    which then held a dictionary. *)
Lemma paginate_frame fd s final' s' :
  paginate env (VDict fd) s = (Ok final', s') ->
  final' = VDict fd \/
  exists dd v, dict_get fd "data" = Some (VDict dd) /\ final' = VDict (dict_set fd "data" v).
Proof.
  intros H.
  destruct (has_data_items_dec (VDict fd)) as [[items Hit]|Hno].
  - rewrite (paginate_on_items env _ _ s Hit) in H.
    injection H as H _.
    repeat (apply res_bind_ok in H as (? & _ & H)).
    injection H as <-.
    destruct Hit as (fd0 & dd & [= <-] & Hd & Hi).
    right. exists dd. simpl. rewrite Hd. eauto.
  - destruct (paginate_without_items env _ _ _ _ H Hno) as [_ [[= <-]|[e [=]]]]. auto.
Qed.

Lemma paginate_keeps fd s final' s' k v :
  paginate env (VDict fd) s = (Ok final', s') ->
  dict_get fd k = Some v -> (forall d, v <> VDict d) ->
  py_getitem final' k = Ok v.
Proof.
  intros H Hg Hv.
  destruct (paginate_frame _ _ _ _ H) as [->|(dd & w & Hd & ->)]; simpl.
  - now rewrite Hg.
  - destruct (String.eqb "data" k) eqn:E.
    + apply String.eqb_eq in E. subst k. rewrite Hd in Hg. injection Hg as <-.
      now destruct (Hv dd).
    + apply String.eqb_neq in E. rewrite dict_get_set_other by assumption. now rewrite Hg.
Qed.

Lemma fold_merge_int_totalItems ns c :
  fold_left (fun c n => Some (merge_int "totalItems" c n)) ns (Some c) =
  Some (fold_left Z.add ns c).
Proof.
  revert c. induction ns as [|n ns IH]; intros c; simpl; auto.
Qed.

Lemma fold_merge_int_error ns c :
  fold_left (fun c n => Some (merge_int "error" c n)) ns (Some c) =
  Some (fold_left Z.max ns c).
Proof.
  revert c. induction ns as [|n ns IH]; intros c; simpl; auto.
Qed.

Lemma fold_merge_int_other k ns c :
  k <> "totalItems" -> k <> "error" ->
  fold_left (fun c n => Some (merge_int k c n)) ns (Some c) = Some c.
Proof.
  intros H1 H2. apply String.eqb_neq in H1, H2.
  revert c. induction ns as [|n ns IH]; intros c; simpl; auto.
  rewrite H1, H2. apply IH.
Qed.

(** C6.  Every call of [merge_results] (the one of [forward_request], on the
    empty accumulator, and the nested ones, on the accumulator's dictionary
    at the key being merged) treats a key [k] that is integer-valued in the
    contributors as follows, what the accumulator already holds at [k]
    counting as the earliest contribution: under ['totalItems'] the merged
    value is the sum of all contributions, under ['error'] it is their
    maximum, under any other key it is the first contribution. *)
Theorem merge_results_integer_key (k : string) (ds : list dict) (acc : dict)
        (s s' : DistributedAPI) (final : value) (first : Z) (later : list Z) :
  Forall unique_keys ds ->
  Forall (int_or_absent k) ds ->
  int_or_absent k acc ->
  (earlier_int acc k ++ ints_at k ds)%list = first :: later ->
  merge_results env (map VDict ds) (VDict acc) s = (Ok final, s') ->
  exists merged,
    py_getitem final k = Ok (VInt merged) /\
    (k = "totalItems" -> merged = fold_left Z.add later first) /\
    (k = "error" -> merged = fold_left Z.max later first) /\
    (k <> "totalItems" -> k <> "error" -> merged = first).
Proof.
  intros Hu Hint Hacc Hall H.
  unfold merge_results, bind in H.
  destruct (merge_responses env (map VDict ds) (VDict acc) s) as [[mid| |] s1] eqn:Em;
    try discriminate.
  set (cur := match dict_get acc k with Some (VInt c) => Some c | _ => None end).
  assert (Hcur : acc_int acc k cur).
  { unfold cur. destruct Hacc as [Hn|[n Hn]]; rewrite Hn; simpl; auto. }
  destruct (merge_responses_int env k ds Hu Hint cur _ _ _ _ Hcur Em) as (fd' & -> & Hfd').
  assert (Hfold : fold_left (fun c n => Some (merge_int k c n)) (ints_at k ds) cur =
                  fold_left (fun c n => Some (merge_int k c n)) later (Some first)).
  { unfold earlier_int, cur in *.
    destruct Hacc as [Hn|[n Hn]]; rewrite Hn in *; simpl in Hall.
    - rewrite Hall. reflexivity.
    - injection Hall as -> ->. reflexivity. }
  rewrite Hfold in Hfd'. clear Hfold.
  assert (Hval : exists merged,
             dict_get fd' k = Some (VInt merged) /\
             (k = "totalItems" -> merged = fold_left Z.add later first) /\
             (k = "error" -> merged = fold_left Z.max later first) /\
             (k <> "totalItems" -> k <> "error" -> merged = first)).
  { destruct (String.eqb k "totalItems") eqn:E1.
    - apply String.eqb_eq in E1. subst k.
      rewrite fold_merge_int_totalItems in Hfd'.
      eexists. split; [exact Hfd'|]. repeat split; auto; congruence.
    - apply String.eqb_neq in E1.
      destruct (String.eqb k "error") eqn:E2.
      + apply String.eqb_eq in E2. subst k.
        rewrite fold_merge_int_error in Hfd'.
        eexists. split; [exact Hfd'|]. repeat split; auto; congruence.
      + apply String.eqb_neq in E2.
        rewrite fold_merge_int_other in Hfd' by assumption.
        eexists. split; [exact Hfd'|]. repeat split; auto; congruence. }
  destruct Hval as (merged & Hg & Hrest).
  exists merged. split; [|exact Hrest].
  eapply paginate_keeps; eauto. discriminate.
Qed.

End MergeTheorems.

Section MergeLists.

Variable env : Env.

Lemma merge_items_list k d elems :
  unique_keys d -> dict_get d k = Some (VList elems) ->
  forall fd s final' s',
    merge_items env d (VDict fd) s = (Ok final', s') ->
    exists fd', final' = VDict fd' /\
      (dict_get fd k = None -> dict_get fd' k = Some (VList elems)) /\
      (forall have, dict_get fd k = Some (VList have) ->
                    dict_get fd' k = Some (VList (have ++ not_yet_in have elems))).
Proof.
  intros Hu Hd fd s final' s' H.
  destruct (merge_items_key env k d Hu _ _ _ _ H) as (fd' & -> & Hk).
  rewrite Hd in Hk. destruct Hk as (fd0 & s0 & fd1 & s1 & H0 & H1 & H2).
  exists fd'. split; [reflexivity|]. split.
  - intros Hn. rewrite Hn in H0.
    rewrite (merge_field_list_new env k elems fd0 s0 H0) in H1.
    injection H1 as <- <-. rewrite H2. apply dict_get_set_same.
  - intros have Hh. rewrite Hh in H0.
    rewrite (merge_field_list_extend env k elems have fd0 s0 H0) in H1.
    injection H1 as <- <-. rewrite H2. apply dict_get_set_same.
Qed.

(** The list rule at any accumulator: one more contributor extends the list
    the accumulator holds at [k]. *)
Lemma merge_results_list_step k d acc have elems s s' final :
  unique_keys d ->
  dict_get d k = Some (VList elems) ->
  dict_get acc k = Some (VList have) ->
  merge_results env [VDict d] (VDict acc) s = (Ok final, s') ->
  py_getitem final k = Ok (VList (have ++ not_yet_in have elems)).
Proof.
  intros Hu Hd Hacc H.
  unfold merge_results, bind in H. simpl in H. unfold bind in H.
  destruct (merge_items env d (VDict acc) s) as [[mid| |] s1] eqn:Em; try discriminate.
  destruct (merge_items_list k d elems Hu Hd _ _ _ _ Em) as (fd' & -> & _ & Hext).
  simpl in H. eapply paginate_keeps; eauto. discriminate.
Qed.

Lemma merge_two_lists k d1 d2 l1 l2 s s' final :
  unique_keys d1 -> unique_keys d2 ->
  dict_get d1 k = Some (VList l1) ->
  dict_get d2 k = Some (VList l2) ->
  merge_results env [VDict d1; VDict d2] (VDict []) s = (Ok final, s') ->
  py_getitem final k = Ok (VList (l1 ++ not_yet_in l1 l2)).
Proof.
  intros Hu1 Hu2 Hd1 Hd2 H.
  unfold merge_results, bind in H. simpl in H. unfold bind in H.
  destruct (merge_items env d1 (VDict []) s) as [[mid1| |] s1] eqn:E1; try discriminate.
  destruct (merge_items_list k d1 l1 Hu1 Hd1 _ _ _ _ E1) as (fd1 & -> & Hnew & _).
  specialize (Hnew eq_refl).
  destruct (merge_items env d2 (VDict fd1) s1) as [[mid2| |] s2] eqn:E2; try discriminate.
  destruct (merge_items_list k d2 l2 Hu2 Hd2 _ _ _ _ E2) as (fd2 & -> & _ & Hext).
  simpl in H. eapply paginate_keeps; eauto. discriminate.
Qed.

Lemma not_yet_in_disjoint have elems : none_in have elems -> not_yet_in have elems = elems.
Proof.
  unfold none_in, not_yet_in. induction elems as [|x xs IH]; intros H; simpl; auto.
  rewrite (H x) by (now left). simpl. f_equal. apply IH. intros y Hy. apply H. now right.
Qed.

(** C7 (as amended).  Two contributors that hold lists at the same key [k]
    merge into the first one's list followed by the elements of the second
    that are not equal to an element of the first, in their order.  When no
    element of one list is equal to an element of the other, the two orders
    of the contributors give the same elements, each list after the other:
    the two results are permutations of each other (they are not equal as
    lists). *)
Theorem merge_results_list_key (k : string) (d1 d2 : dict) (l1 l2 : list value)
        (s s' t t' : DistributedAPI) (final12 final21 : value) :
  unique_keys d1 -> unique_keys d2 ->
  dict_get d1 k = Some (VList l1) ->
  dict_get d2 k = Some (VList l2) ->
  merge_results env [VDict d1; VDict d2] (VDict []) s = (Ok final12, s') ->
  merge_results env [VDict d2; VDict d1] (VDict []) t = (Ok final21, t') ->
  py_getitem final12 k = Ok (VList (l1 ++ not_yet_in l1 l2)) /\
  py_getitem final21 k = Ok (VList (l2 ++ not_yet_in l2 l1)) /\
  (none_in l1 l2 -> none_in l2 l1 ->
   py_getitem final12 k = Ok (VList (l1 ++ l2)) /\
   py_getitem final21 k = Ok (VList (l2 ++ l1)) /\
   Permutation (l1 ++ l2) (l2 ++ l1)).
Proof.
  intros Hu1 Hu2 Hd1 Hd2 H12 H21.
  pose proof (merge_two_lists k d1 d2 l1 l2 _ _ _ Hu1 Hu2 Hd1 Hd2 H12) as R12.
  pose proof (merge_two_lists k d2 d1 l2 l1 _ _ _ Hu2 Hu1 Hd2 Hd1 H21) as R21.
  repeat split; auto.
  - rewrite R12. now rewrite not_yet_in_disjoint.
  - rewrite R21. now rewrite not_yet_in_disjoint.
  - apply Permutation_app_comm.
Qed.

End MergeLists.

Section MergeEffects.

Variable env : Env.

Lemma kw_step_refl s : kw_step env s s.
Proof. now left. Qed.

Lemma kw_step_trans s1 s2 s3 : kw_step env s1 s2 -> kw_step env s2 s3 -> kw_step env s1 s3.
Proof.
  intros [-> | ->] [-> | ->]; unfold kw_step; auto.
  right. simpl. rewrite with_defaults_idem. reflexivity.
Qed.

Lemma paginate_transition final : transition (kw_step env) (paginate env final).
Proof.
  intros s r s' H.
  destruct (has_data_items_dec final) as [[items Hit]|Hno].
  - rewrite (paginate_on_items env _ _ s Hit) in H. injection H as _ <-. now right.
  - destruct (paginate_without_items env _ _ _ _ H Hno) as [-> _]. now left.
Qed.

Lemma merge_field_transition field :
  forall key final, transition (kw_step env) (merge_field env key field final).
Proof.
  induction field as [| | | | |l IHl|d IHd| |] using value_induction; intros key final.
  1-6,8,9: intros st r st' Hrun; simpl in Hrun; unfold bind, lift, ret in Hrun;
    repeat (match type of Hrun with
            | context [match ?x with _ => _ end] =>
                lazymatch x with
                | context [match _ with _ => _ end] => fail
                | _ => destruct x eqn:?
                end
            end; simpl in Hrun);
    injection Hrun as _ <-; apply kw_step_refl.
  simpl.
  apply transition_bind; [exact kw_step_trans|apply transition_lift, kw_step_refl|].
  intros present.
  apply transition_bind; [exact kw_step_trans| |].
  { destruct present; [apply transition_lift|apply transition_ret]; apply kw_step_refl. }
  intros sub.
  apply transition_bind; [exact kw_step_trans| |].
  { revert sub. induction IHd as [|[k v] rest Hv Hrest IH]; intros sub.
    - apply transition_ret, kw_step_refl.
    - apply transition_bind; [exact kw_step_trans|apply Hv|apply IH]. }
  intros merged.
  apply transition_bind; [exact kw_step_trans|apply paginate_transition|].
  intros paged. apply transition_lift, kw_step_refl.
Qed.

Lemma merge_items_transition items :
  forall final, transition (kw_step env) (merge_items env items final).
Proof.
  induction items as [|[k v] rest IH]; intros final; simpl.
  - apply transition_ret, kw_step_refl.
  - apply transition_bind; [exact kw_step_trans|apply merge_field_transition|apply IH].
Qed.

Lemma merge_responses_transition responses :
  forall final, transition (kw_step env) (merge_responses env responses final).
Proof.
  induction responses as [|r rest IH]; intros final; simpl.
  - apply transition_ret, kw_step_refl.
  - apply transition_bind; [exact kw_step_trans| |apply IH].
    destruct r; simpl; try (apply transition_lift, kw_step_refl).
    apply merge_items_transition.
Qed.

Lemma kw_step_defaults s s1 :
  kw_step env s s1 ->
  set_f_kwargs (with_defaults env (f_kwargs s1)) s1 =
  set_f_kwargs (with_defaults env (f_kwargs s)) s.
Proof.
  intros [-> | ->]; auto. simpl. now rewrite with_defaults_idem.
Qed.

End MergeEffects.

Section Pagination.

Variable env : Env.

Lemma with_defaults_keeps kw k v :
  dict_get kw k = Some v -> dict_get (with_defaults env kw) k = Some v.
Proof.
  intros H. unfold with_defaults.
  assert (H1 : dict_get (if dict_mem kw "offset" then kw
                         else dict_set kw "offset" (VInt 0)) k = Some v).
  { destruct (dict_mem kw "offset") eqn:E; auto.
    apply dict_mem_false in E.
    rewrite dict_get_set_other; auto. intros Heq. subst k.
    unfold dict in *. rewrite E in H. discriminate. }
  match goal with |- context [dict_mem ?d "limit"] => destruct (dict_mem d "limit") eqn:E2 end;
    auto.
  apply dict_mem_false in E2.
  rewrite dict_get_set_other; auto. intros Heq. subst k.
  unfold dict in *. rewrite E2 in H1. discriminate.
Qed.

Lemma with_defaults_other kw k :
  k <> "offset" -> k <> "limit" -> dict_get (with_defaults env kw) k = dict_get kw k.
Proof.
  intros H1 H2. unfold with_defaults.
  destruct (dict_mem kw "offset");
    match goal with |- context [dict_mem ?d "limit"] => destruct (dict_mem d "limit") end;
    rewrite ?dict_get_set_other by congruence; reflexivity.
Qed.

Lemma with_defaults_offset kw :
  dict_get kw "offset" = None -> dict_get (with_defaults env kw) "offset" = Some (VInt 0).
Proof.
  intros H. unfold with_defaults. apply dict_mem_false in H. rewrite H.
  match goal with |- context [dict_mem ?d "limit"] => destruct (dict_mem d "limit") end.
  - apply dict_get_set_same.
  - rewrite dict_get_set_other by discriminate. apply dict_get_set_same.
Qed.

Lemma with_defaults_limit kw :
  dict_get kw "limit" = None ->
  dict_get (with_defaults env kw) "limit" = Some (VInt (database_limit env)).
Proof.
  intros H. unfold with_defaults. cbv zeta.
  assert (E : dict_mem (if dict_mem kw "offset" then kw
                        else dict_set kw "offset" (VInt 0)) "limit" = false).
  { apply dict_mem_false. destruct (dict_mem kw "offset"); auto.
    now rewrite dict_get_set_other by discriminate. }
  unfold dict in *. rewrite E. apply dict_get_set_same.
Qed.

Lemma declared_offset kw offset :
  declared_int kw "offset" 0 offset ->
  dict_get (with_defaults env kw) "offset" = Some (VInt offset).
Proof.
  unfold declared_int. destruct (dict_get kw "offset") eqn:E.
  - intros ->. now apply with_defaults_keeps.
  - intros ->. now apply with_defaults_offset.
Qed.

Lemma declared_limit kw limit :
  declared_int kw "limit" (database_limit env) limit ->
  dict_get (with_defaults env kw) "limit" = Some (VInt limit).
Proof.
  unfold declared_int. destruct (dict_get kw "limit") eqn:E.
  - intros ->. now apply with_defaults_keeps.
  - intros ->. now apply with_defaults_limit.
Qed.

(** C8.  When the merged payload holds a list at [data.items], the post-merge
    step of [merge_results] replaces it by the slice [offset : offset + limit]
    of the list put in the request's declared order (sorted when the request
    declares a sort), [offset] defaulting to 0 and [limit] to
    [common.database_limit]; for an offset and a limit that are not negative
    these are the [limit] items that follow the first [offset] ones. *)
Theorem merge_results_pagination (responses : list value) (acc merged : value)
        (s s1 : DistributedAPI) (items arranged : list value) (offset limit : Z) :
  merge_responses env responses acc s = (Ok merged, s1) ->
  has_data_items merged items ->
  declared_sort env (f_kwargs s) items arranged ->
  declared_int (f_kwargs s) "offset" 0 offset ->
  declared_int (f_kwargs s) "limit" (database_limit env) limit ->
  merge_results env responses acc s =
    (Ok (set_data_items merged (py_slice arranged offset (offset + limit))),
     set_f_kwargs (with_defaults env (f_kwargs s)) s) /\
  (0 <= offset -> 0 <= limit ->
   py_slice arranged offset (offset + limit) =
   firstn (Z.to_nat limit) (skipn (Z.to_nat offset) arranged)).
Proof.
  intros Hm Hit Hsort Hoff Hlim. split; [|apply py_slice_nonneg].
  unfold merge_results, bind. rewrite Hm.
  rewrite (paginate_on_items env _ _ s1 Hit). cbv zeta.
  pose proof (merge_responses_transition env responses acc _ _ _ Hm) as Hstep.
  rewrite (kw_step_defaults env _ _ Hstep).
  assert (Hkw : with_defaults env (f_kwargs s1) = with_defaults env (f_kwargs s)).
  { destruct Hstep as [-> | ->]; auto. simpl. apply with_defaults_idem. }
  rewrite Hkw. f_equal.
  simpl. rewrite (declared_offset _ _ Hoff), (declared_limit _ _ Hlim).
  unfold declared_sort in Hsort. unfold dict_mem.
  rewrite (with_defaults_other (f_kwargs s) "sort") by discriminate.
  destruct (dict_get (f_kwargs s) "sort") as [sort|].
  - destruct Hsort as (fields & order & Hf & Ho & Hs).
    simpl. rewrite Hf. simpl. rewrite Ho. simpl. rewrite Hs. reflexivity.
  - subst arranged. reflexivity.
Qed.

(** C10.  A merge whose result holds a list at [data.items] leaves the object
    changed in its arguments only: ['offset'] is stored as 0 when it was
    absent, ['limit'] as [common.database_limit] when it was absent, every
    argument that was there keeps its value, and arguments that carry both
    are unchanged. *)
Theorem merge_results_writes_defaults (responses : list value) (acc final : value)
        (s s' : DistributedAPI) (items : list value) :
  merge_results env responses acc s = (Ok final, s') ->
  has_data_items final items ->
  s' = set_f_kwargs (f_kwargs s') s /\
  (dict_get (f_kwargs s) "offset" = None ->
   dict_get (f_kwargs s') "offset" = Some (VInt 0)) /\
  (dict_get (f_kwargs s) "limit" = None ->
   dict_get (f_kwargs s') "limit" = Some (VInt (database_limit env))) /\
  (forall k v, dict_get (f_kwargs s) k = Some v -> dict_get (f_kwargs s') k = Some v) /\
  (forall k, k <> "offset" -> k <> "limit" ->
             dict_get (f_kwargs s') k = dict_get (f_kwargs s) k) /\
  (dict_mem (f_kwargs s) "offset" = true -> dict_mem (f_kwargs s) "limit" = true ->
   f_kwargs s' = f_kwargs s).
Proof.
  intros H Hit.
  unfold merge_results, bind in H.
  destruct (merge_responses env responses acc s) as [[merged| |] s1] eqn:Em; try discriminate.
  pose proof (merge_responses_transition env responses acc _ _ _ Em) as Hstep.
  assert (Hs' : s' = set_f_kwargs (with_defaults env (f_kwargs s)) s).
  { destruct (has_data_items_dec merged) as [[its Hm]|Hno].
    - rewrite (paginate_on_items env _ _ s1 Hm) in H. injection H as _ <-.
      apply kw_step_defaults, Hstep.
    - destruct (paginate_without_items env _ _ _ _ H Hno) as [_ [[= <-]|[e [=]]]].
      now destruct (Hno items). }
  subst s'. simpl. repeat split.
  - now apply with_defaults_offset.
  - now apply with_defaults_limit.
  - intros k v. apply with_defaults_keeps.
  - intros k. apply with_defaults_other.
  - apply with_defaults_fixed.
Qed.

End Pagination.

(** ** The routing decision *)

Section Routing.

Variable env : Env.

Lemma route_local_iff enabled status rt nt fc :
  route enabled status rt nt fc = ExecuteLocal <-> runs_locally enabled status rt nt fc.
Proof.
  unfold route, runs_locally.
  destruct enabled, status; simpl; try (split; auto; fail).
  destruct (String.eqb_spec rt "local_any") as [->|H1]; simpl; [split; auto|].
  destruct (String.eqb_spec rt "local_master") as [->|H2]; simpl.
  - destruct (String.eqb_spec nt "master") as [->|H3]; simpl; [split; auto 8|].
    split; [discriminate|].
    intros [H|[H|[H|[[_ H]|[H _]]]]]; congruence.
  - destruct (String.eqb_spec rt "distributed_master") as [->|H3]; simpl.
    + destruct fc; simpl; [split; auto 8|].
      destruct (String.eqb nt "master"); (split; [discriminate|]);
        intros [H|[H|[H|[[H _]|[_ H]]]]]; congruence.
    + split; [discriminate|].
      intros [H|[H|[H|[[H _]|[H _]]]]]; congruence.
Qed.

Lemma route_forward_iff enabled status rt nt fc :
  route enabled status rt nt fc = ForwardRequest <->
  ~ runs_locally enabled status rt nt fc /\ rt = "distributed_master" /\ nt = "master".
Proof.
  pose proof (route_local_iff enabled status rt nt fc) as Hl.
  destruct (route enabled status rt nt fc) eqn:E.
  - split; [discriminate|]. intros [Hn _]. destruct Hn. now apply Hl.
  - split; auto. intros _. split.
    + intros H. apply Hl in H. discriminate.
    + unfold route in E.
      match type of E with (if ?c then _ else _) = _ => destruct c end; [discriminate|].
      destruct (String.eqb_spec rt "distributed_master") as [->|H1]; simpl in E;
        [|discriminate].
      destruct (String.eqb_spec nt "master") as [->|H2]; simpl in E; [auto|discriminate].
  - split; [discriminate|]. intros (Hn & -> & ->).
    unfold route in E.
    match type of E with (if ?c then _ else _) = _ => destruct c end; discriminate.
Qed.

Lemma route_remote_iff enabled status rt nt fc :
  route enabled status rt nt fc = ExecuteRemote <->
  ~ runs_locally enabled status rt nt fc /\ ~ (rt = "distributed_master" /\ nt = "master").
Proof.
  pose proof (route_local_iff enabled status rt nt fc) as Hl.
  pose proof (route_forward_iff enabled status rt nt fc) as Hf.
  destruct (route enabled status rt nt fc) eqn:E.
  - split; [discriminate|]. intros [Hn _]. destruct Hn. now apply Hl.
  - split; [discriminate|]. intros [_ Hn]. destruct Hn. now apply Hf.
  - split; auto. intros _. split.
    + intros H. apply Hl in H. discriminate.
    + intros [H1 H2].
      assert (Hloc : ~ runs_locally enabled status rt nt fc).
      { intros H. apply Hl in H. discriminate. }
      assert (Hx : ExecuteRemote = ForwardRequest) by (apply Hf; auto). discriminate.
Qed.

(** C2.  The routing decision is a function of the five values it reads and
    has exactly the three outcomes of the design document, the first match
    winning; [distribute_function]'s [try] block runs the code of the branch
    decided and nothing else.  ([cluster.check_cluster_status()] is not called
    when the distributed API is disabled: its value then makes no
    difference.) *)
Theorem routing_decision (reenter : M value) (s : DistributedAPI)
        (is_dapi_enabled cluster_status : bool) :
  dapi_enabled env = Ok is_dapi_enabled ->
  (is_dapi_enabled = true -> check_cluster_status env = Ok cluster_status) ->
  let decide := route is_dapi_enabled cluster_status (request_type s) (node_type s)
                      (from_cluster s) in
  let local := runs_locally is_dapi_enabled cluster_status (request_type s) (node_type s)
                            (from_cluster s) in
  let master_forwards := request_type s = "distributed_master" /\ node_type s = "master" in
  distribute_body env reenter s = branch_code env reenter decide s /\
  (decide = ExecuteLocal <-> local) /\
  (decide = ForwardRequest <-> ~ local /\ master_forwards) /\
  (decide = ExecuteRemote <-> ~ local /\ ~ master_forwards).
Proof.
  intros He Hs decide local master_forwards. split.
  - unfold distribute_body, bind, lift, gets, ret. rewrite He.
    destruct is_dapi_enabled; simpl.
    + rewrite (Hs eq_refl). subst decide.
      destruct (route true cluster_status (request_type s) (node_type s) (from_cluster s));
        reflexivity.
    + subst decide. reflexivity.
  - subst decide local master_forwards.
    split; [apply route_local_iff|].
    split; [apply route_forward_iff|apply route_remote_iff].
Qed.

End Routing.

(** ** What the methods leave unchanged *)

Lemma transition_raise {S A} (R : S -> S -> Prop) (e : exn) :
  (forall s, R s s) -> transition R (@raise S A e).
Proof. intros Hr s r s' [= <- <-]. apply Hr. Qed.

Lemma transition_modify {S} (R : S -> S -> Prop) (g : S -> S) :
  (forall s, R s (g s)) -> transition R (modify g).
Proof. intros Hr s r s' [= <- <-]. apply Hr. Qed.

Lemma transition_try {S A} (R : S -> S -> Prop) (c : ST S A) (h : exn -> ST S A) :
  (forall s1 s2 s3, R s1 s2 -> R s2 s3 -> R s1 s3) ->
  transition R c -> (forall e, transition R (h e)) -> transition R (try_except c h).
Proof.
  intros Htrans Hc Hh s r s' H. unfold try_except in H.
  destruct (c s) as [[a|e|] s1] eqn:E; apply Hc in E.
  - now inversion H; subst.
  - eapply Htrans; [exact E|]. eapply Hh; eauto.
  - now inversion H; subst.
Qed.

Lemma transition_weaken {S A} (R R' : S -> S -> Prop) (c : ST S A) :
  (forall s s', R s s' -> R' s s') -> transition R c -> transition R' c.
Proof. intros Hw Hc s r s' H. apply Hw. eapply Hc; eauto. Qed.

Lemma keeps_refl s : keeps_config s s.
Proof. unfold keeps_config. tauto. Qed.

Lemma keeps_trans s1 s2 s3 : keeps_config s1 s2 -> keeps_config s2 s3 -> keeps_config s1 s3.
Proof.
  unfold keeps_config. intros (A1 & A2 & A3 & A4 & A5 & A6 & A7 & A8)
                              (B1 & B2 & B3 & B4 & B5 & B6 & B7 & B8).
  repeat split; try congruence. auto.
Qed.

Lemma keeps_set_f_kwargs kw s : keeps_config s (set_f_kwargs kw s).
Proof. unfold keeps_config. simpl. tauto. Qed.

Lemma keeps_log_event e s : keeps_config s (log_event e s).
Proof. unfold keeps_config. simpl. tauto. Qed.

Lemma keeps_set_from_cluster s : keeps_config s (set_from_cluster true s).
Proof. unfold keeps_config. simpl. tauto. Qed.

Lemma kw_step_keeps env s s' : kw_step env s s' -> keeps_config s s'.
Proof. intros [-> | ->]; [apply keeps_refl|apply keeps_set_f_kwargs]. Qed.

(** One step of a proof that a method keeps the configuration. *)
Ltac keeps_step :=
  first
    [ apply transition_ret; exact keeps_refl
    | apply transition_lift; exact keeps_refl
    | apply transition_gets; exact keeps_refl
    | apply transition_raise; exact keeps_refl
    | apply transition_modify; intros;
      first [apply keeps_set_f_kwargs | apply keeps_log_event | apply keeps_set_from_cluster]
    | apply transition_bind; [exact keeps_trans| |intros ?]
    | apply transition_try; [exact keeps_trans| |intros ?]
    | match goal with
      | |- transition _ (match ?x with _ => _ end) => destruct x
      end ].

Section Invariants.

Variable env : Env.

Lemma merge_results_keeps responses final :
  transition keeps_config (merge_results env responses final).
Proof.
  unfold merge_results.
  apply transition_bind; [exact keeps_trans| |intros merged].
  - eapply transition_weaken; [apply (kw_step_keeps env)|apply merge_responses_transition].
  - eapply transition_weaken; [apply (kw_step_keeps env)|apply paginate_transition].
Qed.

Lemma get_solver_node_keeps : transition keeps_config (get_solver_node env).
Proof. unfold get_solver_node. repeat keeps_step. Qed.

Lemma to_envelope_keeps e : transition keeps_config (to_envelope e).
Proof. unfold to_envelope. repeat keeps_step. Qed.

Lemma execute_local_request_keeps : transition keeps_config (execute_local_request env).
Proof.
  unfold execute_local_request, run_local. repeat keeps_step.
Qed.

Lemma execute_remote_request_keeps : transition keeps_config (execute_remote_request env).
Proof. unfold execute_remote_request. repeat keeps_step. Qed.

Lemma forward_keeps reenter entry :
  transition keeps_config reenter -> transition keeps_config (forward env reenter entry).
Proof.
  intros Hr. unfold forward. destruct entry as [node ids].
  repeat (first [exact Hr | keeps_step]).
Qed.

Lemma gather_keeps reenter nodes :
  transition keeps_config reenter -> transition keeps_config (gather env reenter nodes).
Proof.
  intros Hr. induction nodes as [|entry rest IH]; simpl.
  - keeps_step.
  - keeps_step; [now apply forward_keeps|].
    keeps_step; [exact IH|]. keeps_step.
Qed.

Lemma forward_request_keeps reenter :
  transition keeps_config reenter -> transition keeps_config (forward_request env reenter).
Proof.
  intros Hr. unfold forward_request.
  keeps_step; [apply get_solver_node_keeps|].
  keeps_step; [keeps_step|].
  destruct a as [|e1 [|e2 rest]].
  - keeps_step.
  - now apply forward_keeps.
  - keeps_step; [now apply gather_keeps|apply merge_results_keeps].
Qed.

Lemma distribute_body_keeps reenter :
  transition keeps_config reenter -> transition keeps_config (distribute_body env reenter).
Proof.
  intros Hr. unfold distribute_body.
  keeps_step; [keeps_step|].
  keeps_step; [repeat keeps_step|].
  keeps_step; [keeps_step|].
  destruct (route _ _ _ _ _).
  - apply execute_local_request_keeps.
  - now apply forward_request_keeps.
  - apply execute_remote_request_keeps.
Qed.

Lemma distribute_function_keeps depth :
  transition keeps_config (distribute_function env depth).
Proof.
  induction depth as [|d IH]; simpl.
  - keeps_step.
  - keeps_step; [now apply distribute_body_keeps|apply to_envelope_keeps].
Qed.

End Invariants.

(** ** Failures of a distributed call *)

Section Failures.

Variable env : Env.

Lemma to_envelope_quiet e s :
  debug s = false ->
  to_envelope e s =
  (Ok (match e with
       | WazuhException code message => print_json (VStr message) code
       | _ => print_json (VStr (exn_str e)) 1000
       end), s).
Proof.
  intros Hd. unfold to_envelope, bind, gets, ret, raise. rewrite Hd. now destruct e.
Qed.

Lemma to_envelope_debug e s : debug s = true -> to_envelope e s = (Raise e, s).
Proof. intros Hd. unfold to_envelope, bind, gets, ret, raise. now rewrite Hd. Qed.

Lemma print_json_failure message code :
  code <> 0 -> print_json (VStr message) code = error_envelope code message.
Proof.
  intros H. unfold print_json, error_envelope.
  destruct (Z.eqb_spec code 0); [contradiction|reflexivity].
Qed.

(** C1 (as amended).  With debug mode off [distribute_function] never raises:
    when its [try] block raises a [WazuhException] the answer is the envelope
    made by [print_json] from the exception's message and code, whose
    ['error'] is that code and which holds the message under ['message']
    when the code is not 0; when the block raises any other exception the
    answer is [{'message': str(e), 'error': 1000}].  With debug mode on the
    exception the block raises is the one [distribute_function] raises. *)
Theorem distribute_function_failures (depth : nat) (s : DistributedAPI) :
  let body := distribute_body env (distribute_function env depth) s in
  (debug s = false ->
   (forall e s', distribute_function env (S depth) s <> (Raise e, s')) /\
   (forall code message s1,
       body = (Raise (WazuhException code message), s1) ->
       distribute_function env (S depth) s = (Ok (print_json (VStr message) code), s1) /\
       py_getitem (print_json (VStr message) code) "error" = Ok (VInt code) /\
       (code <> 0 -> print_json (VStr message) code = error_envelope code message)) /\
   (forall e s1,
       body = (Raise e, s1) -> is_wazuh_exception e = false ->
       distribute_function env (S depth) s = (Ok (error_envelope 1000 (exn_str e)), s1))) /\
  (debug s = true ->
   forall e s1, body = (Raise e, s1) -> distribute_function env (S depth) s = (Raise e, s1)).
Proof.
  intros body. subst body. simpl. unfold try_except.
  split; [intros Hd; split; [|split]|intros Hd].
  - intros e s' H.
    destruct (distribute_body env (distribute_function env depth) s) as [[v|e0|] s1] eqn:Eb;
      try discriminate.
    pose proof (distribute_body_keeps env _ (distribute_function_keeps env depth) _ _ _ Eb)
      as (Hdbg & _).
    rewrite to_envelope_quiet in H by congruence. discriminate.
  - intros code message s1 Eb. rewrite Eb.
    pose proof (distribute_body_keeps env _ (distribute_function_keeps env depth) _ _ _ Eb)
      as (Hdbg & _).
    rewrite to_envelope_quiet by congruence.
    split; [reflexivity|]. split; [|apply print_json_failure].
    unfold print_json. simpl. now destruct (code =? 0).
  - intros e s1 Eb Hw. rewrite Eb.
    pose proof (distribute_body_keeps env _ (distribute_function_keeps env depth) _ _ _ Eb)
      as (Hdbg & _).
    rewrite to_envelope_quiet by congruence.
    destruct e; try discriminate; reflexivity.
  - intros e s1 Eb. rewrite Eb.
    pose proof (distribute_body_keeps env _ (distribute_function_keeps env depth) _ _ _ Eb)
      as (Hdbg & _).
    apply to_envelope_debug. congruence.
Qed.

(** ** The deadline of a local execution *)

Lemma execute_local_request_run s c :
  f s = VCallable c ->
  let called := call env c (f_kwargs s) in
  let s1 := log_event (LocalCall (f s) (f_kwargs s)) s in
  forall timeout,
    (if wait_for_complete s then Ok None
     else res_bind (timeout_api_request env) (fun limit => Ok (Some limit))) = Ok timeout ->
    execute_local_request env s =
    match (if is_async s then on_loop called else Ok (in_executor called)) with
    | Ok task =>
        match wait_for_object task timeout with
        | Ok data => (Ok (print_json data 0), s1)
        | Raise TimeoutError =>
            to_envelope (WazuhException 3021 (wazuh_error_message env 3021)) s1
        | Raise e => to_envelope e s1
        | Hang => (Hang, s1)
        end
    | Raise e => to_envelope e s1
    | Hang => (Hang, s1)
    end.
Proof.
  intros Hf called s1 timeout Ht.
  subst called s1.
  unfold execute_local_request, try_except, run_local.
  unfold bind at 1. unfold bind at 1. unfold gets at 1. cbn -[wait_for_object on_loop].
  assert (Htimeout :
            (if wait_for_complete s
             then ret None
             else bind (lift (timeout_api_request env)) (fun t => ret (Some t))) s =
            (Ok timeout, s)).
  { destruct (wait_for_complete s).
    - injection Ht as <-. reflexivity.
    - unfold bind, lift, ret. destruct (timeout_api_request env); try discriminate.
      injection Ht as <-. reflexivity. }
  rewrite Htimeout.
  unfold bind, gets, ret, lift, modify, raise. cbn -[wait_for_object on_loop].
  rewrite Hf. cbn -[wait_for_object on_loop].
  destruct (is_async s).
  - destruct (on_loop (call env c (f_kwargs s))) as [task|e|]; [|reflexivity|reflexivity].
    destruct (wait_for_object task timeout) as [data|[| |]|]; reflexivity.
  - destruct (wait_for_object _ timeout) as [data|[| |]|]; reflexivity.
Qed.

(** C4 (as amended).  A local execution whose call is awaited (a function
    run by the executor, or the coroutine of a coroutine function called with
    [is_async]) and that does not wait for completion has the configured
    API-request timeout as its deadline: an awaitable that ends within it
    gives its result; one that runs past it gives, with debug mode off, the
    envelope [{'message': ..., 'error': 3021}], which has no ['data'], and
    with debug mode on raises [WazuhException(3021)].  With
    [wait_for_complete] there is no deadline: the result is the answer
    however long it takes and whatever the configured timeout is.  An
    ordinary function called with [is_async] is not under the deadline at
    all: it runs where it is called, however long it takes, and what it
    returns cannot be awaited, so the answer is the envelope of error 1000
    and never the one of 3021. *)
Theorem execute_local_request_deadline (s : DistributedAPI) (c : callable) :
  f s = VCallable c ->
  let called := call env c (f_kwargs s) in
  let s1 := log_event (LocalCall (f s) (f_kwargs s)) s in
  let timed_out := WazuhException 3021 (wazuh_error_message env 3021) in
  (forall t, awaited_task (is_async s) called = Some t ->
     (wait_for_complete s = false ->
      forall limit, timeout_api_request env = Ok limit ->
        (forall d data, duration t = Some d -> d <= limit -> outcome t = Ok data ->
           execute_local_request env s = (Ok (data_envelope data), s1)) /\
        ((forall d, duration t = Some d -> limit < d) ->
           (debug s = false ->
            execute_local_request env s =
              (Ok (error_envelope 3021 (wazuh_error_message env 3021)), s1) /\
            py_contains "data" (error_envelope 3021 (wazuh_error_message env 3021))
              = Ok false) /\
           (debug s = true -> execute_local_request env s = (Raise timed_out, s1)))) /\
     (wait_for_complete s = true ->
      forall d data, duration t = Some d -> outcome t = Ok data ->
        execute_local_request env s = (Ok (data_envelope data), s1))) /\
  (forall t d data limit,
     is_async s = true -> called = Returns t ->
     duration t = Some d -> outcome t = Ok data ->
     wait_for_complete s = false -> timeout_api_request env = Ok limit ->
     debug s = false ->
     execute_local_request env s =
       (Ok (error_envelope 1000 "An asyncio.Future, a coroutine or an awaitable is required"),
        s1)).
Proof.
  intros Hf called s1 timed_out. split.
  - intros t Hawaited.
    assert (Htask : (if is_async s then on_loop called else Ok (in_executor called)) =
                    Ok (Future t)).
    { unfold awaited_task in Hawaited.
      destruct (is_async s), called as [t0|name t0]; simpl; try discriminate;
        now injection Hawaited as <-. }
    split.
    + intros Hw limit Hl. split.
      * intros d data Hd Hle Ho.
        rewrite (execute_local_request_run s c Hf (Some limit)) by (now rewrite Hw, Hl).
        fold called. rewrite Htask. cbn [wait_for_object]. unfold wait_for. rewrite Hd.
        destruct (Z.leb_spec d limit); [|lia]. rewrite Ho. reflexivity.
      * intros Hlate.
        assert (Hwait : wait_for t (Some limit) = Raise TimeoutError).
        { unfold wait_for. destruct (duration t) as [d|] eqn:Hd; auto.
          specialize (Hlate d eq_refl). destruct (Z.leb_spec d limit); [lia|reflexivity]. }
        rewrite (execute_local_request_run s c Hf (Some limit)) by (now rewrite Hw, Hl).
        fold called. rewrite Htask. cbn [wait_for_object]. rewrite Hwait. fold s1. split.
        -- intros Hd. split; [|reflexivity].
           rewrite to_envelope_quiet by (subst s1; simpl; exact Hd). reflexivity.
        -- intros Hd. apply to_envelope_debug. subst s1. simpl. exact Hd.
    + intros Hw d data Hd Ho.
      rewrite (execute_local_request_run s c Hf None) by (now rewrite Hw).
      fold called. rewrite Htask. cbn [wait_for_object]. unfold wait_for. rewrite Hd, Ho. reflexivity.
  - intros t d data limit Hasync Hcalled Hd Ho Hw Hl Hdbg.
    rewrite (execute_local_request_run s c Hf (Some limit)) by (now rewrite Hw, Hl).
    fold called. rewrite Hasync, Hcalled. simpl. rewrite Hd, Ho. simpl. fold s1.
    rewrite to_envelope_quiet by (subst s1; simpl; exact Hdbg). reflexivity.
Qed.

End Failures.

(** ** Forwarding to the node itself *)

Section ForwardToSelf.

Variable env : Env.







(** What [forward] does with an entry of the solver map. *)
Lemma forward_self reenter node ids s :
  py_eqb node (VStr "unknown") || py_eqb node (VStr "") || py_eqb node (VStr (node_name s))
    = true ->
  forward env reenter (node, ids) s = reenter (inject_agent_id ids s).
Proof.
  intros Hself. unfold forward, inject_agent_id, bind, gets, modify, ret.
  destruct ids as [|i ids]; simpl.
  - now rewrite Hself.
  - destruct (dict_get (f_kwargs s) "agent_id") as [old|]; simpl.
    + destruct (is_list old); simpl; now rewrite Hself.
    + now rewrite Hself.
Qed.





End ForwardToSelf.

(** ** Solver-node resolution *)

Lemma callable_eqb_eq a b : callable_eqb a b = true <-> a = b.
Proof.
  destruct a, b; simpl; split; try discriminate; intros H.
  all: try (repeat (apply andb_prop in H as [H ?]);
            repeat match goal with
                   | E : String.eqb _ _ = true |- _ => apply String.eqb_eq in E
                   end; subst; reflexivity).
  all: injection H as -> ->; subst; now rewrite ?String.eqb_refl.
Qed.

Lemma py_eqb_refl a : hashable a = true -> py_eqb a a = true.
Proof.
  destruct a; simpl; try discriminate; intros _; auto using String.eqb_refl, Z.eqb_refl.
  - now destruct b.
  - now apply callable_eqb_eq.
Qed.

Lemma py_eqb_trans a b c :
  hashable a = true -> hashable b = true -> hashable c = true ->
  py_eqb a b = true -> py_eqb b c = true -> py_eqb a c = true.
Proof.
  destruct a, b, c; simpl; try discriminate; intros _ _ _ H1 H2; try reflexivity.
  all: repeat match goal with
              | E : Z.eqb _ _ = true |- _ => apply Z.eqb_eq in E
              | E : Bool.eqb _ _ = true |- _ => apply Bool.eqb_prop in E
              | E : String.eqb _ _ = true |- _ => apply String.eqb_eq in E
              | E : callable_eqb _ _ = true |- _ => apply callable_eqb_eq in E
              end; subst.
  all: try (apply Z.eqb_refl).
  all: try (apply String.eqb_refl).
  all: try (now apply callable_eqb_eq).
  all: try (repeat match goal with x : bool |- _ => destruct x end;
            simpl in *; try discriminate; reflexivity).
Qed.

Lemma py_eqb_sym a b :
  hashable a = true -> hashable b = true -> py_eqb a b = py_eqb b a.
Proof.
  destruct a, b; simpl; try discriminate; intros _ _; try reflexivity.
  - now destruct b, b0.
  - apply Z.eqb_sym.
  - apply Z.eqb_sym.
  - apply Z.eqb_sym.
  - apply String.eqb_sym.
  - apply String.eqb_sym.
  - destruct c, c0; simpl; try reflexivity;
      rewrite ?(String.eqb_sym module_path), ?(String.eqb_sym funcname),
        ?(String.eqb_sym classname), ?(String.eqb_sym ossec_path); reflexivity.
  - apply String.eqb_sym.
Qed.

Lemma py_eqb_neq_trans e k q :
  hashable e = true -> hashable k = true -> hashable q = true ->
  py_eqb e k = true -> py_eqb e q = py_eqb k q.
Proof.
  intros He Hk Hq Hek.
  destruct (py_eqb k q) eqn:Hkq.
  - now apply (py_eqb_trans e k q).
  - destruct (py_eqb e q) eqn:Heq; [|reflexivity].
    rewrite (py_eqb_sym e k He Hk) in Hek.
    now rewrite (py_eqb_trans k e q Hk He Hq Hek Heq) in Hkq.
Qed.





Lemma groupby_spec agents :
  Forall hashable_agent agents ->
  Forall (fun kg => hashable (fst kg) = true) (groupby agents) /\
  forall a, In a agents ->
            exists k g, In (k, g) (groupby agents) /\ In a g /\
                        py_eqb k (agent_node a) = true.
Proof.
  induction 1 as [|a0 rest [Hid Hname] Hrest [IHk IH]]; simpl.
  - split; [constructor|]. intros a [].
  - destruct (groupby rest) as [|[k g] groups] eqn:Eg.
    + split; [repeat constructor; exact Hname|].
      intros a [<-|Ha].
      * exists (agent_node a0), [a0]. repeat split; simpl; auto. now apply py_eqb_refl.
      * destruct (IH a Ha) as (? & ? & [] & _).
    + inversion IHk as [|? ? Hk Hgroups]; subst. simpl in Hk.
      destruct (py_eqb (agent_node a0) k) eqn:E.
      * split; [constructor; auto|].
        intros a [<-|Ha].
        -- exists (agent_node a0), (a0 :: g). repeat split; simpl; auto.
           now apply py_eqb_refl.
        -- destruct (IH a Ha) as (k' & g' & [[= <- <-]|Hin] & Hag & Hkey).
           ++ exists (agent_node a0), (a0 :: g). repeat split; simpl; auto.
              eapply py_eqb_trans; [exact Hname|exact Hk| |exact E|exact Hkey].
              rewrite Forall_forall in Hrest. now destruct (Hrest a Ha).
           ++ exists k', g'. repeat split; simpl; auto.
      * split; [constructor; auto|].
        intros a [<-|Ha].
        -- exists (agent_node a0), [a0]. repeat split; simpl; auto. now apply py_eqb_refl.
        -- destruct (IH a Ha) as (k' & g' & Hin & Hag & Hkey).
           exists k', g'. repeat split; simpl; auto.
Qed.



Lemma solver_set_keys_from m k ids k' :
  In k' (map fst (solver_set m k ids)) -> In k' (map fst m) \/ k' = k.
Proof.
  induction m as [|[k1 v1] rest IH]; simpl.
  - intros [<- | []]. now right.
  - destruct (py_eqb k1 k); simpl; intros [H|H]; auto.
    apply IH in H. tauto.
Qed.

Lemma solver_get_set m k v q :
  hashable_keys m -> hashable k = true -> hashable q = true ->
  solver_get (solver_set m k v) q = if py_eqb k q then Some v else solver_get m q.
Proof.
  intros Hm Hk Hq. induction Hm as [|[e x] rest He _ IH]; simpl; [reflexivity|].
  simpl in He. destruct (py_eqb e k) eqn:Hek; simpl.
  - rewrite (py_eqb_neq_trans e k q He Hk Hq Hek).
    destruct (py_eqb k q); reflexivity.
  - rewrite IH. destruct (py_eqb e q) eqn:Heq; [|reflexivity].
    destruct (py_eqb k q) eqn:Hkq; [|reflexivity].
    rewrite (py_eqb_sym k q Hk Hq) in Hkq.
    now rewrite (py_eqb_trans e q k He Hq Hk Heq Hkq) in Hek.
Qed.

Lemma solver_set_hashable m k v :
  hashable_keys m -> hashable k = true -> hashable_keys (solver_set m k v).
Proof.
  unfold hashable_keys. intros Hm Hk. induction Hm as [|[e x] rest He Hrest IH]; simpl.
  - constructor; [exact Hk|constructor].
  - destruct (py_eqb e k); constructor; auto.
Qed.











Section SolverNode.

Variable env : Env.


End SolverNode.

(** ** Decoding and the queue consumer *)

Section Decoding.

Variable resolver : Resolver.

(** A dictionary with ['__callable__'] is never passed through as it is: it
    decodes to a callable or decoding raises. *)
Lemma as_callable_never_silent dct v :
  dict_mem dct "__callable__" = true ->
  as_callable resolver dct = Ok v -> exists c, v = VCallable c.
Proof.
  intros Hm H. unfold as_callable in H. rewrite Hm in H.
  apply dict_mem_get in Hm as [enc Henc]. rewrite Henc in H.
  destruct (decode_callable resolver enc) as [w|e|] eqn:Ed; try discriminate.
  - injection H as <-. unfold decode_callable in Ed.
    repeat (match type of Ed with
            | context [res_bind ?x _] => destruct x eqn:?; simpl in Ed
            | context [match ?x with _ => _ end] => destruct x eqn:?
            end; try discriminate).
    all: injection Ed as <-; eauto.
  - destruct (is_key_or_attribute_error e); discriminate.
Qed.

(** A missing ['__name__'] is answered with the decode error. *)
Lemma as_callable_missing_name dct enc :
  dict_get dct "__callable__" = Some (VDict enc) ->
  dict_get enc "__name__" = None ->
  as_callable resolver dct = TypeError "Wazuh object cannot be decoded from JSON".
Proof.
  intros Hd Hn. unfold as_callable, dict_mem. rewrite Hd.
  unfold decode_callable. simpl. rewrite Hn. reflexivity.
Qed.

(** A module that cannot be imported is not answered with the decode error:
    what [import_module] raises leaves [as_callable] as it is, unless it is a
    [KeyError] or an [AttributeError]. *)
Lemma as_callable_unresolvable_module dct enc name qualname module_path e :
  dict_get dct "__callable__" = Some (VDict enc) ->
  dict_get enc "__name__" = Some name ->
  dict_get enc "__wazuh__" = None ->
  dict_get enc "__qualname__" = Some (VStr qualname) ->
  dict_get enc "__module__" = Some (VStr module_path) ->
  import_module resolver module_path = Raise e ->
  is_key_or_attribute_error e = false ->
  as_callable resolver dct = Raise e.
Proof.
  intros Hd Hn Hw Hq Hm Hi He. unfold as_callable, dict_mem. rewrite Hd.
  unfold decode_callable. simpl. unfold dict_mem. rewrite Hn, Hw, Hq. simpl.
  rewrite Hm. simpl. rewrite Hi. simpl. now rewrite He.
Qed.

End Decoding.

Section Consumer.

Variable server : Server.

(** An exception raised while a request is served leaves [run]: the requests
    behind it are not served. *)
Lemma run_ends_on_exception message rest q e q' :
  serve server message q = (Raise e, q') ->
  run server (message :: rest) q = (Terminated e, q').
Proof. intros H. simpl. now rewrite H. Qed.

(** A request that cannot be decoded raises out of [serve] before anything
    is sent or logged. *)
Lemma serve_undecodable names request parsed e q :
  split_once " " (names ++ " " ++ request) = Some (names, request) ->
  (String.eqb (match split_once "*" names with
               | None => names
               | Some (n0, _) => n0
               end) "None" = true) ->
  parse_json server request = Ok parsed ->
  object_hook (resolver server) parsed = Raise e ->
  serve server (names ++ " " ++ request) q = (Raise e, q).
Proof.
  intros Hsplit Hnone Hparse Hhook. unfold serve. rewrite Hsplit.
  destruct (split_once "*" names) as [[n0 n1]|]; rewrite Hnone;
    unfold bind, ret, lift; now rewrite Hparse, Hhook.
Qed.

End Consumer.

(* ===================================================================== *)
(** * The properties on the small cluster                                 *)
(* ===================================================================== *)

Ltac unique_keys_by_computation :=
  unfold unique_keys; simpl;
  repeat (constructor; [simpl; intuition discriminate|]); try constructor.

(** ** Failures *)

Lemma distribute_function_failures_witness :
  distribute_function (example_env_with (Raise (WazuhException 3006 "cluster.json")) [])
                      1 example_api =
  (Ok (error_envelope 3006 "cluster.json"), example_api) /\
  distribute_function (example_env_with (Raise (PyError "KeyError" "distributed_api")) [])
                      1 example_api =
  (Ok (error_envelope 1000 "distributed_api"), example_api) /\
  (let s := example_api_with "get_agents" [] true "distributed_master" false false in
   distribute_function (example_env_with (Raise (WazuhException 3006 "cluster.json")) [])
                       1 s =
   (Raise (WazuhException 3006 "cluster.json"), s)).
Proof.
  split; [|split].
  - destruct (distribute_function_failures
                (example_env_with (Raise (WazuhException 3006 "cluster.json")) [])
                0 example_api) as [Hquiet _].
    destruct (Hquiet eq_refl) as (_ & Hwazuh & _).
    destruct (Hwazuh 3006 "cluster.json" example_api eq_refl) as (Hrun & _ & Hshape).
    rewrite Hrun. rewrite Hshape; [reflexivity|discriminate].
  - destruct (distribute_function_failures
                (example_env_with (Raise (PyError "KeyError" "distributed_api")) [])
                0 example_api) as [Hquiet _].
    destruct (Hquiet eq_refl) as (_ & _ & Hother).
    exact (Hother (PyError "KeyError" "distributed_api") example_api eq_refl eq_refl).
  - intros s.
    destruct (distribute_function_failures
                (example_env_with (Raise (WazuhException 3006 "cluster.json")) [])
                0 s) as [_ Hdebug].
    exact (Hdebug eq_refl (WazuhException 3006 "cluster.json") s eq_refl).
Defined.

(** A [WazuhException] whose code is 0 is answered with an envelope that has
    no ['message']: the message sits under ['data'] and the code is 0. *)
Lemma envelope_for_code_zero_has_no_message :
  exists v,
    distribute_function (example_env_with (Raise (WazuhException 0 "m")) []) 1 example_api
      = (Ok v, example_api) /\
    py_getitem v "message" = KeyError "message" /\
    py_getitem v "data" = Ok (VStr "m") /\
    py_getitem v "error" = Ok (VInt 0).
Proof. eexists. repeat split; reflexivity. Qed.

Lemma execute_local_request_deadline_witness :
  (let s := example_api_with "get_agents" [] false "local_any" false false in
   execute_local_request example_env s =
   (Ok (data_envelope (VDict [("items", VList []); ("totalItems", VInt 0)])),
    log_event (LocalCall (f s) (f_kwargs s)) s)) /\
  (let s := example_api_with "slow" [] false "local_any" false false in
   execute_local_request example_env s =
   (Ok (error_envelope 3021 "Timeout executing API request"),
    log_event (LocalCall (f s) (f_kwargs s)) s)) /\
  (let s := example_api_with "slow" [] true "local_any" false false in
   execute_local_request example_env s =
   (Raise (WazuhException 3021 "Timeout executing API request"),
    log_event (LocalCall (f s) (f_kwargs s)) s)) /\
  (let s := example_api_with "slow" [] false "local_any" true false in
   execute_local_request example_env s =
   (Ok (data_envelope (VStr "done")), log_event (LocalCall (f s) (f_kwargs s)) s)) /\
  (let s := example_async_api "slow_coroutine" in
   execute_local_request example_env s =
   (Ok (error_envelope 3021 "Timeout executing API request"),
    log_event (LocalCall (f s) (f_kwargs s)) s)) /\
  (let s := example_async_api "slow" in
   execute_local_request example_env s =
   (Ok (error_envelope 1000 "An asyncio.Future, a coroutine or an awaitable is required"),
    log_event (LocalCall (f s) (f_kwargs s)) s)).
Proof.
  assert (Hpast : forall d, duration (mkTask (Some 20) (Ok (VStr "done"))) = Some d -> 10 < d).
  { intros d [= <-]. reflexivity. }
  split; [|split; [|split; [|split; [|split]]]].
  - destruct (execute_local_request_deadline example_env
                (example_api_with "get_agents" [] false "local_any" false false)
                (ModuleAttr "wazuh.agent" "get_agents") eq_refl) as [Hawaited _].
    destruct (Hawaited _ eq_refl) as [Hdeadline _].
    destruct (Hdeadline eq_refl 10 eq_refl) as [Hintime _].
    apply (Hintime 1); [reflexivity|lia|reflexivity].
  - destruct (execute_local_request_deadline example_env
                (example_api_with "slow" [] false "local_any" false false)
                (ModuleAttr "wazuh.agent" "slow") eq_refl) as [Hawaited _].
    destruct (Hawaited _ eq_refl) as [Hdeadline _].
    destruct (Hdeadline eq_refl 10 eq_refl) as [_ Hlate].
    destruct (Hlate Hpast) as [Hquiet _].
    destruct (Hquiet eq_refl) as [Hrun _]. exact Hrun.
  - destruct (execute_local_request_deadline example_env
                (example_api_with "slow" [] true "local_any" false false)
                (ModuleAttr "wazuh.agent" "slow") eq_refl) as [Hawaited _].
    destruct (Hawaited _ eq_refl) as [Hdeadline _].
    destruct (Hdeadline eq_refl 10 eq_refl) as [_ Hlate].
    destruct (Hlate Hpast) as [_ Hdebug]. exact (Hdebug eq_refl).
  - destruct (execute_local_request_deadline example_env
                (example_api_with "slow" [] false "local_any" true false)
                (ModuleAttr "wazuh.agent" "slow") eq_refl) as [Hawaited _].
    destruct (Hawaited _ eq_refl) as [_ Hwait].
    exact (Hwait eq_refl 20 (VStr "done") eq_refl eq_refl).
  - destruct (execute_local_request_deadline example_env
                (example_async_api "slow_coroutine")
                (ModuleAttr "wazuh.agent" "slow_coroutine") eq_refl) as [Hawaited _].
    destruct (Hawaited _ eq_refl) as [Hdeadline _].
    destruct (Hdeadline eq_refl 10 eq_refl) as [_ Hlate].
    destruct (Hlate Hpast) as [Hquiet _].
    destruct (Hquiet eq_refl) as [Hrun _]. exact Hrun.
  - destruct (execute_local_request_deadline example_env
                (example_async_api "slow")
                (ModuleAttr "wazuh.agent" "slow") eq_refl) as [_ Hloop].
    exact (Hloop _ 20 (VStr "done") 10 eq_refl eq_refl eq_refl eq_refl eq_refl eq_refl
                 eq_refl).
Defined.

(** With debug mode on, running past the deadline raises: no envelope is
    returned. *)
Lemma timeout_in_debug_mode_raises :
  fst (execute_local_request example_env
         (example_api_with "slow" [] true "local_any" false false)) =
  Raise (WazuhException 3021 "Timeout executing API request").
Proof. reflexivity. Qed.

(** ** Routing *)

Lemma routing_decision_witness :
  dapi_enabled example_env = Ok true /\
  route true false "distributed_master" "master" false = ForwardRequest /\
  distribute_body example_env (distribute_function example_env 1) example_api =
  forward_request example_env (distribute_function example_env 1) example_api.
Proof.
  destruct (routing_decision example_env (distribute_function example_env 1) example_api
                             true false eq_refl (fun _ => eq_refl)) as [Hbody _].
  split; [reflexivity|]. split; [reflexivity|exact Hbody].
Defined.

(** The twelve combinations of routing mode, node type and [from_cluster] on
    a healthy cluster with the distributed API enabled. *)
Example route_table :
  map (fun '(mode, node, forwarded) => route true false mode node forwarded)
      [("local_any", "master", false); ("local_any", "master", true);
       ("local_any", "worker", false); ("local_any", "worker", true);
       ("local_master", "master", false); ("local_master", "master", true);
       ("local_master", "worker", false); ("local_master", "worker", true);
       ("distributed_master", "master", false); ("distributed_master", "master", true);
       ("distributed_master", "worker", false); ("distributed_master", "worker", true)] =
  [ExecuteLocal; ExecuteLocal; ExecuteLocal; ExecuteLocal;
   ExecuteLocal; ExecuteLocal; ExecuteRemote; ExecuteRemote;
   ForwardRequest; ExecuteLocal; ExecuteRemote; ExecuteLocal].
Proof. reflexivity. Qed.

(** ** Forwarding *)


(** The whole fan-out of the design document's example: the ids of nodeB and
    nodeA go over their peer channels, the unknown id 3 is executed here. *)
Example forward_request_fan_out :
  let s := example_api_with "get_agents" [("agent_id", VList [VInt 1; VInt 2; VInt 3])]
                            false "distributed_master" false false in
  map (fun e => match e with
                | PeerSend _ (Some node) _ => Some node
                | _ => None
                end)
      (trace (snd (distribute_function example_env 2 s))) =
  [Some (VStr "nodeB"); Some (VStr "nodeA"); None].
Proof. reflexivity. Qed.

(** ** Solver nodes *)



(** The example of the design document: ids [1,2,3], 1 on nodeA, 2 on nodeB,
    3 unknown, on the master masterX. *)
Example solver_map_of_the_design_document :
  let s := example_api_with "get_agents" [("agent_id", VList [VInt 1; VInt 2; VInt 3])]
                            false "distributed_master" false false in
  exists nodes,
    get_solver_node example_env s = (Ok nodes, s) /\
    List.length nodes = 3%nat /\
    solver_get nodes (VStr "nodeA") = Some [VInt 1] /\
    solver_get nodes (VStr "nodeB") = Some [VInt 2] /\
    solver_get nodes (VStr "masterX") = Some [VInt 3].
Proof.
  exists [(VStr "nodeB", [VInt 2]); (VStr "nodeA", [VInt 1]); (VStr "masterX", [VInt 3])].
  repeat split; reflexivity.
Qed.

(** ** Merging *)

Lemma merge_results_integer_key_witness :
  py_getitem (VDict [("totalItems", VInt 5)]) "totalItems" = Ok (VInt (2 + 3)) /\
  py_getitem (VDict [("error", VInt 1000)]) "error" = Ok (VInt (Z.max 0 1000)) /\
  py_getitem (VDict [("affected", VInt 2)]) "affected" = Ok (VInt 2).
Proof.
  assert (Hrule : forall k a b final,
             k = "totalItems" \/ k = "error" \/ k = "affected" ->
             merge_results example_env (map VDict [[(k, VInt a)]; [(k, VInt b)]]) (VDict [])
                           example_api = (Ok final, example_api) ->
             exists merged,
               py_getitem final k = Ok (VInt merged) /\
               (k = "totalItems" -> merged = fold_left Z.add [b] a) /\
               (k = "error" -> merged = fold_left Z.max [b] a) /\
               (k <> "totalItems" -> k <> "error" -> merged = a)).
  { intros k a b final Hk Hrun.
    apply (merge_results_integer_key example_env k [[(k, VInt a)]; [(k, VInt b)]] []
             example_api example_api final a [b]).
    - constructor; [unique_keys_by_computation|].
      constructor; [unique_keys_by_computation|constructor].
    - constructor; [right; exists a; simpl; now rewrite String.eqb_refl|].
      constructor; [right; exists b; simpl; now rewrite String.eqb_refl|constructor].
    - now left.
    - unfold ints_at, earlier_int. simpl. now rewrite String.eqb_refl.
    - exact Hrun. }
  split; [|split].
  - destruct (Hrule "totalItems" 2 3 (VDict [("totalItems", VInt 5)])
                    (or_introl eq_refl) eq_refl) as (merged & Hget & Hsum & _).
    rewrite Hget, (Hsum eq_refl). reflexivity.
  - destruct (Hrule "error" 0 1000 (VDict [("error", VInt 1000)])
                    (or_intror (or_introl eq_refl)) eq_refl) as (merged & Hget & _ & Hmax & _).
    rewrite Hget, (Hmax eq_refl). reflexivity.
  - destruct (Hrule "affected" 2 3 (VDict [("affected", VInt 2)])
                    (or_intror (or_intror eq_refl)) eq_refl) as (merged & Hget & _ & _ & Hfirst).
    rewrite Hget, Hfirst; [reflexivity|discriminate|discriminate].
Defined.

(** The numeric rules of the design document, on whole envelopes: the totals
    2 and 3 merge into 5, the error codes 0 and 1000 into 1000. *)
Example merge_numeric_rules :
  fst (merge_results example_env
         [VDict [("data", VDict [("totalItems", VInt 2)]); ("error", VInt 0)];
          VDict [("data", VDict [("totalItems", VInt 3)]); ("error", VInt 1000)]]
         (VDict []) example_api) =
  Ok (VDict [("data", VDict [("totalItems", VInt 5)]); ("error", VInt 1000)]).
Proof. reflexivity. Qed.

Lemma merge_results_list_key_witness :
  py_getitem (VDict [("affected", VList [VStr "A"; VStr "B"; VStr "C"; VStr "D"])]) "affected"
    = Ok (VList [VStr "A"; VStr "B"; VStr "C"; VStr "D"]) /\
  py_getitem (VDict [("affected", VList [VStr "C"; VStr "D"; VStr "A"; VStr "B"])]) "affected"
    = Ok (VList [VStr "C"; VStr "D"; VStr "A"; VStr "B"]) /\
  Permutation [VStr "A"; VStr "B"; VStr "C"; VStr "D"] [VStr "C"; VStr "D"; VStr "A"; VStr "B"].
Proof.
  assert (Hu1 : unique_keys [("affected", VList [VStr "A"; VStr "B"])])
    by unique_keys_by_computation.
  assert (Hu2 : unique_keys [("affected", VList [VStr "C"; VStr "D"])])
    by unique_keys_by_computation.
  destruct (merge_results_list_key example_env "affected"
              [("affected", VList [VStr "A"; VStr "B"])]
              [("affected", VList [VStr "C"; VStr "D"])]
              [VStr "A"; VStr "B"] [VStr "C"; VStr "D"]
              example_api example_api example_api example_api
              (VDict [("affected", VList [VStr "A"; VStr "B"; VStr "C"; VStr "D"])])
              (VDict [("affected", VList [VStr "C"; VStr "D"; VStr "A"; VStr "B"])])
              Hu1 Hu2 eq_refl eq_refl eq_refl eq_refl) as (_ & _ & Hdisjoint).
  apply Hdisjoint.
  - intros x [<-|[<-|[]]]; reflexivity.
  - intros x [<-|[<-|[]]]; reflexivity.
Defined.

(** The example of the design document: [A,B] and [B,C] merge into [A,B,C]. *)
Example merge_list_example :
  fst (merge_results example_env
         [VDict [("affected", VList [VStr "A"; VStr "B"])];
          VDict [("affected", VList [VStr "B"; VStr "C"])]]
         (VDict []) example_api) =
  Ok (VDict [("affected", VList [VStr "A"; VStr "B"; VStr "C"])]).
Proof. reflexivity. Qed.

(** Two contributors whose lists share no element: the merged list depends
    on the order of the contributors. *)
Lemma merged_list_depends_on_contributor_order :
  none_in [VInt 1] [VInt 2] /\ none_in [VInt 2] [VInt 1] /\
  fst (merge_results example_env [VDict [("k", VList [VInt 1])]; VDict [("k", VList [VInt 2])]]
                     (VDict []) example_api) = Ok (VDict [("k", VList [VInt 1; VInt 2])]) /\
  fst (merge_results example_env [VDict [("k", VList [VInt 2])]; VDict [("k", VList [VInt 1])]]
                     (VDict []) example_api) = Ok (VDict [("k", VList [VInt 2; VInt 1])]) /\
  fst (merge_results example_env [VDict [("k", VList [VInt 1])]; VDict [("k", VList [VInt 2])]]
                     (VDict []) example_api) <>
  fst (merge_results example_env [VDict [("k", VList [VInt 2])]; VDict [("k", VList [VInt 1])]]
                     (VDict []) example_api).
Proof.
  repeat split; try reflexivity; try discriminate.
  - intros x [<-|[]]. reflexivity.
  - intros x [<-|[]]. reflexivity.
Qed.

Lemma merge_results_pagination_witness :
  fst (merge_results example_env [ten_items_payload] (VDict [])
                     (example_api_with "get_agents" page_request false
                                       "distributed_master" false false)) =
  Ok (VDict [("data", VDict [("items", VList [VInt 7; VInt 6; VInt 5]);
                             ("totalItems", VInt 10)]);
             ("error", VInt 0)]) /\
  py_slice (rev ten_items) 2 (2 + 3) = firstn 3 (skipn 2 (rev ten_items)).
Proof.
  assert (Hitems : has_data_items ten_items_payload ten_items).
  { eexists. eexists. repeat split; reflexivity. }
  assert (Hsort : declared_sort example_env page_request ten_items (rev ten_items)).
  { exists (VList [VStr "id"]), (VStr "desc"). repeat split; reflexivity. }
  destruct (merge_results_pagination example_env [ten_items_payload] (VDict [])
              ten_items_payload
              (example_api_with "get_agents" page_request false "distributed_master"
                                false false)
              (example_api_with "get_agents" page_request false "distributed_master"
                                false false)
              ten_items (rev ten_items) 2 3 eq_refl Hitems Hsort eq_refl eq_refl)
    as [Hrun Hpositions].
  split.
  - rewrite Hrun. reflexivity.
  - apply Hpositions; lia.
Defined.

Lemma merge_results_writes_defaults_witness :
  (exists s',
      snd (merge_results example_env [ten_items_payload] (VDict []) example_api) = s' /\
      dict_get (f_kwargs s') "offset" = Some (VInt 0) /\
      dict_get (f_kwargs s') "limit" = Some (VInt 500)) /\
  f_kwargs (snd (merge_results example_env [ten_items_payload] (VDict [])
                   (example_api_with "get_agents" page_request false
                                     "distributed_master" false false))) = page_request.
Proof.
  assert (Hitems : has_data_items ten_items_payload ten_items).
  { eexists. eexists. repeat split; reflexivity. }
  split.
  - destruct (merge_results_writes_defaults example_env [ten_items_payload] (VDict [])
                ten_items_payload example_api
                (set_f_kwargs [("offset", VInt 0); ("limit", VInt 500)] example_api)
                ten_items eq_refl Hitems) as (_ & Hoffset & Hlimit & _).
    eexists. split; [reflexivity|].
    split; [exact (Hoffset eq_refl)|exact (Hlimit eq_refl)].
  - assert (Hpaged : has_data_items
                       (VDict [("data", VDict [("items", VList [VInt 7; VInt 6; VInt 5]);
                                               ("totalItems", VInt 10)]);
                               ("error", VInt 0)])
                       [VInt 7; VInt 6; VInt 5]).
    { eexists. eexists. repeat split; reflexivity. }
    destruct (merge_results_writes_defaults example_env [ten_items_payload] (VDict [])
                _ (example_api_with "get_agents" page_request false
                                    "distributed_master" false false)
                (example_api_with "get_agents" page_request false
                                  "distributed_master" false false)
                _ eq_refl Hpaged) as (_ & _ & _ & _ & _ & Hsame).
    exact (Hsame eq_refl eq_refl).
Defined.

(** ** The queue consumer *)

(** A decodable request is served and answered. *)
Example run_serves_a_request :
  run example_server [decodable_request] empty_queue_state =
  (Waiting,
   mkQ [SendString "master"
          (VDict [("data", VDict [("items", VList []); ("totalItems", VInt 0)]);
                  ("error", VInt 0)]);
        SendRequest "master" "dapi_res" "1"] []).
Proof. vm_compute. reflexivity. Qed.

(** C3.  A request whose envelope cannot be decoded ends [run]: the
    [TypeError] of [as_callable] leaves the loop, nothing is logged or sent,
    and the request queued behind it is never served. *)
Theorem run_stops_at_undecodable_request :
  run example_server [undecodable_request; decodable_request] empty_queue_state =
  (Terminated (PyError "TypeError" "Wazuh object cannot be decoded from JSON"),
   empty_queue_state).
Proof. vm_compute. reflexivity. Qed.

(* ===================================================================== *)
(** * Further properties: marshaling of callables                         *)
(* ===================================================================== *)

Section HookProperties.

Variable resolver : Resolver.

Lemma as_callable_plain dct :
  dict_mem dct "__callable__" = false -> as_callable resolver dct = Ok (VDict dct).
Proof. intros H. unfold as_callable. now rewrite H. Qed.

Lemma object_hook_dict d :
  object_hook resolver (VDict d) =
  res_bind (hook_members resolver d) (as_callable resolver).
Proof. reflexivity. Qed.

Lemma object_hook_list l :
  object_hook resolver (VList l) =
  res_bind (hook_elements resolver l) (fun l' => Ok (VList l')).
Proof. reflexivity. Qed.

Lemma hook_members_cons k x rest :
  hook_members resolver ((k, x) :: rest) =
  res_bind (object_hook resolver x) (fun x' =>
  res_bind (hook_members resolver rest) (fun rest' => Ok ((k, x') :: rest'))).
Proof. reflexivity. Qed.

Lemma hook_elements_cons x rest :
  hook_elements resolver (x :: rest) =
  res_bind (object_hook resolver x) (fun x' =>
  res_bind (hook_elements resolver rest) (fun rest' => Ok (x' :: rest'))).
Proof. reflexivity. Qed.

Lemma object_hook_no_callable_key (v : value) :
  no_callable_key v = true -> object_hook resolver v = Ok v.
Proof.
  induction v as [| | | | |l IHl|d IHd| |] using value_induction; intros Hv; try reflexivity.
  - rewrite object_hook_list.
    assert (Hl : hook_elements resolver l = Ok l).
    { simpl in Hv. induction IHl as [|x xs Hx _ IH]; [reflexivity|].
      apply andb_true_iff in Hv as [H1 H2].
      rewrite hook_elements_cons, (Hx H1). simpl. rewrite (IH H2). reflexivity. }
    rewrite Hl. reflexivity.
  - rewrite object_hook_dict. simpl in Hv. apply andb_true_iff in Hv as [Hk Hv].
    assert (Hd : hook_members resolver d = Ok d).
    { clear Hk. induction IHd as [|[k x] xs Hx _ IH]; [reflexivity|].
      apply andb_true_iff in Hv as [H1 H2]. simpl in Hx.
      rewrite hook_members_cons, (Hx H1). simpl. rewrite (IH H2). reflexivity. }
    rewrite Hd. simpl. apply as_callable_plain. now apply negb_true_iff.
Qed.

(** X1.  [json.loads(text, object_hook=as_callable)] gives back the parsed
    text unchanged exactly when no dictionary inside it has the key
    ['__callable__']: plain JSON passes through, and a dictionary with that
    key, at any depth, is never left as it is. *)
Theorem object_hook_identity_iff (v : value) :
  object_hook resolver v = Ok v <-> no_callable_key v = true.
Proof.
  split; [|apply object_hook_no_callable_key].
  induction v as [| | | | |l IHl|d IHd| |] using value_induction; intros Hv; try reflexivity.
  - rewrite object_hook_list in Hv.
    apply res_bind_ok in Hv as (l' & Hl & [= ->]).
    simpl. induction IHl as [|x xs Hx _ IH]; [reflexivity|].
    rewrite hook_elements_cons in Hl.
    apply res_bind_ok in Hl as (x' & Hx' & Hl).
    apply res_bind_ok in Hl as (rest' & Hr & [= -> ->]).
    rewrite (Hx Hx'). simpl. now apply IH.
  - rewrite object_hook_dict in Hv.
    apply res_bind_ok in Hv as (d' & Hd & Ha).
    destruct (dict_mem d' "__callable__") eqn:Hm.
    + destruct (as_callable_never_silent resolver d' _ Hm Ha) as [c Hc]. discriminate.
    + rewrite (as_callable_plain _ Hm) in Ha. injection Ha as ->.
      simpl. rewrite Hm. simpl.
      clear Hm. induction IHd as [|[k x] xs Hx _ IH]; [reflexivity|].
      rewrite hook_members_cons in Hd.
      apply res_bind_ok in Hd as (x' & Hx' & Hd).
      apply res_bind_ok in Hd as (rest' & Hr & [= -> ->]).
      simpl in Hx. rewrite (Hx Hx'). simpl. now apply IH.
Qed.

End HookProperties.

Section EncoderProperties.

Variable resolver : Resolver.

Lemma no_callable_key_cons k x rest :
  no_callable_key (VDict ((k, x) :: rest)) =
  negb (String.eqb "__callable__" k) && no_callable_key x && no_callable_key (VDict rest).
Proof.
  cbn [no_callable_key]. unfold dict_mem. cbn [dict_get].
  destruct (String.eqb "__callable__" k); [reflexivity|].
  destruct (dict_get rest "__callable__"); cbn [negb andb];
    [now rewrite andb_false_r|reflexivity].
Qed.

(** The attributes are hooked first and stay as they are; then the hook
    meets the dictionary that holds them. *)
Lemma object_hook_encoded attrs :
  no_callable_key (VDict attrs) = true ->
  object_hook resolver (VDict [("__callable__", VDict attrs)]) =
  as_callable resolver [("__callable__", VDict attrs)].
Proof.
  intros H. rewrite object_hook_dict, hook_members_cons.
  rewrite (object_hook_no_callable_key resolver _ H). reflexivity.
Qed.

(** X3.  Encoding a function and decoding the encoding on a receiver that
    can import the function's module looks the function up by name: in the
    module when the qualified name has no dot, else in the attribute of the
    module named by the FIRST component of the qualified name (later
    components are not used); a failed lookup is the decode error. *)
Theorem encode_decode_function (obj : pyobject) (n m q : string) :
  is_callable obj = true ->
  obj_name obj = Some (VStr n) ->
  obj_module obj = Some (VStr m) ->
  obj_qualname obj = Some (VStr q) ->
  not_wazuh_bound obj ->
  import_module resolver m = Ok tt ->
  exists enc,
    CallableEncoder.default obj = Ok enc /\
    object_hook resolver enc = resolve_function resolver m q n.
Proof.
  intros Hc Hn Hm Hq Hs Hi. unfold CallableEncoder.default.
  rewrite Hc, Hn, Hm, Hq. unfold not_wazuh_bound in Hs.
  set (attrs := [("__name__", VStr n); ("__module__", VStr m); ("__qualname__", VStr q);
                 ("__type__", VStr (obj_type obj))]).
  exists (VDict [("__callable__", VDict attrs)]). split.
  - destruct (obj_self obj); [reflexivity|reflexivity|contradiction].
  - subst attrs. cbn -[split]. unfold resolve_function, decode_error.
    rewrite Hi. cbn -[split].
    destruct (split "." q) as [|c [|c' rest]]; cbn.
    + destruct (module_attr resolver m n); reflexivity.
    + destruct (module_attr resolver m n); reflexivity.
    + destruct (module_attr resolver m c); cbn; [|reflexivity].
      destruct (class_attr resolver m c n); reflexivity.
Qed.

(** X4.  A method bound to a [Wazuh] instance is decoded through the
    instance alone: the receiver builds [Wazuh(ossec_path=...)] from the
    ['path'] of the instance's [to_dict()] (['/var/ossec'] when it has none)
    and takes the attribute of that name; module and qualified name play no
    part. *)
Theorem encode_decode_wazuh_method (obj : pyobject) (n w : string) (wd : dict) :
  is_callable obj = true ->
  obj_name obj = Some (VStr n) ->
  str_or_absent (obj_module obj) ->
  str_or_absent (obj_qualname obj) ->
  obj_self obj = WazuhSelf (Ok (VDict wd)) ->
  no_callable_key (VDict wd) = true ->
  wazuh_new resolver (wazuh_path wd) = Ok w ->
  exists enc,
    CallableEncoder.default obj = Ok enc /\
    object_hook resolver enc =
    if wazuh_attr resolver w n then Ok (VCallable (WazuhMethod w n)) else decode_error.
Proof.
  intros Hc Hn Hm Hq Hs Hwd Hw. unfold CallableEncoder.default.
  rewrite Hc, Hn, Hs. unfold wazuh_path in Hw.
  destruct Hm as [-> | [sm ->]], Hq as [-> | [sq ->]]; cbn -[object_hook];
    eexists; (split; [reflexivity|]).
  all: rewrite object_hook_encoded
    by (rewrite !no_callable_key_cons, Hwd; reflexivity).
  all: unfold as_callable, decode_callable; cbn; rewrite Hw; cbn.
  all: destruct (wazuh_attr resolver w n); reflexivity.
Qed.

(** X5.  The encoder accepts every callable, the decoder only those with a
    name: a callable object without [__name__] is encoded without an error,
    and decoding that encoding raises the decode error on every receiver. *)
Theorem encode_without_name (obj : pyobject) :
  is_callable obj = true ->
  obj_name obj = None ->
  str_or_absent (obj_module obj) ->
  str_or_absent (obj_qualname obj) ->
  plain_self obj ->
  exists enc,
    CallableEncoder.default obj = Ok enc /\
    object_hook resolver enc = decode_error.
Proof.
  intros Hc Hn Hm Hq Hs. unfold CallableEncoder.default, plain_self in *.
  rewrite Hc, Hn.
  destruct (obj_self obj) as [| |r]; [| |destruct Hs as (wd & -> & Hwd)].
  all: destruct Hm as [-> | [sm ->]], Hq as [-> | [sq ->]]; cbn -[object_hook];
    eexists; (split; [reflexivity|]).
  all: rewrite object_hook_encoded
    by (rewrite !no_callable_key_cons, ?Hwd; reflexivity).
  all: reflexivity.
Qed.

End EncoderProperties.

(** The marshaling properties on the three example objects. *)

Lemma encode_decode_function_witness :
  exists enc,
    CallableEncoder.default example_function = Ok enc /\
    object_hook example_resolver enc =
    Ok (VCallable (ModuleAttr "wazuh.cluster.cluster" "get_node")).
Proof.
  apply (encode_decode_function example_resolver example_function
           "get_node" "wazuh.cluster.cluster" "get_node");
    try reflexivity; exact I.
Defined.

Lemma encode_decode_wazuh_method_witness :
  exists enc,
    CallableEncoder.default example_wazuh_method = Ok enc /\
    object_hook example_resolver enc = Ok (VCallable (WazuhMethod "/opt/ossec" "to_dict")).
Proof.
  apply (encode_decode_wazuh_method example_resolver example_wazuh_method
           "to_dict" "/opt/ossec"
           [("path", VStr "/opt/ossec"); ("version", VStr "v3.9.0")]);
    try reflexivity; right; eexists; reflexivity.
Defined.

Lemma encode_without_name_witness :
  exists enc,
    CallableEncoder.default example_partial = Ok enc /\
    object_hook example_resolver enc = decode_error.
Proof.
  apply (encode_without_name example_resolver example_partial);
    first [reflexivity | exact I | left; reflexivity | right; eexists; reflexivity].
Defined.

(* ===================================================================== *)
(** * Further properties: the queue consumer                              *)
(* ===================================================================== *)

(** Case analysis on a scrutinee of the hypothesis [H] that is not itself a
    [match]. *)
Ltac break_hyp H :=
  match type of H with
  | context [match ?x with _ => _ end] =>
      lazymatch x with
      | context [match _ with _ => _ end] => fail
      | _ => destruct x eqn:?
      end
  end.

Lemma split_once_app sep a b :
  split_once sep a = None -> split_once sep (a ++ String sep b) = Some (a, b).
Proof.
  induction a as [|c a IH]; simpl; intros H.
  - now rewrite Ascii.eqb_refl.
  - destruct (Ascii.eqb c sep); [discriminate|].
    destruct (split_once sep a) as [[x y]|]; [discriminate|].
    now rewrite IH.
Qed.

Section ConsumerProperties.

Variable server : Server.


(** X10.  A request addressed to a peer that is not among the connected
    clients ends the consumer: the lookup [self.server.clients[...]] raises
    [KeyError] before the request is parsed, nothing is sent or logged, and
    the requests queued behind it are not served. *)
Theorem run_unknown_peer (names request : string) (rest : list string) (q : qstate) :
  let name0 := match split_once "*" names with
               | Some (n0, _) => n0
               | None => names
               end in
  split_once " " names = None ->
  name0 <> "None" ->
  dict_get (clients server) name0 = None ->
  run server ((names ++ " " ++ request) :: rest) q =
  (Terminated (PyError "KeyError" name0), q).
Proof.
  intros name0 Hsp Hn Hc. simpl. unfold serve.
  rewrite (split_once_app " " names request Hsp).
  subst name0. destruct (split_once "*" names) as [[n0 n1]|].
  all: apply String.eqb_neq in Hn; rewrite Hn, Hc; reflexivity.
Qed.

End ConsumerProperties.


Lemma run_unknown_peer_witness :
  run example_server ["worker9*7 {}"; decodable_request] empty_queue_state =
  (Terminated (PyError "KeyError" "worker9"), empty_queue_state).
Proof.
  apply (run_unknown_peer example_server "worker9*7" "{}" [decodable_request]
           empty_queue_state).
  - reflexivity.
  - discriminate.
  - reflexivity.
Defined.

(* ===================================================================== *)
(** * Further properties: choosing the nodes and forwarding               *)
(* ===================================================================== *)

Lemma dict_get_del_other {A} (d : list (string * A)) k k' :
  k' <> k -> dict_get (dict_del d k) k' = dict_get d k'.
Proof.
  intros Hk. induction d as [|[k1 v1] rest IH]; [reflexivity|]. simpl.
  destruct (String.eqb k k1) eqn:E.
  - apply String.eqb_eq in E. subst k1.
    destruct (String.eqb k' k) eqn:E'; [apply String.eqb_eq in E'; contradiction|reflexivity].
  - simpl. now rewrite IH.
Qed.

Lemma dict_get_del_same {A} (d : list (string * A)) k :
  NoDup (map fst d) -> dict_get (dict_del d k) k = None.
Proof.
  induction d as [|[k1 v1] rest IH]; intros Hd; [reflexivity|]. simpl.
  inversion Hd as [|x xs Hnotin Hrest]; subst.
  destruct (String.eqb k k1) eqn:E.
  - apply String.eqb_eq in E. subst k1. now apply dict_get_not_in_keys.
  - simpl. rewrite E. now apply IH.
Qed.

Section SolverBranches.
Variable env : Env.

(** X11.  A request that names a node ([node_id], and no [agent_id]) is
    answered by that node alone, with no agent ids; [node_id] is removed from
    the arguments of the call and every other argument stays as it was. *)
Theorem get_solver_node_node_id (s : DistributedAPI) (node_id : value) :
  dict_get (f_kwargs s) "agent_id" = None ->
  dict_get (f_kwargs s) "node_id" = Some node_id ->
  hashable node_id = true ->
  unique_keys (f_kwargs s) ->
  exists s',
    get_solver_node env s = (Ok [(node_id, [])], s') /\
    s' = set_f_kwargs (f_kwargs s') s /\
    dict_get (f_kwargs s') "node_id" = None /\
    forall k, k <> "node_id" -> dict_get (f_kwargs s') k = dict_get (f_kwargs s) k.
Proof.
  intros Ha Hn Hh Hu.
  exists (set_f_kwargs (dict_del (f_kwargs s) "node_id") s).
  split; [|split; [reflexivity|split]].
  - unfold get_solver_node, bind, gets, modify, ret. rewrite Ha, Hn, Hh. reflexivity.
  - simpl. now apply dict_get_del_same.
  - intros k Hk. simpl. now apply dict_get_del_other.
Qed.

Lemma forward_remote reenter node ids s :
  is_self s node = false ->
  forward env reenter (node, ids) s =
  match json_dumps env (VDict (to_dict (inject_agent_id ids s))) with
  | Ok data =>
      (res_bind (node_execute env "dapi_forward" (Some node) data (wait_for_complete s))
                (json_loads env),
       log_event (PeerSend "dapi_forward" (Some node) (to_dict (inject_agent_id ids s)))
                 (inject_agent_id ids s))
  | Raise e => (Raise e, inject_agent_id ids s)
  | Hang => (Hang, inject_agent_id ids s)
  end.
Proof.
  intros Hself. unfold is_self in Hself.
  assert (Hsend : forall s2 : DistributedAPI,
             node_name s2 = node_name s -> wait_for_complete s2 = wait_for_complete s ->
             (own <- gets node_name ;;
              if py_eqb node (VStr "unknown") || py_eqb node (VStr "") ||
                 py_eqb node (VStr own)
              then reenter
              else
                s0 <- gets (fun s0 => s0) ;;
                data <- lift (json_dumps env (VDict (to_dict s0))) ;;
                modify (log_event (PeerSend "dapi_forward" (Some node) (to_dict s0))) ;;;
                answer <- lift (node_execute env "dapi_forward" (Some node) data
                                             (wait_for_complete s0)) ;;
                lift (json_loads env answer)) s2 =
             match json_dumps env (VDict (to_dict s2)) with
             | Ok data =>
                 (res_bind (node_execute env "dapi_forward" (Some node) data
                                         (wait_for_complete s))
                           (json_loads env),
                  log_event (PeerSend "dapi_forward" (Some node) (to_dict s2)) s2)
             | Raise e => (Raise e, s2)
             | Hang => (Hang, s2)
             end).
  { intros s2 Hn Hw. unfold bind, gets, modify, lift. rewrite Hn, Hself, Hw.
    destruct (json_dumps env (VDict (to_dict s2))) as [data|e|]; try reflexivity.
    destruct (node_execute env _ _ _ _); reflexivity. }
  unfold forward, inject_agent_id.
  destruct ids as [|i ids].
  - unfold bind at 1, gets at 1. unfold bind at 1, ret at 1. now apply Hsend.
  - unfold bind at 1, gets at 1.
    destruct (dict_get (f_kwargs s) "agent_id") as [old|].
    + destruct (is_list old).
      * unfold bind at 1, modify at 1. now apply Hsend.
      * unfold bind at 1, ret at 1. now apply Hsend.
    + unfold bind at 1, modify at 1. now apply Hsend.
Qed.

(** X12.  A request for one agent (an [agent_id] that is not a list) whose
    agent reports to another node is serialized with the arguments unchanged
    and [from_cluster] set, and sent to that node once; the answer of the
    node is parsed and returned as it is: nothing is merged, no pagination
    default is written, and the target function is not called here.  When
    the request cannot be serialized, [json.dumps] raises before anything is
    sent. *)
Theorem forward_request_single_agent (reenter : M value) (s : DistributedAPI)
        (one node : value) :
  dict_get (f_kwargs s) "agent_id" = Some one ->
  is_list one = false ->
  get_agent env one = Ok node ->
  hashable node = true ->
  is_self s node = false ->
  let s1 := set_from_cluster true s in
  forward_request env reenter s =
  match json_dumps env (VDict (to_dict s1)) with
  | Ok data =>
      (res_bind (node_execute env "dapi_forward" (Some node) data (wait_for_complete s))
                (json_loads env),
       log_event (PeerSend "dapi_forward" (Some node) (to_dict s1)) s1)
  | Raise e => (Raise e, s1)
  | Hang => (Hang, s1)
  end.
Proof.
  intros Ha Hl Hg Hh Hself s1.
  assert (Hsolver : get_solver_node env s = (Ok [(node, [one])], s)).
  { unfold get_solver_node, bind, gets, lift, ret. rewrite Ha.
    destruct one; try discriminate; rewrite Hg; simpl; rewrite Hh; reflexivity. }
  unfold forward_request, bind at 1. rewrite Hsolver.
  unfold bind at 1, modify. fold s1.
  rewrite (forward_remote reenter node [one] s1) by exact Hself.
  assert (Hinj : inject_agent_id [one] s1 = s1).
  { unfold inject_agent_id. simpl. now rewrite Ha, Hl. }
  rewrite Hinj. reflexivity.
Qed.

End SolverBranches.

Lemma solver_set_keeps_keys m k ids k' :
  In k' (map fst m) -> In k' (map fst (solver_set m k ids)).
Proof.
  induction m as [|[k1 v1] rest IH]; simpl; [tauto|].
  destruct (py_eqb k1 k); simpl; tauto.
Qed.

Lemma solver_set_has_key m k ids :
  hashable k = true ->
  exists k', In k' (map fst (solver_set m k ids)) /\ py_eqb k' k = true.
Proof.
  intros Hk. induction m as [|[k1 v1] rest IH]; simpl.
  - exists k. split; [now left|now apply py_eqb_refl].
  - destruct (py_eqb k1 k) eqn:E; simpl.
    + exists k1. auto.
    + destruct IH as (k' & Hin & He). exists k'. auto.
Qed.

Lemma solver_set_no_ids m k : no_ids m -> no_ids (solver_set m k []).
Proof.
  unfold no_ids. induction m as [|[k1 v1] rest IH]; simpl; intros H.
  - constructor; [reflexivity|constructor].
  - inversion H as [|x xs Hx Hrest]; subst.
    destruct (py_eqb k1 k); constructor; auto.
Qed.

Lemma groupby_keys agents k g :
  In (k, g) (groupby agents) -> exists a, In a agents /\ k = agent_node a.
Proof.
  revert k g. induction agents as [|a rest IH]; simpl; intros k g H; [contradiction|].
  destruct (groupby rest) as [|[k1 g1] groups] eqn:E.
  - destruct H as [[= <- <-]|[]]. eauto.
  - destruct (py_eqb (agent_node a) k1).
    + destruct H as [[= <- <-]|H]; [eauto|].
      destruct (IH k g) as (b & Hb & ->); [now right|]. eauto.
    + destruct H as [[= <- <-]|H]; [eauto|].
      destruct (IH k g) as (b & Hb & ->); [exact H|]. eauto.
Qed.

Lemma dict_of_groups_no_ids groups :
  Forall (fun kg => hashable (fst kg) = true) groups ->
  forall acc,
    no_ids acc ->
    exists out,
      dict_of_groups (fun _ => []) groups acc = Ok out /\
      no_ids out /\
      (forall k, In k (map fst acc) -> In k (map fst out)) /\
      (forall k g, In (k, g) groups ->
                   exists k', In k' (map fst out) /\ py_eqb k' k = true) /\
      (forall k', In k' (map fst out) -> In k' (map fst acc) \/ In k' (map fst groups)).
Proof.
  induction 1 as [|[k g] rest Hk Hrest IH]; intros acc Hacc.
  - exists acc. simpl. repeat split; auto. intros k g [].
  - simpl in Hk. simpl. rewrite Hk.
    destruct (IH (solver_set acc k []) (solver_set_no_ids acc k Hacc))
      as (out & Hout & Hno & Hkeep & Hhas & Hfrom).
    exists out. repeat split; auto.
    + intros k0 H0. apply Hkeep. now apply solver_set_keeps_keys.
    + intros k0 g0 [[= <- <-]|H0]; [|now apply (Hhas k0 g0)].
      destruct (solver_set_has_key acc k [] Hk) as (k' & Hin & He).
      exists k'. auto.
    + intros k' H'. apply Hfrom in H' as [H'|H']; [|tauto].
      apply solver_set_keys_from in H' as [H'| ->]; [tauto|]. right. now left.
Qed.

Section AllAgents.
Variable env : Env.

(** X13.  A request that names neither agents nor a node goes to every node
    an agent of the directory reports to, and to no other; no entry of the
    solver map carries agent ids, and the arguments of the call are not
    touched. *)
Theorem get_solver_node_all_agents (s : DistributedAPI) (agents : list agent_item) :
  dict_get (f_kwargs s) "agent_id" = None ->
  dict_get (f_kwargs s) "node_id" = None ->
  get_agents_overview env None "node_name" = Ok agents ->
  Forall hashable_agent agents ->
  exists nodes,
    get_solver_node env s = (Ok nodes, s) /\
    no_ids nodes /\
    (forall a, In a agents ->
               exists k, In k (map fst nodes) /\ py_eqb k (agent_node a) = true) /\
    (forall k, In k (map fst nodes) -> exists a, In a agents /\ k = agent_node a).
Proof.
  intros Ha Hn Hg Hh.
  destruct (groupby_spec agents Hh) as [Hkeys Hcover].
  destruct (dict_of_groups_no_ids (groupby agents) Hkeys [] (Forall_nil _))
    as (out & Hout & Hno & _ & Hhas & Hfrom).
  exists out. split; [|split; [exact Hno|split]].
  - unfold get_solver_node, bind, gets, lift. rewrite Ha, Hn, Hg, Hout. reflexivity.
  - intros a Hin. destruct (Hcover a Hin) as (k & g & Hkg & _ & He).
    destruct (Hhas k g Hkg) as (k' & Hk' & He'). exists k'. split; [exact Hk'|].
    rewrite Forall_forall in Hkeys, Hh.
    assert (Hhk : hashable k = true) by exact (Hkeys (k, g) Hkg).
    destruct (Hfrom k' Hk') as [[]|Hk2].
    apply in_map_iff in Hk2 as ([k2 g2] & <- & Hin2).
    exact (py_eqb_trans _ k _ (Hkeys (k2, g2) Hin2) Hhk (proj2 (Hh a Hin)) He' He).
  - intros k Hk. destruct (Hfrom k Hk) as [[]|Hk2].
    apply in_map_iff in Hk2 as ([k2 g2] & <- & Hin2). simpl.
    now apply (groupby_keys agents k2 g2).
Qed.
End AllAgents.

Lemma sends_flagged_refl s : sends_flagged s s.
Proof. exists []. split; [now rewrite app_nil_r|constructor]. Qed.

Lemma sends_flagged_trans s1 s2 s3 :
  sends_flagged s1 s2 -> sends_flagged s2 s3 -> sends_flagged s1 s3.
Proof.
  intros (n1 & H1 & F1) (n2 & H2 & F2). exists (n1 ++ n2)%list. split.
  - now rewrite H2, H1, app_assoc.
  - apply Forall_app. auto.
Qed.

Lemma sends_flagged_same s s' : trace s' = trace s -> sends_flagged s s'.
Proof. intros H. exists []. split; [now rewrite app_nil_r|constructor]. Qed.

Lemma flagged_refl s : flagged_when_forwarding s s.
Proof. intros H. split; [exact H|apply sends_flagged_refl]. Qed.

Lemma flagged_trans s1 s2 s3 :
  flagged_when_forwarding s1 s2 -> flagged_when_forwarding s2 s3 ->
  flagged_when_forwarding s1 s3.
Proof.
  intros H1 H2 Hf. destruct (H1 Hf) as [Hf2 F1]. destruct (H2 Hf2) as [Hf3 F2].
  split; [exact Hf3|]. eapply sends_flagged_trans; eauto.
Qed.

Section FlagSteps.
Variable env : Env.

Lemma kw_step_trace s s' : kw_step env s s' -> trace s' = trace s /\ from_cluster s' = from_cluster s.
Proof. intros [-> | ->]; auto. Qed.

Lemma get_solver_node_trace s r s' :
  get_solver_node env s = (r, s') ->
  trace s' = trace s /\ from_cluster s' = from_cluster s.
Proof.
  unfold get_solver_node, bind, gets, modify, lift, ret. intros H.
  repeat (break_hyp H; try discriminate).
  all: injection H as <- <-; auto.
Qed.
End FlagSteps.

Section ForwardedFlag.
Variable env : Env.

Lemma inject_agent_id_same ids s :
  trace (inject_agent_id ids s) = trace s /\
  from_cluster (inject_agent_id ids s) = from_cluster s.
Proof.
  unfold inject_agent_id. destruct ids; [auto|].
  destruct (dict_get (f_kwargs s) "agent_id") as [old|]; [destruct (is_list old)|]; auto.
Qed.

Lemma forward_flagged reenter entry :
  transition keeps_config reenter -> transition sends_flagged reenter ->
  transition flagged_when_forwarding (forward env reenter entry).
Proof.
  intros Hk Hr s r s' H Hf. destruct entry as [node ids].
  destruct (inject_agent_id_same ids s) as [Ht Hfc].
  destruct (is_self s node) eqn:Hself.
  - rewrite forward_self in H by exact Hself.
    split.
    + apply Hk in H. apply H. congruence.
    + apply Hr in H. destruct H as (new & Hn & HF). exists new. split; congruence.
  - rewrite forward_remote in H by exact Hself.
    destruct (json_dumps env _) as [data|e|].
    2,3: injection H as _ <-; split; [congruence|now apply sends_flagged_same].
    injection H as _ <-. split; [simpl; congruence|].
    exists [PeerSend "dapi_forward" (Some node) (to_dict (inject_agent_id ids s))].
    split; [simpl; congruence|].
    constructor; [|constructor]. intros _. simpl. congruence.
Qed.

Lemma gather_flagged reenter nodes :
  transition keeps_config reenter -> transition sends_flagged reenter ->
  transition flagged_when_forwarding (gather env reenter nodes).
Proof.
  intros Hk Hr. induction nodes as [|entry rest IH]; simpl.
  - apply transition_ret. exact flagged_refl.
  - apply transition_bind; [exact flagged_trans|now apply forward_flagged|intros r].
    apply transition_bind; [exact flagged_trans|exact IH|intros rs].
    apply transition_ret. exact flagged_refl.
Qed.

Lemma merge_results_flagged responses final :
  transition flagged_when_forwarding (merge_results env responses final).
Proof.
  intros s r s' H Hf.
  assert (Hstep : kw_step env s s').
  { revert H. unfold merge_results.
    apply (transition_bind (kw_step env)); [exact (kw_step_trans env)| |intros merged].
    - apply merge_responses_transition.
    - apply paginate_transition. }
  destruct (kw_step_trace env s s' Hstep) as [Ht Hfc].
  split; [congruence|now apply sends_flagged_same].
Qed.

Lemma forward_request_flagged reenter :
  transition keeps_config reenter -> transition sends_flagged reenter ->
  transition sends_flagged (forward_request env reenter).
Proof.
  intros Hk Hr s r s' H. unfold forward_request in H. unfold bind at 1 in H.
  destruct (get_solver_node env s) as [[nodes|e|] s1] eqn:Hs;
    apply get_solver_node_trace in Hs as [Ht Hfc].
  2,3: injection H as _ <-; now apply sends_flagged_same.
  unfold bind at 1, modify in H.
  assert (Hgo : flagged_when_forwarding (set_from_cluster true s1) s').
  { destruct nodes as [|e1 [|e2 rest]].
    - injection H as _ <-. apply flagged_refl.
    - revert H. now apply forward_flagged.
    - revert H. apply transition_bind; [exact flagged_trans| |intros results].
      + now apply gather_flagged.
      + apply merge_results_flagged. }
  destruct (Hgo eq_refl) as [_ (new & Hn & HF)].
  exists new. split; [|exact HF]. rewrite Hn. simpl. now rewrite Ht.
Qed.

Lemma to_envelope_same e s r s' : to_envelope e s = (r, s') -> s' = s.
Proof.
  unfold to_envelope, bind, gets, ret, raise.
  destruct (debug s); [now intros [= _ <-]|]. destruct e; now intros [= _ <-].
Qed.

Lemma to_envelope_flagged e : transition sends_flagged (to_envelope e).
Proof. intros s r s' H. apply to_envelope_same in H as ->. apply sends_flagged_refl. Qed.

Lemma log_event_flagged e s : forwarded_flag e -> sends_flagged s (log_event e s).
Proof. intros He. exists [e]. split; [reflexivity|]. constructor; [exact He|constructor]. Qed.

(** One step of a proof that a method only adds flagged calls to the
    trace. *)
Ltac flagged_step :=
  first
    [ apply transition_ret; exact sends_flagged_refl
    | apply transition_lift; exact sends_flagged_refl
    | apply transition_gets; exact sends_flagged_refl
    | apply transition_raise; exact sends_flagged_refl
    | apply to_envelope_flagged
    | apply transition_modify; intros; apply log_event_flagged; simpl;
      first [exact I | discriminate]
    | apply transition_bind; [exact sends_flagged_trans| |intros ?]
    | apply transition_try; [exact sends_flagged_trans| |intros ?]
    | match goal with
      | |- transition _ (match ?x with _ => _ end) => destruct x
      end ].

Lemma execute_local_request_flagged : transition sends_flagged (execute_local_request env).
Proof. unfold execute_local_request, run_local. repeat flagged_step. Qed.

Lemma execute_remote_request_flagged : transition sends_flagged (execute_remote_request env).
Proof. unfold execute_remote_request. repeat flagged_step. Qed.

(** X14.  Whatever [distribute_function] does, the calls it made so far stay
    on record and every call it sends to a peer with [dapi_forward] carries
    [from_cluster = True]: the receiver executes it locally and cannot forward
    it again. *)
Theorem forwarded_calls_are_flagged (depth : nat) (s s' : DistributedAPI) (r : res value) :
  distribute_function env depth s = (r, s') ->
  exists new,
    trace s' = (trace s ++ new)%list /\ Forall forwarded_flag new.
Proof.
  revert s r s'.
  change (transition sends_flagged (distribute_function env depth)).
  induction depth as [|d IH]; simpl; [flagged_step|].
  flagged_step; [|flagged_step].
  unfold distribute_body.
  flagged_step; [flagged_step|].
  flagged_step; [repeat flagged_step|].
  flagged_step; [flagged_step|].
  destruct (route _ _ _ _ _).
  - apply execute_local_request_flagged.
  - apply forward_request_flagged; [apply distribute_function_keeps|exact IH].
  - apply execute_remote_request_flagged.
Qed.
End ForwardedFlag.

Section RoutingEdges.
Variable env : Env.

(** X15.  On a master whose agent directory is empty, a distributed request
    for all agents has no node to go to: [next(iter(nodes.items()))] fails
    inside the coroutine, and with [debug] off the caller gets the envelope
    of error 1000; [from_cluster] is left set on the object. *)
Theorem distribute_function_no_agents (depth : nat) (s : DistributedAPI) :
  dapi_enabled env = Ok true ->
  check_cluster_status env = Ok false ->
  request_type s = "distributed_master" ->
  node_type s = "master" ->
  from_cluster s = false ->
  debug s = false ->
  dict_get (f_kwargs s) "agent_id" = None ->
  dict_get (f_kwargs s) "node_id" = None ->
  get_agents_overview env None "node_name" = Ok [] ->
  distribute_function env (S depth) s =
  (Ok (error_envelope 1000 "coroutine raised StopIteration"), set_from_cluster true s).
Proof.
  intros He Hc Hrt Hnt Hfc Hd Ha Hn Hg.
  assert (Hsolver : get_solver_node env s = (Ok [], s)).
  { unfold get_solver_node, bind, gets, lift. now rewrite Ha, Hn, Hg. }
  simpl. unfold try_except, distribute_body, bind, lift, gets. rewrite He. simpl.
  rewrite Hc, Hrt, Hnt, Hfc. simpl.
  unfold forward_request, bind at 1. rewrite Hsolver.
  unfold bind, modify, raise.
  rewrite to_envelope_quiet by exact Hd. reflexivity.
Qed.

(** X16.  On a worker, a request that is not [local_any] and was not
    forwarded by the master is serialized and shipped to the master once,
    with the command [dapi]; the target function is not called on the worker
    and the bytes the master answers are returned undecoded.  When the
    request cannot be serialized, nothing is sent and the failure is handled
    as every failure of [distribute_function] is; so is a failure of the
    send. *)
Theorem distribute_function_on_worker (depth : nat) (s : DistributedAPI) :
  dapi_enabled env = Ok true ->
  check_cluster_status env = Ok false ->
  node_type s <> "master" ->
  request_type s <> "local_any" ->
  (request_type s = "distributed_master" -> from_cluster s = false) ->
  let sent := log_event (PeerSend "dapi" None (to_dict s)) s in
  distribute_function env (S depth) s =
  match json_dumps env (VDict (to_dict s)) with
  | Ok data =>
      match node_execute env "dapi" None data (wait_for_complete s) with
      | Ok answer => (Ok (VBytes answer), sent)
      | Raise e => to_envelope e sent
      | Hang => (Hang, sent)
      end
  | Raise e => to_envelope e s
  | Hang => (Hang, s)
  end.
Proof.
  intros He Hc Hnt Hrt Hfc sent.
  assert (Hroute : route true false (request_type s) (node_type s) (from_cluster s)
                   = ExecuteRemote).
  { apply route_remote_iff. split.
    - unfold runs_locally. intros [H|[H|[H|[[_ H]|[H1 H2]]]]]; try discriminate; auto.
      rewrite (Hfc H1) in H2. discriminate.
    - intros [_ H]. auto. }
  simpl. unfold try_except, distribute_body, bind, lift, gets. rewrite He. simpl.
  rewrite Hc, Hroute.
  unfold execute_remote_request, bind, gets, modify, lift, ret. simpl.
  destruct (json_dumps env (VDict (to_dict s))) as [data|e|]; try reflexivity.
  destruct (node_execute env "dapi" None data (wait_for_complete s)); reflexivity.
Qed.
End RoutingEdges.


(** The properties of this part on the small cluster. *)

Lemma get_solver_node_node_id_witness :
  exists s',
    get_solver_node example_env
      (example_api_with "get_node_status"
         [("node_id", VStr "nodeB"); ("select", VStr "status")]
         false "distributed_master" false false) =
    (Ok [(VStr "nodeB", [])], s') /\
    f_kwargs s' = [("select", VStr "status")].
Proof.
  destruct (get_solver_node_node_id example_env
              (example_api_with "get_node_status"
                 [("node_id", VStr "nodeB"); ("select", VStr "status")]
                 false "distributed_master" false false)
              (VStr "nodeB"))
    as (s' & Hrun & Hs' & _); try reflexivity.
  - unique_keys_by_computation.
  - exists s'. split; [exact Hrun|].
    vm_compute in Hrun. now injection Hrun as <-.
Defined.

Lemma forward_request_single_agent_witness :
  forward_request example_env (distribute_function example_env 2)
    (example_api_with "get_agent" [("agent_id", VInt 1)]
       false "distributed_master" false false) =
  (Ok (VDict [("data", VDict []); ("error", VInt 0)]),
   log_event
     (PeerSend "dapi_forward" (Some (VStr "nodeA"))
        (to_dict (example_api_with "get_agent" [("agent_id", VInt 1)]
                    false "distributed_master" false true)))
     (example_api_with "get_agent" [("agent_id", VInt 1)]
        false "distributed_master" false true)) /\
  forward_request example_env (distribute_function example_env 2)
    (example_api_with "get_agent" [("agent_id", VInt 1); ("key", VBytes "ab")]
       false "distributed_master" false false) =
  (Raise (PyError "TypeError" "Object of type bytes is not JSON serializable"),
   example_api_with "get_agent" [("agent_id", VInt 1); ("key", VBytes "ab")]
     false "distributed_master" false true).
Proof.
  split.
  - apply (forward_request_single_agent example_env (distribute_function example_env 2)
             (example_api_with "get_agent" [("agent_id", VInt 1)]
                false "distributed_master" false false)
             (VInt 1) (VStr "nodeA"));
      reflexivity.
  - apply (forward_request_single_agent example_env (distribute_function example_env 2)
             (example_api_with "get_agent" [("agent_id", VInt 1); ("key", VBytes "ab")]
                false "distributed_master" false false)
             (VInt 1) (VStr "nodeA"));
      reflexivity.
Defined.

Lemma get_solver_node_all_agents_witness :
  exists nodes,
    get_solver_node example_env example_api = (Ok nodes, example_api) /\
    no_ids nodes /\
    (forall a, In a [mkAgent (VInt 2) (VStr "nodeB"); mkAgent (VInt 1) (VStr "nodeA")] ->
               exists k, In k (map fst nodes) /\ py_eqb k (agent_node a) = true) /\
    (forall k, In k (map fst nodes) ->
               exists a, In a [mkAgent (VInt 2) (VStr "nodeB"); mkAgent (VInt 1) (VStr "nodeA")] /\
                         k = agent_node a).
Proof.
  apply (get_solver_node_all_agents example_env example_api
           [mkAgent (VInt 2) (VStr "nodeB"); mkAgent (VInt 1) (VStr "nodeA")]);
    try reflexivity.
  repeat constructor.
Defined.

Lemma forwarded_calls_are_flagged_witness :
  exists new,
    trace (snd (distribute_function example_env 3 example_api)) =
    (trace example_api ++ new)%list /\
    Forall forwarded_flag new.
Proof.
  apply (forwarded_calls_are_flagged example_env 3 example_api
           (snd (distribute_function example_env 3 example_api))
           (fst (distribute_function example_env 3 example_api))).
  vm_compute. reflexivity.
Defined.

Lemma distribute_function_no_agents_witness :
  distribute_function (example_env_with (Ok true) []) 1 example_api =
  (Ok (error_envelope 1000 "coroutine raised StopIteration"),
   set_from_cluster true example_api).
Proof.
  apply (distribute_function_no_agents (example_env_with (Ok true) []) 0 example_api);
    reflexivity.
Defined.

Lemma distribute_function_on_worker_witness :
  distribute_function example_env 1 example_worker_api =
  (Ok (VBytes "{}"),
   log_event (PeerSend "dapi" None (to_dict example_worker_api)) example_worker_api) /\
  distribute_function example_env 1
    (set_f_kwargs [("key", VBytes "ab")] example_worker_api) =
  (Ok (error_envelope 1000 "Object of type bytes is not JSON serializable"),
   set_f_kwargs [("key", VBytes "ab")] example_worker_api).
Proof.
  split.
  - apply (distribute_function_on_worker example_env 0 example_worker_api);
      try reflexivity; try discriminate.
  - apply (distribute_function_on_worker example_env 0
             (set_f_kwargs [("key", VBytes "ab")] example_worker_api));
      try reflexivity; try discriminate.
Defined.

(* ===================================================================== *)
(** * Further properties: local execution and merging                     *)
(* ===================================================================== *)

Section LocalAnswers.
Variable env : Env.

(** The goal is that some envelope is answered, and [debug] is off. *)
Ltac envelope_answer Hd :=
  cbn [on_loop in_executor wait_for_object res_bind TypeError];
  rewrite ?to_envelope_quiet by (simpl; exact Hd);
  try match goal with
      | |- context [match ?e with WazuhException _ _ => _ | _ => _ end] => destruct e
      end;
  do 3 eexists; reflexivity.

(** X17.  With [debug] off, [execute_local_request] never raises: whatever
    goes wrong (a missing timeout setting, an object that cannot be called,
    an exception of the target function, a result that cannot be awaited, the
    deadline) comes back as an envelope.  Without [wait_for_complete] it also
    never blocks, provided the call itself comes to an end where it is made
    (an ordinary function called with [is_async] holds the caller for as long
    as it runs): it always answers an envelope. *)
Theorem execute_local_request_answers (s : DistributedAPI) :
  debug s = false ->
  (forall e s', execute_local_request env s <> (Raise e, s')) /\
  (wait_for_complete s = false ->
   timeout_api_request env <> Hang ->
   (forall c, f s = VCallable c -> call_ends (is_async s) (call env c (f_kwargs s))) ->
   exists data code s', execute_local_request env s = (Ok (print_json data code), s')).
Proof.
  intros Hd. split.
  - intros e s'.
    unfold execute_local_request, try_except, bind, gets, run_local, lift, ret, modify,
      raise, to_envelope.
    cbn -[wait_for_object on_loop in_executor print_json]. rewrite ?Hd.
    repeat (break_inner; cbn -[wait_for_object on_loop in_executor print_json];
            rewrite ?Hd; try discriminate).
  - intros Hw Ht Hends.
    destruct (timeout_api_request env) as [limit|e|] eqn:Hl; [| |contradiction].
    + destruct (f s) as [| | | | | | |c|] eqn:Hf.
      1-7,9: unfold execute_local_request, try_except, bind, gets, run_local, lift, ret;
        cbn -[print_json to_envelope]; rewrite ?Hw, ?Hl; cbn -[print_json to_envelope];
        rewrite ?Hf; cbn -[print_json to_envelope]; envelope_answer Hd.
      rewrite (execute_local_request_run env s c Hf (Some limit)) by (now rewrite Hw, Hl).
      specialize (Hends c eq_refl). unfold call_ends in Hends.
      destruct (call env c (f_kwargs s)) as [t|name t].
      * destruct Hends as [Hdur Hout].
        destruct (is_async s); cbn [on_loop in_executor wait_for_object].
        -- destruct (duration t) as [d|]; [|now contradiction Hdur].
           destruct (outcome t) as [v|e|]; [| |contradiction]; cbn [res_bind];
             envelope_answer Hd.
        -- unfold wait_for. destruct (duration t) as [d|]; [destruct (d <=? limit)|].
           ++ destruct (outcome t) as [v|e|]; [| |contradiction].
              ** envelope_answer Hd.
              ** destruct e; envelope_answer Hd.
           ++ envelope_answer Hd.
           ++ envelope_answer Hd.
      * destruct (is_async s); cbn [on_loop in_executor wait_for_object].
        -- unfold wait_for. destruct (duration t) as [d|]; [destruct (d <=? limit)|].
           ++ destruct (outcome t) as [v|e|]; [| |contradiction].
              ** envelope_answer Hd.
              ** destruct e; envelope_answer Hd.
           ++ envelope_answer Hd.
           ++ envelope_answer Hd.
        -- unfold wait_for. cbn [duration outcome].
           destruct (0 <=? limit); envelope_answer Hd.
    + unfold execute_local_request, try_except, bind, gets, lift.
      cbn -[print_json to_envelope]; rewrite ?Hw, ?Hl; cbn -[print_json to_envelope].
      envelope_answer Hd.
Qed.

End LocalAnswers.

Lemma py_slice_length {A} (l : list A) (offset limit : Z) :
  0 <= limit ->
  Z.of_nat (List.length (py_slice l offset (offset + limit))) <= limit.
Proof.
  intros Hl. unfold py_slice.
  set (n := Z.of_nat (List.length l)).
  assert (Hn : 0 <= n) by (subst n; lia).
  assert (Hb : slice_bound n (offset + limit) - slice_bound n offset <= limit).
  { unfold slice_bound.
    destruct (offset <? 0) eqn:E1; destruct (offset + limit <? 0) eqn:E2; lia. }
  pose proof (firstn_le_length
                (Z.to_nat (slice_bound n (offset + limit) - slice_bound n offset))
                (skipn (Z.to_nat (slice_bound n offset)) l)) as Hf.
  lia.
Qed.

Lemma has_data_items_set merged items0 new page :
  has_data_items merged items0 ->
  has_data_items (set_data_items merged new) page ->
  page = new.
Proof.
  intros (fd & dd & -> & Hd & Hi) (fd' & dd' & Hf & Hd' & Hi').
  unfold set_data_items in Hf. rewrite Hd in Hf. injection Hf as <-.
  rewrite dict_get_set_same in Hd'. injection Hd' as <-.
  rewrite dict_get_set_same in Hi'. now injection Hi' as <-.
Qed.

Section PageBound.
Variable env : Env.

(** X18.  The page that [merge_results] leaves at [data.items] never holds
    more items than the limit of the request (the declared one, or
    [common.database_limit]), as long as that limit is not negative: this
    holds for every offset, negative ones included, and whatever
    [utils.sort_array] answers. *)
Theorem merge_results_page_bound (responses : list value) (acc final : value)
        (s s' : DistributedAPI) (page : list value) (limit : Z) :
  merge_results env responses acc s = (Ok final, s') ->
  has_data_items final page ->
  declared_int (f_kwargs s) "limit" (database_limit env) limit ->
  0 <= limit ->
  Z.of_nat (List.length page) <= limit.
Proof.
  intros H Hpage Hlim Hpos. unfold merge_results, bind in H.
  destruct (merge_responses env responses acc s) as [[merged|e|] s1] eqn:Hm;
    try discriminate.
  pose proof (merge_responses_transition env responses acc _ _ _ Hm) as Hstep.
  assert (Hkw : with_defaults env (f_kwargs s1) = with_defaults env (f_kwargs s)).
  { destruct Hstep as [-> | ->]; auto. simpl. apply with_defaults_idem. }
  destruct (has_data_items_dec merged) as [[items0 Hitems]|Hnone].
  - rewrite (paginate_on_items env merged items0 s1 Hitems) in H.
    cbv zeta in H. rewrite Hkw in H. injection H as H _.
    apply res_bind_ok in H as (arranged & _ & H).
    apply res_bind_ok in H as (offset_v & _ & H).
    apply res_bind_ok in H as (limit_v & Hlv & H).
    apply res_bind_ok in H as (offset & _ & H).
    apply res_bind_ok in H as (limit' & Hl' & H).
    injection H as <-.
    simpl in Hlv. rewrite (declared_limit env _ _ Hlim) in Hlv. injection Hlv as <-.
    simpl in Hl'. injection Hl' as <-.
    rewrite (has_data_items_set _ _ _ _ Hitems Hpage).
    now apply py_slice_length.
  - destruct (paginate_without_items env merged s1 _ _ H Hnone) as [_ [Hr|[e Hr]]];
      [|discriminate].
    injection Hr as <-. exfalso. exact (Hnone page Hpage).
Qed.
End PageBound.

Section MergeStrings.
Variable env : Env.

Lemma merge_field_str key new fd s cur :
  acc_str fd key cur ->
  merge_field env key (VStr new) (VDict fd) s =
  (Ok (VDict (dict_set fd key (VStr (merge_str cur new)))), s).
Proof.
  intros Hacc. destruct cur as [c|]; simpl in Hacc; simpl; unfold bind, lift, ret; simpl;
    unfold dict_mem; rewrite Hacc; simpl; [|reflexivity].
  unfold some_not_restarted, all_restarted.
  destruct (String.eqb new "Some agents were not restarted" &&
            String.eqb c "All selected agents were restarted"); simpl; [reflexivity|].
  now rewrite dict_set_same.
Qed.

Lemma strs_at_cons k d ds : strs_at k (d :: ds) = (strs_at k [d] ++ strs_at k ds)%list.
Proof. unfold strs_at. simpl. now rewrite app_nil_r. Qed.

Lemma merge_items_str k d cur :
  unique_keys d -> str_or_absent (dict_get d k) ->
  forall fd s final' s',
    acc_str fd k cur ->
    merge_items env d (VDict fd) s = (Ok final', s') ->
    exists fd', final' = VDict fd' /\
      acc_str fd' k (fold_left (fun c m => Some (merge_str c m)) (strs_at k [d]) cur).
Proof.
  intros Hu Hstr fd s final' s' Hacc H.
  destruct (merge_items_key env k d Hu _ _ _ _ H) as (fd' & -> & Hk).
  exists fd'. split; [reflexivity|].
  unfold strs_at. simpl. rewrite app_nil_r.
  destruct Hstr as [Hn|[m Hn]]; rewrite Hn in *; simpl.
  - destruct cur; simpl in *; congruence.
  - destruct Hk as (fd0 & s0 & fd1 & s1 & H0 & H1 & H2).
    rewrite (merge_field_str k m fd0 s0 cur) in H1.
    + injection H1 as <- <-. rewrite H2. apply dict_get_set_same.
    + destruct cur as [c|]; simpl in *; congruence.
Qed.

Lemma merge_responses_str k ds :
  Forall unique_keys ds -> Forall (fun d => str_or_absent (dict_get d k)) ds ->
  forall cur fd s final' s',
    acc_str fd k cur ->
    merge_responses env (map VDict ds) (VDict fd) s = (Ok final', s') ->
    exists fd', final' = VDict fd' /\
      acc_str fd' k (fold_left (fun c m => Some (merge_str c m)) (strs_at k ds) cur).
Proof.
  induction ds as [|d ds IH]; intros Hu Hstr cur fd s final' s' Hacc H; simpl in H.
  - injection H as <- <-. eauto.
  - inversion Hu as [|? ? Hu1 Hu2]; inversion Hstr as [|? ? Hi1 Hi2]; subst.
    unfold bind in H.
    destruct (merge_items env d (VDict fd) s) as [[mid| |] s1] eqn:Ed; try discriminate.
    destruct (merge_items_str k d cur Hu1 Hi1 _ _ _ _ Hacc Ed) as (fd1 & -> & Hacc1).
    destruct (IH Hu2 Hi2 _ _ _ _ _ Hacc1 H) as (fd' & -> & Hacc').
    exists fd'. split; [reflexivity|].
    now rewrite strs_at_cons, fold_left_app.
Qed.

Lemma fold_merge_str_keeps later c :
  c <> all_restarted ->
  fold_left (fun c m => Some (merge_str c m)) later (Some c) = Some c.
Proof.
  intros Hc. apply String.eqb_neq in Hc.
  induction later as [|m later IH]; simpl; [reflexivity|].
  rewrite Hc, andb_false_r. exact IH.
Qed.

Lemma fold_merge_str_all later :
  fold_left (fun c m => Some (merge_str c m)) later (Some all_restarted) =
  Some (if existsb (String.eqb some_not_restarted) later
        then some_not_restarted else all_restarted).
Proof.
  induction later as [|m later IH]; [reflexivity|].
  cbn [fold_left existsb].
  assert (Hstep : merge_str (Some all_restarted) m =
                  if String.eqb m some_not_restarted then m else all_restarted).
  { unfold merge_str. now rewrite String.eqb_refl, andb_true_r. }
  rewrite Hstep, (String.eqb_sym some_not_restarted m).
  destruct (String.eqb m some_not_restarted) eqn:E; cbn [orb].
  - apply String.eqb_eq in E. subst m. now apply fold_merge_str_keeps.
  - exact IH.
Qed.

(** X19.  A key that is string-valued in the contributors keeps the string
    of the first contributor that has it, with one exception: when that
    string is [All selected agents were restarted], it gives way to [Some
    agents were not restarted] as soon as a later contributor reports it.  So
    one node that failed to restart its agents shows in the merged message
    wherever it comes in the order. *)
Theorem merge_results_string_key (k : string) (ds : list dict)
        (s s' : DistributedAPI) (final : value) (first : string) (later : list string) :
  Forall unique_keys ds ->
  Forall (fun d => str_or_absent (dict_get d k)) ds ->
  strs_at k ds = first :: later ->
  merge_results env (map VDict ds) (VDict []) s = (Ok final, s') ->
  exists merged,
    py_getitem final k = Ok (VStr merged) /\
    (first <> all_restarted -> merged = first) /\
    (first = all_restarted -> In some_not_restarted later -> merged = some_not_restarted) /\
    (first = all_restarted -> ~ In some_not_restarted later -> merged = first).
Proof.
  intros Hu Hstr Hall H.
  unfold merge_results, bind in H.
  destruct (merge_responses env (map VDict ds) (VDict []) s) as [[mid| |] s1] eqn:Em;
    try discriminate.
  assert (Hempty : acc_str [] k None) by reflexivity.
  destruct (merge_responses_str k ds Hu Hstr None _ _ _ _ Hempty Em) as (fd' & -> & Hfd').
  rewrite Hall in Hfd'. simpl in Hfd'.
  assert (Hval : exists merged,
             fold_left (fun c m => Some (merge_str c m)) later (Some first) = Some merged /\
             (first <> all_restarted -> merged = first) /\
             (first = all_restarted -> In some_not_restarted later ->
              merged = some_not_restarted) /\
             (first = all_restarted -> ~ In some_not_restarted later -> merged = first)).
  { destruct (String.eqb first all_restarted) eqn:E.
    - apply String.eqb_eq in E. subst first. rewrite fold_merge_str_all.
      eexists. split; [reflexivity|].
      destruct (existsb (String.eqb some_not_restarted) later) eqn:Ex.
      + repeat split; auto; try congruence.
        intros _ Hnot. exfalso. apply Hnot.
        apply existsb_exists in Ex as (m & Hm & Heq).
        apply String.eqb_eq in Heq. now subst m.
      + repeat split; auto.
        intros _ Hin. assert (Ht : existsb (String.eqb some_not_restarted) later = true).
        { apply existsb_exists. exists some_not_restarted. split; [exact Hin|].
          apply String.eqb_refl. }
        congruence.
    - apply String.eqb_neq in E. rewrite fold_merge_str_keeps by exact E.
      eexists. split; [reflexivity|]. repeat split; auto; contradiction. }
  destruct Hval as (merged & Hfold & Hrest).
  rewrite Hfold in Hfd'. simpl in Hfd'.
  exists merged. split; [|exact Hrest].
  eapply paginate_keeps; eauto. discriminate.
Qed.
End MergeStrings.

Lemma dict_mem_set_same {A} (d : list (string * A)) k v : dict_mem (dict_set d k v) k = true.
Proof. apply dict_mem_get. eexists. apply dict_get_set_same. Qed.

Lemma dict_mem_set_mono {A} (d : list (string * A)) k k' v :
  dict_mem d k = true -> dict_mem (dict_set d k' v) k = true.
Proof.
  intros H. destruct (String.eqb k k') eqn:E.
  - apply String.eqb_eq in E. subst k'. apply dict_mem_set_same.
  - apply String.eqb_neq in E. apply dict_mem_get in H as [x Hx].
    apply dict_mem_get. exists x. rewrite dict_get_set_other; auto.
Qed.

Section MergeKeys.
Variable env : Env.

Lemma merge_items_keys d :
  forall fd s final' s',
    merge_items env d (VDict fd) s = (Ok final', s') ->
    exists fd', final' = VDict fd' /\
      (forall k, dict_mem fd k = true -> dict_mem fd' k = true) /\
      (forall k, dict_mem d k = true -> dict_mem fd' k = true).
Proof.
  induction d as [|[key field] rest IH]; intros fd s final' s' H; simpl in H.
  - injection H as <- <-. exists fd. repeat split; auto. discriminate.
  - unfold bind in H.
    destruct (merge_field env key field (VDict fd) s) as [[mid|e|] s1] eqn:Ef;
      try discriminate.
    destruct (merge_field_frame env _ _ _ _ _ _ Ef) as [v ->].
    destruct (IH _ _ _ _ H) as (fd' & -> & Hacc & Hrest).
    exists fd'. split; [reflexivity|]. split.
    + intros k Hk. apply Hacc. now apply dict_mem_set_mono.
    + intros k Hk. unfold dict_mem in Hk. simpl in Hk.
      destruct (String.eqb k key) eqn:E.
      * apply String.eqb_eq in E. subst k. apply Hacc. apply dict_mem_set_same.
      * apply Hrest. exact Hk.
Qed.

Lemma merge_responses_keys responses :
  forall fd s final' s',
    merge_responses env responses (VDict fd) s = (Ok final', s') ->
    exists fd', final' = VDict fd' /\
      (forall k, dict_mem fd k = true -> dict_mem fd' k = true) /\
      (forall d k, In (VDict d) responses -> dict_mem d k = true -> dict_mem fd' k = true) /\
      Forall is_dict responses.
Proof.
  induction responses as [|r rest IH]; intros fd s final' s' H; simpl in H.
  - injection H as <- <-. exists fd. split; [reflexivity|]. split; [auto|].
    split; [intros d k []|constructor].
  - unfold bind in H.
    destruct (merge_local env r (VDict fd) s) as [[mid|e|] s1] eqn:El; try discriminate.
    destruct r as [| | | | | |d| |]; try discriminate. simpl in El.
    destruct (merge_items_keys d _ _ _ _ El) as (fd1 & -> & Hacc1 & Hd).
    destruct (IH _ _ _ _ H) as (fd' & -> & Hacc & Hrest & Hdicts).
    exists fd'. split; [reflexivity|]. repeat split.
    + intros k Hk. auto.
    + intros d0 k [[= <-]|Hin] Hk; [auto|]. now apply (Hrest d0).
    + constructor; [now exists d|exact Hdicts].
Qed.

(** X20.  [merge_results] succeeds only when every response is a dictionary
    (anything else has no [items()]), and then it loses no key: the result is
    a dictionary that has every key of the accumulator and every key of every
    response. *)
Theorem merge_results_keeps_keys (responses : list value) (acc : dict) (final : value)
        (s s' : DistributedAPI) :
  merge_results env responses (VDict acc) s = (Ok final, s') ->
  Forall is_dict responses /\
  exists fd,
    final = VDict fd /\
    (forall k, dict_mem acc k = true -> dict_mem fd k = true) /\
    (forall d k, In (VDict d) responses -> dict_mem d k = true -> dict_mem fd k = true).
Proof.
  intros H. unfold merge_results, bind in H.
  destruct (merge_responses env responses (VDict acc) s) as [[mid|e|] s1] eqn:Em;
    try discriminate.
  destruct (merge_responses_keys _ _ _ _ _ Em) as (fd1 & -> & Hacc & Hrest & Hdicts).
  split; [exact Hdicts|].
  destruct (paginate_frame env _ _ _ _ H) as [-> | (dd & v & _ & ->)].
  - exists fd1. auto.
  - eexists. split; [reflexivity|]. split.
    + intros k Hk. apply dict_mem_set_mono. auto.
    + intros d k Hin Hk. apply dict_mem_set_mono. eauto.
Qed.
End MergeKeys.

(** The properties of this part on the small cluster. *)

Lemma execute_local_request_answers_witness :
  (forall e s', execute_local_request example_env example_api <> (Raise e, s')) /\
  (wait_for_complete example_api = false ->
   timeout_api_request example_env <> Hang ->
   (forall c, f example_api = VCallable c ->
              call_ends (is_async example_api) (call example_env c (f_kwargs example_api))) ->
   exists data code s',
     execute_local_request example_env example_api = (Ok (print_json data code), s')).
Proof.
  apply (execute_local_request_answers example_env example_api). reflexivity.
Defined.

Lemma merge_results_page_bound_witness :
  Z.of_nat (List.length [VInt 7; VInt 6; VInt 5]) <= 3.
Proof.
  eapply (merge_results_page_bound example_env [ten_items_payload] (VDict []) _
            (example_api_with "get_agents" page_request false
                              "distributed_master" false false)
            _ [VInt 7; VInt 6; VInt 5] 3).
  - vm_compute. reflexivity.
  - eexists. eexists. repeat split; reflexivity.
  - reflexivity.
  - lia.
Defined.

Lemma merge_results_string_key_witness :
  exists merged,
    py_getitem (VDict [("msg", VStr some_not_restarted)]) "msg" = Ok (VStr merged) /\
    (all_restarted <> all_restarted -> merged = all_restarted) /\
    (all_restarted = all_restarted -> In some_not_restarted [some_not_restarted] ->
     merged = some_not_restarted) /\
    (all_restarted = all_restarted -> ~ In some_not_restarted [some_not_restarted] ->
     merged = all_restarted).
Proof.
  apply (merge_results_string_key example_env "msg"
           [[("msg", VStr all_restarted)]; [("msg", VStr some_not_restarted)]]
           example_api example_api
           (VDict [("msg", VStr some_not_restarted)])
           all_restarted [some_not_restarted]).
  - constructor; [unique_keys_by_computation|].
    constructor; [unique_keys_by_computation|constructor].
  - constructor; [right; eexists; reflexivity|].
    constructor; [right; eexists; reflexivity|constructor].
  - reflexivity.
  - vm_compute. reflexivity.
Defined.

Lemma merge_results_keeps_keys_witness :
  Forall is_dict [ten_items_payload; VDict [("msg", VStr all_restarted)]] /\
  exists fd,
    VDict [("data", VDict [("items", VList ten_items); ("totalItems", VInt 10)]);
           ("error", VInt 0); ("msg", VStr all_restarted)] = VDict fd /\
    (forall k, dict_mem (@nil (string * value)) k = true -> dict_mem fd k = true) /\
    (forall d k, In (VDict d) [ten_items_payload; VDict [("msg", VStr all_restarted)]] ->
                 dict_mem d k = true -> dict_mem fd k = true).
Proof.
  apply (merge_results_keeps_keys example_env
           [ten_items_payload; VDict [("msg", VStr all_restarted)]] []
           _ example_api
           (set_f_kwargs [("offset", VInt 0); ("limit", VInt 500)] example_api)).
  vm_compute. reflexivity.
Defined.

(* ===================================================================== *)
(** * Further properties: decode errors, fan-out, frame                   *)
(* ===================================================================== *)

Section HookErrors.
Variable resolver : Resolver.

Lemma as_callable_error dct e :
  as_callable resolver dct = Raise e -> is_key_or_attribute_error e = false.
Proof.
  unfold as_callable. destruct (dict_mem dct "__callable__"); [|discriminate].
  destruct (dict_get dct "__callable__") as [enc|]; [|discriminate].
  destruct (decode_callable resolver enc) as [v|e0|]; try discriminate.
  destruct (is_key_or_attribute_error e0) eqn:E; intros [= <-]; [reflexivity|exact E].
Qed.

Lemma res_bind_raise {A B} (r : res A) (k : A -> res B) e :
  res_bind r k = Raise e -> r = Raise e \/ exists a, r = Ok a /\ k a = Raise e.
Proof. destruct r; simpl; intros H; [right; eauto | left; now injection H as ->| discriminate]. Qed.

(** X21.  [json.loads(..., object_hook=as_callable)] never raises a
    [KeyError] or an [AttributeError]: inside [as_callable] both are turned
    into the decode error, at every depth of the parsed text.  Any other
    exception of the lookup (a module that cannot be imported, say) comes out
    as it was raised. *)
Theorem object_hook_error (v : value) (e : exn) :
  object_hook resolver v = Raise e -> is_key_or_attribute_error e = false.
Proof.
  induction v as [| | | | |l IHl|d IHd| |] using value_induction; intros Hv;
    try discriminate.
  - rewrite object_hook_list in Hv.
    apply res_bind_raise in Hv as [Hl|(l' & _ & [=])].
    induction IHl as [|x xs Hx _ IH]; [discriminate|].
    rewrite hook_elements_cons in Hl.
    apply res_bind_raise in Hl as [Hl|(x' & _ & Hl)]; [auto|].
    apply res_bind_raise in Hl as [Hl|(rest' & _ & [=])]. auto.
  - rewrite object_hook_dict in Hv.
    apply res_bind_raise in Hv as [Hd|(d' & _ & Ha)]; [|now apply as_callable_error in Ha].
    induction IHd as [|[k x] xs Hx _ IH]; [discriminate|].
    rewrite hook_members_cons in Hd.
    apply res_bind_raise in Hd as [Hd|(x' & _ & Hd)]; [auto|].
    apply res_bind_raise in Hd as [Hd|(rest' & _ & [=])]. auto.
Qed.
End HookErrors.

Lemma dict_set_set {A} (d : list (string * A)) k v1 v2 :
  dict_set (dict_set d k v1) k v2 = dict_set d k v2.
Proof.
  induction d as [|[k1 x] rest IH]; simpl.
  - now rewrite String.eqb_refl.
  - destruct (String.eqb k k1) eqn:E; simpl; rewrite E; [reflexivity|now rewrite IH].
Qed.

Section FanOut.
Variable env : Env.

Lemma inject_agent_id_list ids s wanted :
  ids <> [] ->
  dict_get (f_kwargs s) "agent_id" = Some (VList wanted) ->
  inject_agent_id ids s = set_f_kwargs (dict_set (f_kwargs s) "agent_id" (VList ids)) s.
Proof.
  intros Hne Ha. unfold inject_agent_id. destruct ids; [contradiction|]. now rewrite Ha.
Qed.

Lemma gather_sends_buckets (reenter : M value) (nodes : solver_map)
        (s s' : DistributedAPI) (wanted : list value) (results : list value) :
  dict_get (f_kwargs s) "agent_id" = Some (VList wanted) ->
  Forall (remote_bucket s) nodes ->
  gather env reenter nodes s = (Ok results, s') ->
  trace s' = (trace s ++ map (bucket_call s) nodes)%list /\
  List.length results = List.length nodes.
Proof.
  revert s wanted results. induction nodes as [|[node ids] rest IH];
    intros s wanted results Ha Hall H.
  - injection H as <- <-. split; [now rewrite app_nil_r|reflexivity].
  - inversion Hall as [|? ? [Hself Hne] Hrest]; subst. simpl in Hself, Hne.
    cbn [gather] in H. unfold bind at 1 in H.
    rewrite (forward_remote env reenter node ids s Hself) in H.
    rewrite (inject_agent_id_list ids s wanted Hne Ha) in H.
    destruct (json_dumps env _) as [data|e0|]; try discriminate.
    set (s1 := log_event _ _) in H.
    destruct (res_bind _ _) as [r|e|]; try discriminate.
    unfold bind at 1 in H.
    destruct (gather env reenter rest s1) as [[rs|e|] s2] eqn:Hg; try discriminate.
    injection H as <- <-.
    destruct (IH s1 ids rs) as [Ht Hlen]; [| |exact Hg|].
    + subst s1. simpl. apply dict_get_set_same.
    + revert Hrest. apply Forall_impl. intros entry [H1 H2]. split; [exact H1|exact H2].
    + split; [|simpl; now rewrite Hlen].
      rewrite Ht. subst s1. simpl. rewrite <- app_assoc. simpl. f_equal. f_equal.
      apply map_ext. intros entry. unfold bucket_call. simpl.
      now rewrite dict_set_set.
Qed.
End FanOut.

Section FanOutRequest.
Variable env : Env.

(** X22.  A request for a list of agents whose nodes are all other nodes is
    sent once to each node of the solver map, in the order of the map, and
    each node receives the call with [agent_id] replaced by its own ids (and
    [from_cluster] set): no node sees the ids of another, and nothing else
    is sent. *)
Theorem forward_request_sends_buckets (reenter : M value) (s s' : DistributedAPI)
        (nodes : solver_map) (wanted : list value) (final : value) :
  dict_get (f_kwargs s) "agent_id" = Some (VList wanted) ->
  get_solver_node env s = (Ok nodes, s) ->
  Forall (remote_bucket s) nodes ->
  forward_request env reenter s = (Ok final, s') ->
  trace s' = (trace s ++ map (bucket_call (set_from_cluster true s)) nodes)%list.
Proof.
  intros Ha Hs Hall H. unfold forward_request in H. unfold bind at 1 in H.
  rewrite Hs in H. unfold bind at 1, modify in H.
  set (s1 := set_from_cluster true s) in *.
  assert (Hall1 : Forall (remote_bucket s1) nodes).
  { revert Hall. apply Forall_impl. intros entry [H1 H2]. split; [exact H1|exact H2]. }
  destruct nodes as [|e1 [|e2 rest]].
  - discriminate.
  - destruct e1 as [node ids].
    inversion Hall1 as [|? ? [Hself Hne] _]; subst. simpl in Hself, Hne.
    rewrite (forward_remote env reenter node ids s1 Hself) in H.
    rewrite (inject_agent_id_list ids s1 wanted Hne Ha) in H.
    destruct (json_dumps env _) as [data|e0|]; try discriminate.
    injection H as _ <-. reflexivity.
  - unfold bind in H.
    destruct (gather env reenter (e1 :: e2 :: rest) s1) as [[results|e|] s2] eqn:Hg;
      try discriminate.
    destruct (gather_sends_buckets env reenter (e1 :: e2 :: rest) s1 s2 wanted results
                Ha Hall1 Hg) as [Ht _].
    assert (Hstep : kw_step env s2 s').
    { revert H. unfold merge_results.
      apply (transition_bind (kw_step env)); [exact (kw_step_trans env)| |intros merged].
      - apply merge_responses_transition.
      - apply paginate_transition. }
    destruct (kw_step_trace env s2 s' Hstep) as [Ht' _].
    now rewrite Ht', Ht.
Qed.

(** X23.  What [distribute_function] may change on the object: the
    arguments of the call, [from_cluster] (which, once true, stays true) and
    the record of the calls made; the target function, [debug], the request
    type, [wait_for_complete], [is_async] and the node identity are as
    before, however the call ends. *)
Theorem distribute_function_frame (depth : nat) (s s' : DistributedAPI) (r : res value) :
  distribute_function env depth s = (r, s') ->
  s' = mkDAPI (f s) (f_kwargs s') (debug s) (request_type s) (wait_for_complete s)
              (from_cluster s') (is_async s) (node_type s) (node_name s) (trace s') /\
  (from_cluster s = true -> from_cluster s' = true).
Proof.
  intros H. apply distribute_function_keeps in H.
  destruct H as (H1 & H2 & H3 & H4 & H5 & H6 & H7 & H8).
  split; [|exact H8]. destruct s, s'; simpl in *. congruence.
Qed.
End FanOutRequest.

(** The properties of this part on the small cluster. *)

Lemma object_hook_error_witness :
  is_key_or_attribute_error (PyError "TypeError" "Wazuh object cannot be decoded from JSON")
  = false.
Proof.
  apply (object_hook_error example_resolver
           (VList [VDict [("f", VDict [("__callable__", VDict [])])]])).
  reflexivity.
Defined.

Lemma forward_request_sends_buckets_witness :
  trace (snd (forward_request example_env (distribute_function example_env 2)
                (example_api_with "restart_agents" [("agent_id", VList [VInt 1; VInt 2])]
                   false "distributed_master" false false))) =
  map (bucket_call
         (example_api_with "restart_agents" [("agent_id", VList [VInt 1; VInt 2])]
            false "distributed_master" false true))
      [(VStr "nodeB", [VInt 2]); (VStr "nodeA", [VInt 1])].
Proof.
  eapply (forward_request_sends_buckets example_env (distribute_function example_env 2)
            (example_api_with "restart_agents" [("agent_id", VList [VInt 1; VInt 2])]
               false "distributed_master" false false)
            _ [(VStr "nodeB", [VInt 2]); (VStr "nodeA", [VInt 1])] [VInt 1; VInt 2]).
  - reflexivity.
  - reflexivity.
  - repeat constructor; discriminate.
  - vm_compute. reflexivity.
Defined.

Lemma distribute_function_frame_witness :
  snd (distribute_function example_env 3 example_api) =
  mkDAPI (f example_api) (f_kwargs (snd (distribute_function example_env 3 example_api)))
         (debug example_api) (request_type example_api) (wait_for_complete example_api)
         (from_cluster (snd (distribute_function example_env 3 example_api)))
         (is_async example_api) (node_type example_api) (node_name example_api)
         (trace (snd (distribute_function example_env 3 example_api))) /\
  (from_cluster example_api = true ->
   from_cluster (snd (distribute_function example_env 3 example_api)) = true).
Proof.
  apply (distribute_function_frame example_env 3 example_api
           (snd (distribute_function example_env 3 example_api))
           (fst (distribute_function example_env 3 example_api))).
  vm_compute. reflexivity.
Defined.

(* ===================================================================== *)
(** * Further properties: a directory answer that is not grouped          *)
(* ===================================================================== *)

Lemma dict_of_groups_last value_of groups :
  forall acc out node,
    hashable_keys acc -> hashable node = true ->
    dict_of_groups value_of groups acc = Ok out ->
    solver_get out node =
    match last_group node groups with
    | Some g => Some (value_of g)
    | None => solver_get acc node
    end.
Proof.
  induction groups as [|[k g] rest IH]; intros acc out node Hacc Hn H; simpl in H.
  - now injection H as <-.
  - destruct (hashable k) eqn:Hk; [|discriminate].
    rewrite (IH _ _ node (solver_set_hashable acc k (value_of g) Hacc Hk) Hn H).
    simpl. destruct (last_group node rest); [reflexivity|].
    rewrite solver_get_set by assumption. destruct (py_eqb k node); reflexivity.
Qed.

Lemma dict_of_groups_hashable value_of groups :
  forall acc out,
    hashable_keys acc ->
    dict_of_groups value_of groups acc = Ok out -> hashable_keys out.
Proof.
  induction groups as [|[k g] rest IH]; intros acc out Hacc H; simpl in H.
  - now injection H as <-.
  - destruct (hashable k) eqn:Hk; [|discriminate].
    apply (IH _ _ (solver_set_hashable acc k (value_of g) Hacc Hk) H).
Qed.

Section LastRun.
Variable env : Env.

(** X24.  For a request that names a list of agents, what the solver map
    holds for a node other than this one is the ids of the LAST run of
    consecutive directory entries of that node: when the directory answers
    the agents of a node in several runs (not next to each other), the ids of
    the earlier runs are in no entry for that node. *)
Theorem get_solver_node_keeps_last_run (s s' : DistributedAPI) (wanted : list value)
        (agents : list agent_item) (nodes : solver_map) (node : value) :
  dict_get (f_kwargs s) "agent_id" = Some (VList wanted) ->
  get_agents_overview env (Some wanted) "node" = Ok agents ->
  get_solver_node env s = (Ok nodes, s') ->
  hashable node = true ->
  py_eqb (VStr (node_name s)) node = false ->
  solver_get nodes node = option_map (map agent_id) (last_group node (groupby agents)).
Proof.
  intros Ha Hg H Hn Hown.
  unfold get_solver_node, bind, gets, lift, ret in H. rewrite Ha, Hg in H.
  destruct (dict_of_groups (map agent_id) (groupby agents) []) as [out|e|] eqn:Hout;
    try discriminate.
  assert (Hlast : solver_get out node =
                  option_map (map agent_id) (last_group node (groupby agents))).
  { rewrite (dict_of_groups_last _ _ [] out node (Forall_nil _) Hn Hout).
    destruct (last_group node (groupby agents)); reflexivity. }
  assert (Hkeys : hashable_keys out).
  { apply (dict_of_groups_hashable _ _ [] out (Forall_nil _) Hout). }
  destruct (py_set wanted []) as [requested|e|]; try discriminate.
  destruct (py_set (map agent_id agents) []) as [found|e|]; try discriminate.
  destruct (set_iteration env _) as [|i rest].
  - injection H as <- _. exact Hlast.
  - destruct (solver_get out (VStr (node_name s))); injection H as <- _;
      rewrite solver_get_set by (auto); rewrite Hown; exact Hlast.
Qed.
End LastRun.

Lemma get_solver_node_keeps_last_run_witness :
  solver_get [(VStr "nodeA", [VInt 3]); (VStr "nodeB", [VInt 2])] (VStr "nodeA") =
  Some [VInt 3].
Proof.
  apply (get_solver_node_keeps_last_run example_env_two_runs
           (example_api_with "restart_agents"
              [("agent_id", VList [VInt 1; VInt 2; VInt 3])]
              false "distributed_master" false false)
           (example_api_with "restart_agents"
              [("agent_id", VList [VInt 1; VInt 2; VInt 3])]
              false "distributed_master" false false)
           [VInt 1; VInt 2; VInt 3]
           [mkAgent (VInt 1) (VStr "nodeA"); mkAgent (VInt 2) (VStr "nodeB");
            mkAgent (VInt 3) (VStr "nodeA")]
           [(VStr "nodeA", [VInt 3]); (VStr "nodeB", [VInt 2])]
           (VStr "nodeA"));
    reflexivity.
Defined.
